(** * ordb: query classification, matching, de-duplication and ranking

    A shallow embedding of the search engine of [src/ordb/core.py] and of
    the dispatch in [src/ordb/cli.py], with the properties the
    specification states about them.

    - A Python [str] is a sequence of Unicode code points: [list N].
    - A row of the [articles] table is a record with one field per
      selected column; a column that may hold NULL is an [option].
    - The SQL text sent through the cursor is embedded with SQLite's
      semantics: three-valued logic, [COLLATE NOCASE] and [LIKE] folding
      the 26 ASCII capitals only.
    - The loops over [cursor.fetchall()] thread the pair
      [(results, seen_ids)] explicitly.
    - [str.lower] and [difflib.SequenceMatcher.ratio] belong to the Python
      runtime: the engine is parameterised by them ([PyRuntime]).
    - The two functions that read the structure of an entry,
      [get_definitions_and_examples] and [get_related_expressions], and
      the text [main] hands to the pager follow the engine; the properties
      of the engine come first, further properties of the whole after
      them. *)

From Stdlib Require Import ZArith NArith QArith Ascii String DecimalString.
From stdpp Require Import base option list gmap sorting.

Local Open Scope N_scope.
Local Open Scope list_scope.

(** ** Python strings *)

Module Str.

Definition str := list N.

(** Literals: the code points of an ASCII literal. *)
Definition py (s : string) : str :=
  List.map N_of_ascii (list_ascii_of_string s).

Fixpoint eqb (a b : str) : bool :=
  match a, b with
  | [], [] => true
  | x :: a', y :: b' => N.eqb x y && eqb a' b'
  | _, _ => false
  end.

(** [s.startswith(p)] *)
Fixpoint startswith (s p : str) {struct p} : bool :=
  match p with
  | [] => true
  | c :: p' =>
      match s with
      | [] => false
      | d :: s' => N.eqb c d && startswith s' p'
      end
  end.

(** [s.endswith(p)] *)
Definition endswith (s p : str) : bool := startswith (rev s) (rev p).

(** [s[1:]] *)
Definition slice_from_1 (s : str) : str := drop 1 s.

(** [s[:-1]] *)
Definition slice_to_last (s : str) : str := take (length s - 1) s.

(** [needle in s] *)
Fixpoint contains (needle s : str) : bool :=
  startswith s needle ||
  match s with
  | [] => false
  | _ :: s' => contains needle s'
  end.

(** [x in l] for a list of strings *)
Definition mem (x : str) (l : list str) : bool := existsb (eqb x) l.

(** [a < b]: strings compare by code point, a proper prefix first. *)
Fixpoint ltb (a b : str) : bool :=
  match a, b with
  | _, [] => false
  | [], _ :: _ => true
  | x :: a', y :: b' => N.ltb x y || (N.eqb x y && ltb a' b')
  end.

(** [s.replace(old, new)] for a non-empty [old]: occurrences are found
    from the left and do not overlap.  [skip] counts the characters of
    a replaced occurrence that are still to be passed over. *)
Fixpoint replace_from (old new s : str) (skip : nat) : str :=
  match s with
  | [] => []
  | c :: s' =>
      match skip with
      | S k => replace_from old new s' k
      | O =>
          if startswith s old
          then new ++ replace_from old new s' (length old - 1)
          else c :: replace_from old new s' 0
      end
  end.

Definition replace (old new s : str) : str := replace_from old new s 0.

(** [s.split(sep)] for a non-empty [sep].  [cur] holds the piece being
    read, latest character first. *)
Fixpoint split_from (sep s : str) (skip : nat) (cur : str) : list str :=
  match s with
  | [] => [rev cur]
  | c :: s' =>
      match skip with
      | S k => split_from sep s' k cur
      | O =>
          if startswith s sep
          then rev cur :: split_from sep s' (length sep - 1) []
          else split_from sep s' 0 (c :: cur)
      end
  end.

Definition split (sep s : str) : list str := split_from sep s 0 [].

(** [str.isspace] on one character: the code points Python treats as
    white space. *)
Definition isspace (c : N) : bool :=
  ((9 <=? c) && (c <=? 13)) || ((28 <=? c) && (c <=? 32)) ||
  (c =? 133) || (c =? 160) || (c =? 5760) ||
  ((8192 <=? c) && (c <=? 8202)) || (c =? 8232) || (c =? 8233) ||
  (c =? 8239) || (c =? 8287) || (c =? 12288).

(** [s.split()]: maximal runs of characters that are not white space. *)
Fixpoint words_from (s : str) (cur : str) : list str :=
  match s with
  | [] => match cur with [] => [] | _ => [rev cur] end
  | c :: s' =>
      if isspace c
      then match cur with
           | [] => words_from s' []
           | _ => rev cur :: words_from s' []
           end
      else words_from s' (c :: cur)
  end.

Definition words (s : str) : list str := words_from s [].

(** The truth value of a string: empty is false. *)
Definition truthy (s : str) : bool :=
  match s with [] => false | _ => true end.

End Str.

Import Str.

(** ** Query classifier *)

(** The tags ['exact'], ['fulltext'], ['prefix'], ['anywhere_term'],
    ['expressions_only'], ['fuzzy'] and ['anywhere']. *)
Inductive search_type : Type :=
  | Exact | Fulltext | Prefix | AnywhereTerm
  | ExpressionsOnly | Fuzzy | Anywhere.

Definition percent : N := 37.   (* '%' *)
Definition at_sign : N := 64.   (* '@' *)

(** [parse_search_query(query)] returns
    [(search_type, query, original_query)]. *)
Definition parse_search_query (query : str) : search_type * str * str :=
  let original_query := query in
  if startswith query [percent] then
    (Fulltext, slice_from_1 query, original_query)
  else if endswith query [at_sign] && negb (startswith query [at_sign]) then
    (Prefix, slice_to_last query, original_query)
  else if startswith query [at_sign] then
    let query := slice_from_1 query in
    let query := if endswith query [at_sign] then slice_to_last query
                 else query in
    (AnywhereTerm, query, original_query)
  else
    (Exact, query, original_query).

(** ** The Python runtime

    [str.lower] follows the Unicode case tables and
    [SequenceMatcher(None, a, b).ratio()] is difflib's; both are taken as
    given.  A ratio is a finite float, that is a rational number, and
    floats are compared and negated exactly. *)

Class PyRuntime : Type := {
  lower : str -> str;
  ratio : str -> str -> Q
}.

(** [similarity(a, b)] *)
Definition similarity `{PyRuntime} (a b : str) : Q :=
  ratio (lower a) (lower b).

(** ** SQLite expressions

    A condition evaluates to true, false or NULL ([None]); a row passes
    [WHERE] when the condition is true.  Case is SQLite's own, as its
    documentation states it: the NOCASE collation folds "the 26 upper
    case characters of ASCII" before comparing, and LIKE "is case
    sensitive by default for unicode characters that are beyond the
    ASCII range" ('a' LIKE 'A' is true, 'æ' LIKE 'Æ' is false).  The
    connection is opened by [sqlite3.connect] and nothing registers
    another collation or another LIKE. *)

Module Sql.

Definition tri := option bool.

Definition and3 (a b : tri) : tri :=
  match a, b with
  | Some false, _ | _, Some false => Some false
  | Some true, Some true => Some true
  | _, _ => None
  end.

Definition or3 (a b : tri) : tri :=
  match a, b with
  | Some true, _ | _, Some true => Some true
  | Some false, Some false => Some false
  | _, _ => None
  end.

Definition holds (c : tri) : bool :=
  match c with Some true => true | _ => false end.

(** [NOCASE] folds the 26 ASCII capitals and nothing else. *)
Definition fold_char (c : N) : N :=
  if (65 <=? c) && (c <=? 90) then c + 32 else c.

Definition nocase (s : str) : str := List.map fold_char s.

(** [x = y COLLATE NOCASE] *)
Definition eq_nocase (x y : option str) : tri :=
  match x, y with
  | Some a, Some b => Some (Str.eqb (nocase a) (nocase b))
  | _, _ => None
  end.

(** [x = y] under the default BINARY collation *)
Definition eq_binary (x y : option str) : tri :=
  match x, y with
  | Some a, Some b => Some (Str.eqb a b)
  | _, _ => None
  end.

(** [x != y] under the default BINARY collation *)
Definition ne (x y : option str) : tri :=
  match x, y with
  | Some a, Some b => Some (negb (Str.eqb a b))
  | _, _ => None
  end.

(** The matcher of [LIKE]: [%] stands for any run of characters, [_]
    for any one character, every other pattern character for itself up
    to the case of ASCII letters.  No escape character is declared. *)
Fixpoint like_match (pattern text : str) : bool :=
  match pattern with
  | [] => match text with [] => true | _ => false end
  | c :: pattern' =>
      if c =? 37 then
        (fix any_suffix (t : str) : bool :=
           like_match pattern' t ||
           match t with
           | [] => false
           | _ :: t' => any_suffix t'
           end) text
      else
        match text with
        | [] => false
        | d :: text' =>
            ((c =? 95) || (fold_char c =? fold_char d)) &&
            like_match pattern' text'
        end
  end.

(** [x LIKE pattern COLLATE NOCASE] *)
Definition like (x : option str) (pattern : str) : tri :=
  match x with
  | Some t => Some (like_match pattern t)
  | None => None
  end.

End Sql.

(** ** Regular expressions

    The one pattern the code builds is a concatenation of backslash
    escapes and ordinary characters.  Such a pattern denotes a literal
    text, and searching it is searching that text. *)

Module Re.

Definition backslash : N := 92.

(** The characters [re.escape] puts a backslash before:
    [()[]{}?*+-|^$\.&~# \t\n\r\v\f]. *)
Definition special (c : N) : bool :=
  existsb (N.eqb c)
    [40; 41; 91; 93; 123; 125; 63; 42; 43; 45; 124; 94; 36; 92; 46; 38;
     126; 35; 32; 9; 10; 13; 11; 12].

(** [re.escape(s)] *)
Definition escape (s : str) : str :=
  List.flat_map (fun c => if special c then [backslash; c] else [c]) s.

(** The characters with a meaning of their own in a pattern:
    [. ^ $ * + ? { } [ ] \ | ( )]. *)
Definition meta (c : N) : bool :=
  existsb (N.eqb c) [46; 94; 36; 42; 43; 63; 123; 125; 91; 93; 92; 124; 40; 41].

Definition alnum (c : N) : bool :=
  ((48 <=? c) && (c <=? 57)) || ((65 <=? c) && (c <=? 90)) ||
  ((97 <=? c) && (c <=? 122)).

(** The text a pattern denotes, when the pattern is made of ordinary
    characters and of backslashes followed by a character that is
    neither a letter nor a digit; [None] for any other pattern.
    [escaped] tells that the previous character was an unpaired
    backslash. *)
Fixpoint literal_from (pattern : str) (escaped : bool) : option str :=
  match pattern with
  | [] => if escaped then None else Some []
  | c :: pattern' =>
      if escaped then
        if alnum c then None else cons c <$> literal_from pattern' false
      else if c =? backslash then literal_from pattern' true
      else if meta c then None
      else cons c <$> literal_from pattern' false
  end.

Definition literal (pattern : str) : option str := literal_from pattern false.

(** [re.search(pattern, text)] is not None, for a pattern of the
    fragment above ([false] stands for the patterns outside of it, which
    the code never builds: see [word_pattern_literal]). *)
Definition search (pattern text : str) : bool :=
  match literal pattern with
  | Some t => contains t text
  | None => false
  end.

End Re.

(** ** The corpus *)

Record article : Type := {
  article_id : Z;
  lemma : str;
  all_lemmas : option str;
  word_class : option str;
  gender : option str;
  inflections : option str;
  inflection_table : option str;
  etymology : option str;
  homonym_number : option Z
}.

Record definition : Type := {
  def_id : Z;
  def_article_id : Z;
  def_content : option str
}.

Record example : Type := {
  ex_id : Z;
  ex_article_id : Z;
  ex_quote : option str;
  ex_explanation : option str
}.

(** What a connection gives access to: the three tables, each in the
    order a scan returns its rows. *)
Record database : Type := {
  articles : list article;
  definitions : list definition;
  examples : list example
}.

#[global] Instance article_eq_dec : EqDecision article.
Proof. solve_decision. Defined.

Definition EXPR : str := py "EXPR".
Definition NOUN : str := py "NOUN".
Definition VERB : str := py "VERB".
Definition ADJ : str := py "ADJ".
Definition ADV : str := py "ADV".

(** ['%' + variant + '%'] and [variant + '%'] *)
Definition pct_both (variant : str) : str := [percent] ++ variant ++ [percent].
Definition pct_after (variant : str) : str := variant ++ [percent].

(** [x.split(' | ') if x else []] *)
Definition split_bar (x : option str) : list str :=
  match x with
  | Some s => if truthy s then split (py " | ") s else []
  | None => []
  end.

(** The text spliced into the statements: empty when expressions are
    included, [AND word_class != 'EXPR'] otherwise. *)
Definition expr_filter (include_expr : bool) (a : article) : Sql.tri :=
  if include_expr then Some true else Sql.ne (word_class a) (Some EXPR).

(** [SELECT ... FROM articles WHERE cond] *)
Definition select_articles (conn : database) (cond : article -> Sql.tri)
  : list article :=
  List.filter (fun a => Sql.holds (cond a)) (articles conn).

(** Keep the first element of each key. *)
Fixpoint first_seen_from {A K : Type} `{EqDecision K} (key : A -> K)
    (seen : list K) (l : list A) : list A :=
  match l with
  | [] => []
  | x :: l' =>
      if decide (key x ∈ seen) then first_seen_from key seen l'
      else x :: first_seen_from key (key x :: seen) l'
  end.

Definition first_seen {A K : Type} `{EqDecision K} (key : A -> K)
    (l : list A) : list A :=
  first_seen_from key [] l.

(** The rows of [articles a LEFT JOIN definitions d ... LEFT JOIN examples
    e ...]: an article without a definition (an example) is joined with
    NULL columns. *)
Definition or_null {A : Type} (l : list A) : list (option A) :=
  match l with [] => [None] | _ => List.map Some l end.

Definition left_join (conn : database)
  : list (article * option definition * option example) :=
  List.flat_map (fun a =>
    List.flat_map (fun d =>
      List.map (fun e => (a, d, e))
        (or_null (List.filter (fun e => Z.eqb (article_id a) (ex_article_id e))
                              (examples conn))))
      (or_null (List.filter (fun d => Z.eqb (article_id a) (def_article_id d))
                            (definitions conn))))
    (articles conn).

(** [SELECT DISTINCT a.* FROM (the join) WHERE cond] *)
Definition select_distinct_joined (conn : database)
    (cond : article -> option str -> option str -> Sql.tri) : list article :=
  first_seen id
    (List.map (fun r => r.1.1)
       (List.filter (fun r =>
          Sql.holds (cond r.1.1 (r.1.2 ≫= def_content) (r.2 ≫= ex_quote)))
          (left_join conn))).

(** ** [list.sort(key=...)]

    The sort is stable and compares keys with [<] only.  A stable sort
    has one possible outcome ([sort_by_unique] below), computed here by
    insertion: an element goes in front of the first element of the
    sorted rest whose key is not smaller than its own. *)

Section Sorting.
Context {A K : Type} (lt : K -> K -> bool) (key : A -> K).

Fixpoint insert_by (x : A) (l : list A) : list A :=
  match l with
  | [] => [x]
  | y :: l' =>
      if lt (key y) (key x) then y :: insert_by x l' else x :: y :: l'
  end.

Fixpoint sort_by (l : list A) : list A :=
  match l with
  | [] => []
  | x :: l' => insert_by x (sort_by l')
  end.

(** [x] may stand before [y]: the key of [y] is not smaller. *)
Definition key_le (x y : A) : Prop := lt (key y) (key x) = false.

(** Same rank: neither key is smaller. *)
Definition same_rank (x y : A) : bool :=
  negb (lt (key x) (key y)) && negb (lt (key y) (key x)).
End Sorting.

(** What [<] on keys has to satisfy: a strict weak order. *)
Class KeyOrder {K : Type} (lt : K -> K -> bool) : Prop := {
  lt_asym : forall a b, lt a b = true -> lt b a = false;
  lt_negtrans : forall a b c, lt a b = false -> lt b c = false -> lt a c = false
}.

(** Tuples compare at their first differing component. *)
Definition lt_int_nat_nat (k1 k2 : Z * nat * nat) : bool :=
  let '(h1, p1, n1) := k1 in
  let '(h2, p2, n2) := k2 in
  if Z.eqb h1 h2 then
    if Nat.eqb p1 p2 then Nat.ltb n1 n2 else Nat.ltb p1 p2
  else Z.ltb h1 h2.

(** The floats written [0.6], [0.61] and [0.9]. *)
Definition float_0_6 : Q := (5404319552844595 # 9007199254740992)%Q.
Definition float_0_61 : Q := (5494391545392005 # 9007199254740992)%Q.
Definition float_0_9 : Q := (8106479329266893 # 9007199254740992)%Q.

(** [x < y] on floats *)
Definition Qltb (x y : Q) : bool := negb (Qle_bool y x).

Definition lt_float_nat (k1 k2 : Q * nat) : bool :=
  let '(s1, n1) := k1 in
  let '(s2, n2) := k2 in
  if Qeq_bool s1 s2 then Nat.ltb n1 n2 else Qltb s1 s2.

Definition lt_str_int (k1 k2 : str * Z) : bool :=
  let '(s1, n1) := k1 in
  let '(s2, n2) := k2 in
  if Str.eqb s1 s2 then Z.ltb n1 n2 else Str.ltb s1 s2.

(** ** Configuration and variant expansion *)

Record SearchConfig : Type := {
  character_replacement : bool
}.

Definition a_ring : str := [229].    (* å *)
Definition o_slash : str := [248].   (* ø *)
Definition ae_lig : str := [230].    (* æ *)

Definition digraphs : list (str * str) :=
  [(py "aa", a_ring); (py "oe", o_slash); (py "ae", ae_lig)].

(** Modelled from the spec: [apply_character_replacement] is imported from
    [config.py], which is not among the sources.  The specification (4.2)
    gives its result: the term first; then, when replacement is enabled,
    the term with each digraph substitution applied on its own, a variant
    being appended only when it is not in the sequence yet.  The function
    of the code takes the term alone and reads the flag from the
    configuration object, passed here as [cfg]. *)
Definition apply_character_replacement (cfg : SearchConfig) (query : str)
  : list str :=
  if character_replacement cfg then
    fold_left
      (fun variants d =>
         let variant := replace d.1 d.2 query in
         if mem variant variants then variants else variants ++ [variant])
      digraphs [query]
  else [query].

(** ** The matcher loops *)

Definition loop_state : Type := list article * gset Z.

(** One turn of
    [for result in cursor.fetchall():
       if result[0] not in seen_ids:
         (if check(result):)
           results.append(result); seen_ids.add(result[0])] *)
Definition add_unseen (check : article -> bool) (st : loop_state)
    (result : article) : loop_state :=
  let '(results, seen_ids) := st in
  if decide (article_id result ∈ seen_ids) then st
  else if check result
       then (results ++ [result], seen_ids ∪ {[article_id result]})
       else st.

Definition for_rows (check : article -> bool) (rows : list article)
    (st : loop_state) : loop_state :=
  fold_left (add_unseen check) rows st.

Definition always (_ : article) : bool := true.

Section Engine.
Context `{PyRuntime}.
Variable cfg : SearchConfig.
Variable conn : database.

(** *** [search_exact] *)

(** [SELECT ... FROM articles
     WHERE lemma = ? COLLATE NOCASE {expr_filter}], with [variant] *)
Definition exact_lemma_rows (include_expr : bool) (variant : str) :=
  select_articles conn (fun a =>
    Sql.and3 (Sql.eq_nocase (Some (lemma a)) (Some variant))
             (expr_filter include_expr a)).

(** [SELECT ... FROM articles
     WHERE (all_lemmas LIKE ? COLLATE NOCASE
     OR inflections LIKE ? COLLATE NOCASE) {expr_filter}], with
    ['%variant%'] twice *)
Definition exact_like_rows (include_expr : bool) (variant : str) :=
  select_articles conn (fun a =>
    Sql.and3
      (Sql.or3 (Sql.like (all_lemmas a) (pct_both variant))
               (Sql.like (inflections a) (pct_both variant)))
      (expr_filter include_expr a)).

(** [variant.lower() in [lemma.lower() for lemma in all_lemmas] or
     variant.lower() in [infl.lower() for infl in inflections]] *)
Definition exact_check (variant : str) (result : article) : bool :=
  let all_lemmas := split_bar (all_lemmas result) in
  let inflections := split_bar (inflections result) in
  mem (lower variant) (List.map lower all_lemmas) ||
  mem (lower variant) (List.map lower inflections).

Definition exact_sort_key (x : article) : Z * nat * nat :=
  let homonym := match homonym_number x with Some h => h | None => 1%Z end in
  let word_class_priority :=
    if bool_decide (word_class x = Some NOUN) then 0%nat
    else if bool_decide (word_class x = Some VERB) then 1%nat
    else if bool_decide (word_class x = Some ADJ) then 2%nat
    else if bool_decide (word_class x = Some ADV) then 3%nat
    else 4%nat in
  (homonym, word_class_priority, length (lemma x)).

(** [include_expr] is an optional argument of the code, with default
    [True] here and [False] in the other searches ([None]: not given). *)
Definition search_exact (query : str) (include_expr : option bool)
  : list article :=
  let include_expr := default true include_expr in
  let query_variants := apply_character_replacement cfg query in
  let '(results, _) :=
    fold_left
      (fun st variant =>
         let st :=
           for_rows always (exact_lemma_rows include_expr variant) st in
         for_rows (exact_check variant)
                  (exact_like_rows include_expr variant) st)
      query_variants (([], ∅) : loop_state) in
  sort_by lt_int_nat_nat exact_sort_key results.

(** *** [search_prefix] *)

(** [SELECT ... FROM articles
     WHERE (lemma LIKE ? COLLATE NOCASE
     OR all_lemmas LIKE ? COLLATE NOCASE
     OR inflections LIKE ? COLLATE NOCASE) {expr_filter}], with
    ['variant%'], ['%variant%'] and ['%variant%'] *)
Definition prefix_rows (include_expr : bool) (variant : str) :=
  select_articles conn (fun a =>
    Sql.and3
      (Sql.or3 (Sql.or3 (Sql.like (Some (lemma a)) (pct_after variant))
                        (Sql.like (all_lemmas a) (pct_both variant)))
               (Sql.like (inflections a) (pct_both variant)))
      (expr_filter include_expr a)).

(** [any(term.lower().startswith(variant.lower())
         for term in all_terms if term)] *)
Definition prefix_check (variant : str) (result : article) : bool :=
  let all_lemmas_list := split_bar (all_lemmas result) in
  let inflections_list := split_bar (inflections result) in
  let all_terms := [lemma result] ++ all_lemmas_list ++ inflections_list in
  existsb (fun term => startswith (lower term) (lower variant))
          (List.filter truthy all_terms).

Definition lemma_length (x : article) : nat := length (lemma x).

Definition search_prefix (query : str) (include_expr : option bool)
  : list article :=
  let include_expr := default false include_expr in
  let query_variants := apply_character_replacement cfg query in
  let '(results, _) :=
    fold_left
      (fun st variant =>
         for_rows (prefix_check variant)
                  (prefix_rows include_expr variant) st)
      query_variants (([], ∅) : loop_state) in
  sort_by Nat.ltb lemma_length results.

(** *** [search_anywhere_term] *)

(** The same statement with ['%variant%'] three times *)
Definition anywhere_term_rows (include_expr : bool) (variant : str) :=
  select_articles conn (fun a =>
    Sql.and3
      (Sql.or3 (Sql.or3 (Sql.like (Some (lemma a)) (pct_both variant))
                        (Sql.like (all_lemmas a) (pct_both variant)))
               (Sql.like (inflections a) (pct_both variant)))
      (expr_filter include_expr a)).

Definition search_anywhere_term (query : str) (include_expr : option bool)
  : list article :=
  let include_expr := default false include_expr in
  let query_variants := apply_character_replacement cfg query in
  let '(results, _) :=
    fold_left
      (fun st variant =>
         for_rows always (anywhere_term_rows include_expr variant) st)
      query_variants (([], ∅) : loop_state) in
  sort_by Nat.ltb lemma_length results.

(** *** [search_fulltext] *)

(** [SELECT DISTINCT a.* FROM articles a
     LEFT JOIN definitions d ON a.article_id = d.article_id
     LEFT JOIN examples e ON a.article_id = e.article_id
     WHERE (a.lemma LIKE ? OR a.all_lemmas LIKE ? OR a.inflections LIKE ?
     OR d.content LIKE ? OR e.quote LIKE ? OR a.etymology LIKE ?)
     {expr_filter}], each LIKE with COLLATE NOCASE and ['%variant%'] *)
Definition fulltext_rows (include_expr : bool) (variant : str) :=
  select_distinct_joined conn (fun a d_content e_quote =>
    Sql.and3
      (Sql.or3 (Sql.or3 (Sql.or3 (Sql.or3 (Sql.or3
         (Sql.like (Some (lemma a)) (pct_both variant))
         (Sql.like (all_lemmas a) (pct_both variant)))
         (Sql.like (inflections a) (pct_both variant)))
         (Sql.like d_content (pct_both variant)))
         (Sql.like e_quote (pct_both variant)))
         (Sql.like (etymology a) (pct_both variant)))
      (expr_filter include_expr a)).

Definition search_fulltext (query : str) (include_expr : option bool)
  : list article :=
  let include_expr := default false include_expr in
  let query_variants := apply_character_replacement cfg query in
  let '(results, _) :=
    fold_left
      (fun st variant =>
         for_rows always (fulltext_rows include_expr variant) st)
      query_variants (([], ∅) : loop_state) in
  sort_by Nat.ltb lemma_length results.

(** *** [search_fuzzy] *)

Definition fuzzy_state : Type := list (article * Q) * gset Z.

(** [max_similarity] after the loop over [lemmas], starting from 0 *)
Definition max_similarity (variant : str) (lemmas : list str) : Q :=
  fold_left
    (fun max_similarity lem =>
       let sim := similarity variant lem in
       if Qltb max_similarity sim then sim else max_similarity)
    lemmas 0%Q.

(** The body of [for article in all_articles] *)
Definition fuzzy_step (variant : str) (threshold : Q) (st : fuzzy_state)
    (article : article) : fuzzy_state :=
  let '(fuzzy_matches, seen_ids) := st in
  if decide (article_id article ∈ seen_ids) then st
  else if Qle_bool threshold (similarity variant (lemma article)) then
    (fuzzy_matches ++ [(article, similarity variant (lemma article))],
     seen_ids ∪ {[article_id article]})
  else
    let lemmas := split_bar (all_lemmas article) in
    let max_similarity := max_similarity variant lemmas in
    if Qle_bool threshold max_similarity then
      (fuzzy_matches ++ [(article, max_similarity)],
       seen_ids ∪ {[article_id article]})
    else st.

Definition fuzzy_sort_key (x : article * Q) : Q * nat :=
  ((- x.2)%Q, length (lemma x.1)).

(** The sorted list of [(article, score)] pairs. *)
Definition fuzzy_matches (query : str) (threshold : Q)
    (include_expr : bool) : list (article * Q) :=
  let all_articles :=
    select_articles conn (expr_filter include_expr) in
  let query_variants := apply_character_replacement cfg query in
  let '(fuzzy_matches, _) :=
    fold_left
      (fun st variant =>
         fold_left (fuzzy_step variant threshold) all_articles st)
      query_variants (([], ∅) : fuzzy_state) in
  sort_by lt_float_nat fuzzy_sort_key fuzzy_matches.

Definition search_fuzzy (query : str) (threshold : option Q)
    (include_expr : option bool) : list article :=
  let threshold := default float_0_6 threshold in
  let include_expr := default false include_expr in
  List.map fst (fuzzy_matches query threshold include_expr).

(** *** [search_anywhere] *)

(** The same joins, [WHERE (d.content LIKE ? OR e.quote LIKE ?
     OR a.all_lemmas LIKE ?) {expr_filter}] *)
Definition anywhere_rows (include_expr : bool) (variant : str) :=
  select_distinct_joined conn (fun a d_content e_quote =>
    Sql.and3
      (Sql.or3 (Sql.or3
         (Sql.like d_content (pct_both variant))
         (Sql.like e_quote (pct_both variant)))
         (Sql.like (all_lemmas a) (pct_both variant)))
      (expr_filter include_expr a)).

Definition search_anywhere (query : str) (include_expr : option bool)
  : list article :=
  let include_expr := default false include_expr in
  let query_variants := apply_character_replacement cfg query in
  let '(results, _) :=
    fold_left
      (fun st variant =>
         for_rows always (anywhere_rows include_expr variant) st)
      query_variants (([], ∅) : loop_state) in
  sort_by Nat.ltb lemma_length results.

(** *** [search_expressions_only] *)

(** [SELECT ... FROM articles
     WHERE word_class = 'EXPR' AND (lemma LIKE ? COLLATE NOCASE
     OR all_lemmas LIKE ? COLLATE NOCASE)], with ['%variant%'] twice *)
Definition expressions_rows (variant : str) :=
  select_articles conn (fun a =>
    Sql.and3
      (Sql.eq_binary (word_class a) (Some EXPR))
      (Sql.or3 (Sql.like (Some (lemma a)) (pct_both variant))
               (Sql.like (all_lemmas a) (pct_both variant)))).

Definition search_expressions_only (query : str) : list article :=
  let query_variants := apply_character_replacement cfg query in
  let '(results, _) :=
    fold_left
      (fun st variant => for_rows always (expressions_rows variant) st)
      query_variants (([], ∅) : loop_state) in
  sort_by Nat.ltb lemma_length results.

(** *** [search_all_examples] *)

(** A row of the statement: [(quote, explanation, lemma, word_class)]. *)
Definition example_row : Type := str * option str * str * option str.

(** [SELECT DISTINCT e.quote, e.explanation, a.lemma, a.word_class
     FROM examples e JOIN articles a ON e.article_id = a.article_id
     WHERE e.quote IS NOT NULL AND e.quote != ''
     AND e.quote LIKE ? COLLATE NOCASE
     ORDER BY a.lemma, e.id] *)
Definition example_rows (variant : str) : list example_row :=
  let joined :=
    List.flat_map (fun e =>
      List.map (fun a => (e, a))
        (List.filter (fun a => Z.eqb (ex_article_id e) (article_id a))
                     (articles conn)))
      (examples conn) in
  let kept :=
    List.filter (fun r =>
      Sql.holds
        (Sql.and3 (Sql.and3 (Some (bool_decide (is_Some (ex_quote r.1))))
                            (Sql.ne (ex_quote r.1) (Some [])))
                  (Sql.like (ex_quote r.1) (pct_both variant))))
      joined in
  let ordered :=
    sort_by lt_str_int (fun r => (lemma r.2, ex_id r.1)) kept in
  first_seen id
    (List.map (fun r => (default [] (ex_quote r.1), ex_explanation r.1,
                         lemma r.2, word_class r.2))
              ordered).

(** [r'\\b' + re.escape(variant.lower()) + r'\\b']: each raw literal
    is the three characters backslash, backslash, [b]. *)
Definition word_pattern (variant : str) : str :=
  py "\\b" ++ Re.escape (lower variant) ++ py "\\b".

Definition examples_state : Type := list example_row * gset str.

(** The body of [for quote, explanation, lemma, word_class in ...] *)
Definition examples_step (variant : str) (st : examples_state)
    (row : example_row) : examples_state :=
  let '(all_examples, seen_examples) := st in
  let '(quote, explanation, lemma, word_class) := row in
  if truthy quote && bool_decide (quote ∉ seen_examples) then
    let pattern := word_pattern variant in
    if Re.search pattern (lower quote) then
      (all_examples ++ [row], seen_examples ∪ {[quote]})
    else
      let words := words (lower quote) in
      if mem (lower variant) words then
        (all_examples ++ [row], seen_examples ∪ {[quote]})
      else st
  else st.

Definition search_all_examples (query : str) : list example_row :=
  let query_variants := apply_character_replacement cfg query in
  let '(all_examples, _) :=
    fold_left
      (fun st variant =>
         fold_left (examples_step variant) (example_rows variant) st)
      query_variants (([], ∅) : examples_state) in
  sort_by Str.ltb (fun x => x.1.2) all_examples.

End Engine.

(** ** The dispatch of [main]

    The part of [main] from "Parse search query for special syntax" to
    the results it holds before the word-class options, the limit and the
    display (cli.py 143-210), as a function of the parsed options it
    reads.  What stands before and after it in [main] follows below: the
    display in [show], the whole call in [main]. *)

Record Args : Type := {
  all_examples_flag : bool;
  expressions_only_flag : bool;
  fuzzy_flag : bool;
  anywhere_flag : bool;
  threshold_arg : Q
}.

Inductive outcome : Type :=
  | Examples (examples : list example_row)
  | Results (results : list article).

Section Main.
Context `{PyRuntime}.
Variable cfg : SearchConfig.
Variable conn : database.

(** The search type and term after the command-line flags are taken
    into account ([--all-examples] is handled before). *)
Definition override (args : Args) (query : str) : search_type * str :=
  let '(search_type, clean_query, original_query) :=
    parse_search_query query in
  if expressions_only_flag args then (ExpressionsOnly, query)
  else if fuzzy_flag args then (Fuzzy, query)
  else if anywhere_flag args then (Anywhere, query)
  else (search_type, clean_query).

(** "Perform search based on type" *)
Definition perform_search (args : Args) (search_type : search_type)
    (clean_query : str) : list article :=
  match search_type with
  | ExpressionsOnly => search_expressions_only cfg conn clean_query
  | Fuzzy =>
      search_fuzzy cfg conn clean_query (Some (threshold_arg args))
                   (Some false)
  | Anywhere => search_anywhere cfg conn clean_query (Some false)
  | Prefix => search_prefix cfg conn clean_query (Some false)
  | AnywhereTerm => search_anywhere_term cfg conn clean_query (Some false)
  | Fulltext => search_fulltext cfg conn clean_query (Some false)
  | Exact =>
      let results := search_exact cfg conn clean_query (Some true) in
      match results with
      | [] => search_prefix cfg conn clean_query (Some true)
      | _ => results
      end
  end.

(** The results [main] holds before the word-class options and the
    display. *)
Definition dispatch (args : Args) (query : str) : outcome :=
  if all_examples_flag args then
    Examples (search_all_examples cfg conn query)
  else
    let '(search_type, clean_query) := override args query in
    Results (perform_search args search_type clean_query).
End Main.

(** ** The loops as functions of their raw hits

    Each loop appends a row the first time its key is met.  [add_new] is
    that step on its own; the hits of a search are the rows its loops go
    through, check applied, in the order they go through them. *)

Section Loop.
Context {A K : Type} `{Countable K} (key : A -> K).

Definition add_new (st : list A * gset K) (x : A) : list A * gset K :=
  if decide (key x ∈ st.2) then st else (st.1 ++ [x], st.2 ∪ {[key x]}).
End Loop.

Section Hits.
Context `{PyRuntime}.
Variable cfg : SearchConfig.
Variable conn : database.

Definition exact_hits (query : str) (include_expr : bool) : list article :=
  List.flat_map
    (fun variant =>
       exact_lemma_rows conn include_expr variant ++
       List.filter (exact_check variant)
                   (exact_like_rows conn include_expr variant))
    (apply_character_replacement cfg query).

Definition prefix_hits (query : str) (include_expr : bool) : list article :=
  List.flat_map
    (fun variant =>
       List.filter (prefix_check variant) (prefix_rows conn include_expr variant))
    (apply_character_replacement cfg query).

Definition anywhere_term_hits (query : str) (include_expr : bool) :=
  List.flat_map (anywhere_term_rows conn include_expr)
    (apply_character_replacement cfg query).

Definition fulltext_hits (query : str) (include_expr : bool) :=
  List.flat_map (fulltext_rows conn include_expr)
    (apply_character_replacement cfg query).

Definition anywhere_hits (query : str) (include_expr : bool) :=
  List.flat_map (anywhere_rows conn include_expr)
    (apply_character_replacement cfg query).

Definition expressions_hits (query : str) :=
  List.flat_map (expressions_rows conn)
    (apply_character_replacement cfg query).

(** The score an article is recorded with for a variant, if any. *)
Definition fuzzy_score (variant : str) (threshold : Q) (a : article)
  : option Q :=
  if Qle_bool threshold (similarity variant (lemma a)) then
    Some (similarity variant (lemma a))
  else if Qle_bool threshold
            (max_similarity variant (split_bar (all_lemmas a))) then
    Some (max_similarity variant (split_bar (all_lemmas a)))
  else None.

Definition fuzzy_hits (query : str) (threshold : Q) (include_expr : bool)
  : list (article * Q) :=
  List.flat_map
    (fun variant =>
       omap (fun a => pair a <$> fuzzy_score variant threshold a)
            (select_articles conn (expr_filter include_expr)))
    (apply_character_replacement cfg query).

(** The whole-word test of [search_all_examples]. *)
Definition example_accepts (variant : str) (row : example_row) : bool :=
  truthy row.1.1.1 &&
  (Re.search (word_pattern variant) (lower row.1.1.1) ||
   mem (lower variant) (words (lower row.1.1.1))).

Definition example_hits (query : str) : list example_row :=
  List.flat_map
    (fun variant =>
       List.filter (example_accepts variant) (example_rows conn variant))
    (apply_character_replacement cfg query).
End Hits.

(** ** The classifier, as the specification gives it

    The four rules of 4.1, each with the condition that the rules before
    it did not apply. *)
Inductive classifies : str -> search_type -> str -> Prop :=
  | rule_fulltext (rest : str) :
      classifies (percent :: rest) Fulltext rest
  | rule_prefix (c : N) (body : str) :
      c <> percent -> c <> at_sign ->
      classifies (c :: body ++ [at_sign]) Prefix (c :: body)
  | rule_anywhere_term (rest : str) :
      last rest <> Some at_sign ->
      classifies (at_sign :: rest) AnywhereTerm rest
  | rule_anywhere_term_closed (body : str) :
      classifies (at_sign :: body ++ [at_sign]) AnywhereTerm body
  | rule_exact (query : str) :
      head query <> Some percent -> head query <> Some at_sign ->
      last query <> Some at_sign ->
      classifies query Exact query.

(** ** Notions the statements use *)


(** [x] is, among [hits], the first with its key. *)
Definition first_hit {A K : Type} (key : A -> K) (x : A) (hits : list A)
  : Prop :=
  exists l1 l2, hits = l1 ++ x :: l2 /\ ~ In (key x) (List.map key l1).

(** [results] holds each key once, and holds exactly the first hit of
    each key. *)
Definition deduplicated {A K : Type} (key : A -> K) (results hits : list A)
  : Prop :=
  List.NoDup (List.map key results) /\
  forall x, In x results <-> first_hit key x hits.

(** [x] stands before [y] in [l]. *)
Definition before {A : Type} (x y : A) (l : list A) : Prop :=
  exists l1 l2 l3, l = l1 ++ x :: l2 ++ y :: l3.

(** The columns of an example row. *)
Definition row_quote (row : example_row) : str := row.1.1.1.
Definition row_lemma (row : example_row) : str := row.1.2.

(** [a <= b] on strings. *)
Definition str_le (a b : str) : Prop := a = b \/ Str.ltb a b = true.

(** The text [\b], a backslash and the letter b. *)
Definition backslash_b : str := [92; 98].

(** ** The exact-match predicate of the specification

    4.3: the lemma equals the variant, or the variant is a whole element
    of [all_lemmas] or of [inflections], under a notion [same] of
    equality up to case. *)
Definition whole_match (same : str -> str -> Prop) (variant : str)
    (a : article) : Prop :=
  same (lemma a) variant \/
  exists e, In e (split_bar (all_lemmas a) ++ split_bar (inflections a)) /\
            same e variant.

(** Equal once lower-cased, as Python compares. *)
Definition same_lower `{PyRuntime} (x y : str) : Prop := lower x = lower y.

(** Equal up to the case of the ASCII letters, as SQLite compares. *)
Definition same_nocase (x y : str) : Prop := Sql.nocase x = Sql.nocase y.

(** What the two statements and the check of [search_exact] let
    through: the lemma equal to the variant up to ASCII case; or the
    variant found by LIKE in a column and, lower-cased, equal to a whole
    element. *)
Definition exact_match `{PyRuntime} (variant : str) (a : article) : Prop :=
  same_nocase (lemma a) variant \/
  ((Sql.like (all_lemmas a) (pct_both variant) = Some true \/
    Sql.like (inflections a) (pct_both variant) = Some true) /\
   exists e, In e (split_bar (all_lemmas a) ++ split_bar (inflections a)) /\
             same_lower e variant).

(** The fuzzy predicate of the specification (4.3). *)
Definition fuzzy_match `{PyRuntime} (variant : str) (threshold : Q)
    (a : article) : Prop :=
  (threshold <= similarity variant (lemma a))%Q \/
  exists e, In e (split_bar (all_lemmas a)) /\
            (threshold <= similarity variant e)%Q.

(** [x] may stand before [y] in the fuzzy ranking: a higher score, or
    the same score and a lemma that is not longer. *)
Definition fuzzy_le (x y : article * Q) : Prop :=
  (y.2 < x.2)%Q \/
  ((x.2 == y.2)%Q /\ (length (lemma x.1) <= length (lemma y.1))%nat).

(** ** A runtime and corpora to compute with

    [lower_latin1] is [str.lower] on strings whose code points are below
    256 (ASCII and Latin-1, which hold the Norwegian alphabet): the
    capitals A-Z and À-Þ, the multiplication sign apart, move up by 32.
    [ratio_table] reads the ratio of two strings off a table, 1 for equal
    strings and 0 for a pair that is not listed. *)

Definition lower_char_latin1 (c : N) : N :=
  if ((65 <=? c) && (c <=? 90)) ||
     ((192 <=? c) && (c <=? 222) && negb (c =? 215))
  then c + 32 else c.

Definition lower_latin1 (s : str) : str := List.map lower_char_latin1 s.

Fixpoint ratio_table (table : list (str * str * Q)) (a b : str) : Q :=
  match table with
  | [] => if Str.eqb a b then 1%Q else 0%Q
  | (x, y, r) :: table' =>
      if Str.eqb a x && Str.eqb b y then r else ratio_table table' a b
  end.

Definition latin1_runtime (table : list (str * str * Q)) : PyRuntime :=
  {| lower := lower_latin1; ratio := ratio_table table |}.

Definition replacement_on : SearchConfig := {| character_replacement := true |}.
Definition replacement_off : SearchConfig := {| character_replacement := false |}.

(** An article with the given id, lemma, word class and homonym number;
    [all_lemmas] holds the lemma. *)
Definition entry (i : Z) (l : str) (wc : str) (h : option Z) : article :=
  {| article_id := i; lemma := l; all_lemmas := Some l;
     word_class := Some wc; gender := None; inflections := None;
     inflection_table := None; etymology := None; homonym_number := h |}.

Definition huset_db : database :=
  {| articles := [entry 1 (py "hus") NOUN None];
     definitions := [];
     examples := [ {| ex_id := 1; ex_article_id := 1;
                      ex_quote := Some (py "Han gikk til huset.");
                      ex_explanation := None |} ] |}.

Definition stein_db : database :=
  {| articles := [entry 1 (py "stein") NOUN None;
                  entry 2 (py "stein") NOUN (Some 2%Z);
                  entry 3 (py "stein") NOUN (Some 1%Z)];
     definitions := []; examples := [] |}.

(** No option given on the command line; [--threshold] has its default,
    0.6. *)
Definition no_flags : Args :=
  {| all_examples_flag := false; expressions_only_flag := false;
     fuzzy_flag := false; anywhere_flag := false;
     threshold_arg := float_0_6 |}.

Definition jazz_db : database :=
  {| articles := [entry 1 (py "jazz") NOUN None;
                  entry 2 (py "jazzfestival") NOUN None];
     definitions := []; examples := [] |}.

(** The capital and the small a with a ring, alone in the corpus. *)
Definition capital_a_ring : str := [197].

Definition a_ring_db : database :=
  {| articles := [entry 1 a_ring NOUN None];
     definitions := []; examples := [] |}.

(** Two entries for the fuzzy ranking: the longer lemma is the closer
    one. *)
Definition fuzzy_db : database :=
  {| articles := [entry 1 (py "huse") NOUN None;
                  entry 2 (py "husets") NOUN None];
     definitions := []; examples := [] |}.

Definition fuzzy_table : list (str * str * Q) :=
  [(py "huset", py "huse", float_0_61);
   (py "huset", py "husets", float_0_9)].

(** "Åsen", listed with the form "åsene"; and the query "åsen". *)
Definition capital_asen : str := [197] ++ py "sen".
Definition small_asen : str := [229] ++ py "sen".

Definition asen_entry : article :=
  {| article_id := 1; lemma := capital_asen;
     all_lemmas := Some (capital_asen ++ py " | " ++ small_asen ++ py "e");
     word_class := Some NOUN; gender := None; inflections := None;
     inflection_table := None; etymology := None; homonym_number := None |}.

Definition asen_db : database :=
  {| articles := [asen_entry]; definitions := []; examples := [] |}.

(** ** Notions the further properties use *)

(** The row passes [word_class != 'EXPR']: its word class is not NULL and
    is not EXPR. *)
Definition not_expression (a : article) : bool :=
  Sql.holds (expr_filter false a).

(** [all_terms] of [search_prefix] *)
Definition prefix_terms (a : article) : list str :=
  [lemma a] ++ split_bar (all_lemmas a) ++ split_bar (inflections a).

(** One of the three LIKE tests of the prefix statement is true. *)
Definition prefix_like (variant : str) (a : article) : Prop :=
  Sql.like (Some (lemma a)) (pct_after variant) = Some true \/
  Sql.like (all_lemmas a) (pct_both variant) = Some true \/
  Sql.like (inflections a) (pct_both variant) = Some true.

(** A term that is not empty and, lower-cased, starts with the variant,
    lower-cased. *)
Definition starts_with_lower `{PyRuntime} (variant term : str) : Prop :=
  term <> [] /\ exists rest, lower term = lower variant ++ rest.

(** ** Queries without LIKE wildcards *)

Definition underscore : N := 95.   (* '_' *)

(** The term holds neither [%] nor [_]. *)
Definition wildcard_free (v : str) : bool :=
  forallb (fun c => negb (c =? percent) && negb (c =? underscore)) v.

(** The column is not NULL and the variant occurs in it, up to the case
    of ASCII letters. *)
Definition column_contains (variant : str) (col : option str) : Prop :=
  exists s1 e s2, col = Some (s1 ++ e ++ s2) /\ same_nocase e variant.

(** A definition (an example) of the entry holds the variant. *)
Definition definition_contains (conn : database) (variant : str)
    (a : article) : Prop :=
  exists d, In d (definitions conn) /\ def_article_id d = article_id a /\
            column_contains variant (def_content d).

Definition example_contains (conn : database) (variant : str)
    (a : article) : Prop :=
  exists e, In e (examples conn) /\ ex_article_id e = article_id a /\
            column_contains variant (ex_quote e).

(** ** The structure of an entry

    [get_definitions_and_examples] and [get_related_expressions] read
    columns of [definitions] and [examples] that the searches leave
    alone, and the table [expression_links]; here the rows carry them.
    Ids, levels and order numbers are integers, and every column but the
    ids may be NULL.  The rows of a statement come in the order of their
    table where the statement gives no order, and rows that [ORDER BY]
    ranks alike keep it. *)

Record definition_row : Type := {
  d_id : Z;
  d_article_id : Z;
  d_definition_id : option Z;
  d_parent_id : option Z;
  d_level : option Z;
  d_content : option str;
  d_order_num : option Z
}.

Record example_entry : Type := {
  e_id : Z;
  e_article_id : Z;
  e_definition_id : option Z;
  e_quote : option str;
  e_explanation : option str
}.

Record expression_link : Type := {
  expression_article_id : Z;
  target_lemma : option str
}.

Record dictionary : Type := {
  dict_articles : list article;
  dict_definitions : list definition_row;
  dict_examples : list example_entry;
  dict_expression_links : list expression_link
}.

(** The same tables as the searches see them. *)
Definition searchable (conn : dictionary) : database :=
  {| articles := dict_articles conn;
     definitions :=
       List.map (fun d => {| def_id := d_id d;
                             def_article_id := d_article_id d;
                             def_content := d_content d |})
                (dict_definitions conn);
     examples :=
       List.map (fun e => {| ex_id := e_id e;
                             ex_article_id := e_article_id e;
                             ex_quote := e_quote e;
                             ex_explanation := e_explanation e |})
                (dict_examples conn) |}.

(** [ORDER BY] on a column of integers: NULL comes before every
    integer. *)
Definition lt_null_int (x y : option Z) : bool :=
  match x, y with
  | None, Some _ => true
  | Some a, Some b => Z.ltb a b
  | _, None => false
  end.

Definition lt_level_order (k1 k2 : option Z * option Z) : bool :=
  let '(l1, o1) := k1 in
  let '(l2, o2) := k2 in
  if bool_decide (l1 = l2) then lt_null_int o1 o2 else lt_null_int l1 l2.

(** *** [get_definitions_and_examples] *)

(** A row [(id, definition_id, parent_id, level, content, order_num)] *)
Definition definition_tuple : Type :=
  Z * option Z * option Z * option Z * option str * option Z.

(** [(quote, explanation)] *)
Definition example_pair : Type := option str * option str.

(** [SELECT id, definition_id, parent_id, level, content, order_num
     FROM definitions WHERE article_id = ? ORDER BY level, order_num] *)
Definition select_definitions (conn : dictionary) (article_id : Z)
  : list definition_tuple :=
  List.map (fun d => (d_id d, d_definition_id d, d_parent_id d, d_level d,
                      d_content d, d_order_num d))
    (sort_by lt_level_order (fun d => (d_level d, d_order_num d))
       (List.filter (fun d => Z.eqb (d_article_id d) article_id)
                    (dict_definitions conn))).

(** [SELECT definition_id, quote, explanation FROM examples
     WHERE article_id = ?] *)
Definition select_examples (conn : dictionary) (article_id : Z)
  : list (option Z * option str * option str) :=
  List.map (fun e => (e_definition_id e, e_quote e, e_explanation e))
    (List.filter (fun e => Z.eqb (e_article_id e) article_id)
                 (dict_examples conn)).

(** The body of [for def_id, quote, explanation in examples] *)
Definition group_example
    (examples_by_def : gmap (option Z) (list example_pair))
    (row : option Z * option str * option str)
  : gmap (option Z) (list example_pair) :=
  let '(def_id, quote, explanation) := row in
  let examples_by_def :=
    if decide (is_Some (examples_by_def !! def_id)) then examples_by_def
    else <[def_id := []]> examples_by_def in
  alter (fun l => l ++ [(quote, explanation)]) def_id examples_by_def.

Definition get_definitions_and_examples (conn : dictionary) (article_id : Z)
  : list definition_tuple * gmap (option Z) (list example_pair) :=
  let definitions := select_definitions conn article_id in
  let examples := select_examples conn article_id in
  let examples_by_def := fold_left group_example examples ∅ in
  (definitions, examples_by_def).

(** The sort key of a row of [definitions], and the examples of one
    definition of an article, as the table lists them. *)
Definition level_order (t : definition_tuple) : option Z * option Z :=
  (t.1.1.2, t.2).

Definition examples_of (conn : dictionary) (article_id : Z)
    (def_id : option Z) : list example_pair :=
  List.map (fun e => (e_quote e, e_explanation e))
    (List.filter (fun e => Z.eqb (e_article_id e) article_id &&
                           bool_decide (e_definition_id e = def_id))
                 (dict_examples conn)).

(** [x] may stand before [y] under [ORDER BY level, order_num]: a lower
    level, or the same level and an order number that is not higher;
    NULL is below every integer. *)
Definition level_order_le (x y : definition_tuple) : Prop :=
  let '(level_x, order_x) := level_order x in
  let '(level_y, order_y) := level_order y in
  lt_null_int level_x level_y = true \/
  (level_x = level_y /\ lt_null_int order_y order_x = false).

(** *** [get_related_expressions] *)

(** A row [(article_id, lemma, def_id, content, quote, explanation)] *)
Definition expression_row : Type :=
  Z * str * option Z * option str * option str * option str.

Definition lt_lemma_order_id (k1 k2 : str * option Z * option Z) : bool :=
  let '(s1, o1, i1) := k1 in
  let '(s2, o2, i2) := k2 in
  if Str.eqb s1 s2 then
    if bool_decide (o1 = o2) then lt_null_int i1 i2 else lt_null_int o1 o2
  else Str.ltb s1 s2.

(** A row of [expression_links el JOIN articles a ... LEFT JOIN
    definitions d ... LEFT JOIN examples e ...]: an expression without a
    definition, and a definition without an example, are joined with NULL
    columns. *)
Definition joined_expression : Type :=
  expression_link * article * option definition_row * option example_entry.

Definition expression_join (conn : dictionary) : list joined_expression :=
  List.flat_map (fun el =>
    List.flat_map (fun a =>
      List.flat_map (fun d =>
        List.map (fun e => (el, a, d, e))
          (or_null
             (List.filter
                (fun e => match d with
                          | Some d =>
                              bool_decide (e_definition_id e = Some (d_id d))
                          | None => false
                          end)
                (dict_examples conn))))
        (or_null
           (List.filter (fun d => Z.eqb (article_id a) (d_article_id d))
                        (dict_definitions conn))))
      (List.filter (fun a => Z.eqb (expression_article_id el) (article_id a))
                   (dict_articles conn)))
    (dict_expression_links conn).

(** [SELECT DISTINCT a.article_id, a.lemma, d.id as def_id, d.content,
     e.quote, e.explanation
     FROM expression_links el
     JOIN articles a ON el.expression_article_id = a.article_id
     LEFT JOIN definitions d ON a.article_id = d.article_id
     LEFT JOIN examples e ON d.id = e.definition_id
     WHERE el.target_lemma = ? AND a.word_class = 'EXPR'
     ORDER BY a.lemma, d.order_num, d.id] *)
Definition linked_expressions (conn : dictionary) (search_term : str)
  : list expression_row :=
  let kept :=
    List.filter (fun r : joined_expression =>
      Sql.holds
        (Sql.and3 (Sql.eq_binary (target_lemma r.1.1.1) (Some search_term))
                  (Sql.eq_binary (word_class r.1.1.2) (Some EXPR))))
      (expression_join conn) in
  let ordered :=
    sort_by lt_lemma_order_id
      (fun r : joined_expression =>
         (lemma r.1.1.2, r.1.2 ≫= d_order_num, d_id <$> r.1.2))
      kept in
  first_seen id
    (List.map (fun r : joined_expression =>
                 (article_id r.1.1.2, lemma r.1.1.2, d_id <$> r.1.2,
                  r.1.2 ≫= d_content, r.2 ≫= e_quote, r.2 ≫= e_explanation))
              ordered).

(** [{'id': ..., 'content': ..., 'examples': [...]}] *)
Record def_data : Type := {
  dd_id : option Z;
  dd_content : option str;
  dd_examples : list example_pair
}.

(** The truth value of a column: NULL and the empty string are false. *)
Definition truthy_opt (x : option str) : bool :=
  match x with
  | Some s => truthy s
  | None => false
  end.

(** [for def_data in expr_dict[lemma]['definitions']], which stops at the
    first definition with the id: the list after the loop, and
    [def_found]. *)
Fixpoint find_definition (definitions : list def_data) (def_id : option Z)
    (quote explanation : option str) : list def_data * bool :=
  match definitions with
  | [] => ([], false)
  | def_data :: rest =>
      if bool_decide (dd_id def_data = def_id) then
        ((if truthy_opt quote then
            {| dd_id := dd_id def_data;
               dd_content := dd_content def_data;
               dd_examples := dd_examples def_data ++ [(quote, explanation)] |}
          else def_data) :: rest, true)
      else
        let '(rest, def_found) :=
          find_definition rest def_id quote explanation in
        (def_data :: rest, def_found)
  end.

(** The body of [for article_id, lemma, def_id, content, quote,
    explanation in linked_expressions]; the mapping holds the
    ['definitions'] list of each lemma. *)
Definition group_expression (expr_dict : gmap str (list def_data))
    (row : expression_row) : gmap str (list def_data) :=
  let '(article_id, lemma, def_id, content, quote, explanation) := row in
  let expr_dict :=
    if decide (is_Some (expr_dict !! lemma)) then expr_dict
    else <[lemma := []]> expr_dict in
  let '(definitions, def_found) :=
    find_definition (default [] (expr_dict !! lemma)) def_id quote
      explanation in
  let definitions :=
    if negb def_found && truthy_opt content then
      definitions ++
      [{| dd_id := def_id; dd_content := content;
          dd_examples :=
            if truthy_opt quote then [(quote, explanation)] else [] |}]
    else definitions in
  <[lemma := definitions]> expr_dict.

Definition get_related_expressions (conn : dictionary) (search_term : str)
  : gmap str (list def_data) :=
  fold_left group_expression (linked_expressions conn search_term) ∅.

(** An expression linked to the term: an entry of word class EXPR that a
    row of [expression_links] ties to the term. *)
Definition linked (conn : dictionary) (search_term : str) (a : article)
  : Prop :=
  In a (dict_articles conn) /\ word_class a = Some EXPR /\
  exists el, In el (dict_expression_links conn) /\
             expression_article_id el = article_id a /\
             target_lemma el = Some search_term.

(** The columns of a row of [linked_expressions]. *)
Definition xr_lemma (r : expression_row) : str := r.1.1.1.1.2.
Definition xr_def_id (r : expression_row) : option Z := r.1.1.1.2.
Definition xr_content (r : expression_row) : option str := r.1.1.2.
Definition xr_quote (r : expression_row) : option str := r.1.2.
Definition xr_explanation (r : expression_row) : option str := r.2.

(** A definition of the mapping comes from the rows: its content is true
    and is that of a row of the lemma with its id, and each of its
    examples has a quote that is true and is that of a row of the lemma
    and the id. *)
Definition def_from_rows (rows : list expression_row) (lem : str)
    (dd : def_data) : Prop :=
  truthy_opt (dd_content dd) = true /\
  (exists r, In r rows /\ xr_lemma r = lem /\
             xr_def_id r = dd_id dd /\ xr_content r = dd_content dd) /\
  forall ex, In ex (dd_examples dd) ->
    truthy_opt ex.1 = true /\
    exists r, In r rows /\ xr_lemma r = lem /\ xr_def_id r = dd_id dd /\
              xr_quote r = ex.1 /\ xr_explanation r = ex.2.

(** Everything in the mapping comes from the rows, and the definitions of
    a lemma have distinct ids. *)
Definition from_rows (rows : list expression_row)
    (expr_dict : gmap str (list def_data)) : Prop :=
  forall lem defs, expr_dict !! lem = Some defs ->
    (exists r, In r rows /\ xr_lemma r = lem) /\
    List.NoDup (List.map dd_id defs) /\
    forall dd, In dd defs -> def_from_rows rows lem dd.

(** Every row is in the mapping: its lemma is a key and, when its content
    is true, its definition is listed, with its example when the quote is
    true. *)
Definition holds_rows (rows : list expression_row)
    (expr_dict : gmap str (list def_data)) : Prop :=
  forall r, In r rows ->
    exists defs, expr_dict !! xr_lemma r = Some defs /\
      (truthy_opt (xr_content r) = true ->
       exists dd, In dd defs /\ dd_id dd = xr_def_id r /\
         (truthy_opt (xr_quote r) = true ->
          In (xr_quote r, xr_explanation r) (dd_examples dd))).

(** A dictionary to compute with: the expression "gå i hus" is linked to
    "hus" and has one definition with two examples, one of them without
    a quote; "hus" has two definitions and an example without a
    definition. *)
Definition ga_i_hus : str := py "g" ++ a_ring ++ py " i hus".

Definition hus_dictionary : dictionary :=
  {| dict_articles := [entry 1 (py "hus") NOUN None;
                       entry 2 ga_i_hus EXPR None;
                       entry 3 (py "i hus") EXPR None];
     dict_definitions :=
       [ {| d_id := 10; d_article_id := 1; d_definition_id := Some 1%Z;
            d_parent_id := None; d_level := Some 2%Z;
            d_content := Some (py "bolig"); d_order_num := Some 1%Z |};
         {| d_id := 11; d_article_id := 1; d_definition_id := Some 2%Z;
            d_parent_id := None; d_level := Some 1%Z;
            d_content := Some (py "bygning"); d_order_num := Some 1%Z |};
         {| d_id := 20; d_article_id := 2; d_definition_id := Some 1%Z;
            d_parent_id := None; d_level := Some 1%Z;
            d_content := Some (py "komme under tak");
            d_order_num := Some 1%Z |} ];
     dict_examples :=
       [ {| e_id := 1; e_article_id := 1; e_definition_id := Some 11%Z;
            e_quote := Some (py "bygge hus"); e_explanation := None |};
         {| e_id := 2; e_article_id := 1; e_definition_id := None;
            e_quote := Some (py "hus og hjem"); e_explanation := None |};
         {| e_id := 3; e_article_id := 2; e_definition_id := Some 20%Z;
            e_quote := Some (py "vi gikk i hus");
            e_explanation := Some (py "inn") |};
         {| e_id := 4; e_article_id := 2; e_definition_id := Some 20%Z;
            e_quote := None; e_explanation := None |} ];
     dict_expression_links :=
       [ {| expression_article_id := 2; target_lemma := Some (py "hus") |};
         {| expression_article_id := 3; target_lemma := Some (py "hus") |};
         {| expression_article_id := 1; target_lemma := Some (py "hus") |} ]
  |}.

(** ** What [main] shows

    The rest of [main]: the word-class options, the display options, the
    heading, the limit and the text handed to the pager.  [Colors],
    [format_result], [highlight_search_term] and [paginate_output] belong
    to modules that are not among the sources: the colours and the two
    formatting functions are parameters, and a call of the pager is
    recorded with its arguments.  A float is put into text by [float_str],
    a parameter as well.  [limit_arg] is [args.limit] as it stands after
    the adjustment for pagination. *)

(** [sep.join(l)] *)
Definition join (sep : str) (l : list str) : str :=
  match l with
  | [] => []
  | x :: l' => x ++ List.flat_map (fun y => sep ++ y) l'
  end.

(** An integer in an f-string *)
Definition str_of_int (n : Z) : str :=
  py (NilZero.string_of_int (Z.to_int n)).

(** [l[:n]]: the first [n] elements, or all but the last [-n] when [n]
    is negative *)
Definition slice_to {A : Type} (l : list A) (n : Z) : list A :=
  if (0 <=? n)%Z then take (Z.to_nat n) l
  else take (length l - Z.to_nat (- n)) l.

(** [enumerate(l)] *)
Fixpoint enumerate_from {A : Type} (i : Z) (l : list A) : list (Z * A) :=
  match l with
  | [] => []
  | x :: l' => (i, x) :: enumerate_from (i + 1)%Z l'
  end.

Definition enumerate {A : Type} (l : list A) : list (Z * A) :=
  enumerate_from 0 l.

Definition len {A : Type} (l : list A) : Z := Z.of_nat (length l).

Record DisplayArgs : Type := {
  adj_flag : bool;
  verb_flag : bool;
  noun_flag : bool;
  adv_flag : bool;
  only_examples_flag : bool;
  only_etymology_flag : bool;
  only_inflections_flag : bool;
  no_definitions_flag : bool;
  no_examples_flag : bool;
  max_examples_arg : option Z;
  limit_arg : Z;
  paginate_flag : bool;
  no_paginate_flag : bool
}.

(** The colours [main] names. *)
Record Colors : Type := {
  HEADER : str;
  BOLD : str;
  END : str;
  WARNING : str;
  INFO : str;
  EXAMPLE : str
}.

(** What [main] does with its text: [print(text)] or
    [paginate_output(full_output, force_pagination=..., disable_pagination=...)]. *)
Inductive event : Type :=
  | Print (text : str)
  | Paginate (full_output : str) (force_pagination disable_pagination : bool).

(** The four characters that stand in front of each heading in the
    source. *)
Definition glass : str := [63743; 252; 238; 231].

Section Display.
Context `{PyRuntime}.
Variable cfg : SearchConfig.
Variable conn : database.
Variable colors : Colors.
Variable format_result :
  article -> bool -> bool -> option Z -> str -> bool -> bool -> bool -> bool ->
  str.
Variable highlight_search_term : str -> str -> str -> str.
Variable float_str : Q -> str.

(** [result[3] and tag in result[3]] *)
Definition has_word_class (tag : str) (result : article) : bool :=
  match word_class result with
  | Some wc => truthy wc && contains tag wc
  | None => false
  end.

(** "Apply word class filtering if specified before displaying count" *)
Definition filter_word_class (dargs : DisplayArgs) (results : list article)
  : list article :=
  if adj_flag dargs then List.filter (has_word_class ADJ) results
  else if verb_flag dargs then List.filter (has_word_class VERB) results
  else if noun_flag dargs then List.filter (has_word_class NOUN) results
  else if adv_flag dargs then List.filter (has_word_class ADV) results
  else results.

(** "Handle display flags": [(show_definitions, show_examples,
    only_examples, only_etymology, only_inflections)] *)
Definition display_flags (dargs : DisplayArgs)
  : bool * bool * bool * bool * bool :=
  if only_examples_flag dargs then (false, true, true, false, false)
  else if only_etymology_flag dargs then (false, false, false, true, false)
  else if only_inflections_flag dargs then (false, false, false, false, true)
  else (negb (no_definitions_flag dargs), negb (no_examples_flag dargs),
        false, false, false).

(** "Add search header" *)
Definition heading (args : Args) (search_type : search_type)
    (clean_query : str) : str :=
  match search_type with
  | ExpressionsOnly =>
      HEADER colors ++ glass ++ py " Expression search for '" ++
      BOLD colors ++ clean_query ++ END colors ++ HEADER colors ++
      py "' (expressions only)" ++ END colors
  | Fuzzy =>
      HEADER colors ++ glass ++ py " Fuzzy search for '~" ++
      BOLD colors ++ clean_query ++ END colors ++ HEADER colors ++
      py "' (threshold: " ++ float_str (threshold_arg args) ++ py ")" ++
      END colors
  | Anywhere =>
      HEADER colors ++ glass ++ py " Searching anywhere for '" ++
      BOLD colors ++ clean_query ++ END colors ++ HEADER colors ++
      py "'" ++ END colors
  | Prefix =>
      HEADER colors ++ glass ++ py " Prefix search for '" ++
      BOLD colors ++ clean_query ++ END colors ++ HEADER colors ++
      py "@' (terms starting with '" ++ clean_query ++ py "')" ++
      END colors
  | AnywhereTerm =>
      HEADER colors ++ glass ++ py " Term search for '@" ++
      BOLD colors ++ clean_query ++ END colors ++ HEADER colors ++
      py "' (terms containing '" ++ clean_query ++ py "')" ++ END colors
  | Fulltext =>
      HEADER colors ++ glass ++ py " Full-text search for '%" ++
      BOLD colors ++ clean_query ++ END colors ++ HEADER colors ++
      py "' (all content)" ++ END colors
  | Exact =>
      HEADER colors ++ glass ++ py " Exact search for '" ++
      BOLD colors ++ clean_query ++ END colors ++ HEADER colors ++
      py "'" ++ END colors
  end.

(** A line of 80 signs in the colour of remarks *)
Definition rule (sign : N) : str :=
  INFO colors ++ List.repeat sign 80 ++ END colors.

(** [format_result(conn, result, ...)] for the result at index [i] *)
Definition result_output (dargs : DisplayArgs) (clean_query : str)
    (i : Z) (result : article) : str :=
  let '(show_definitions, show_examples, only_examples, only_etymology,
        only_inflections) := display_flags dargs in
  let show_expressions := (i =? 0)%Z in
  format_result result show_definitions show_examples
    (max_examples_arg dargs) clean_query show_expressions only_examples
    only_etymology only_inflections.

(** "Add result count if more than 1 result" *)
Definition result_count (dargs : DisplayArgs) (results : list article)
  : list str :=
  if (1 <? len results)%Z then
    if (limit_arg dargs <? len results)%Z then
      [ [10] ++ INFO colors ++ py "Found " ++ str_of_int (len results) ++
        py " results (showing " ++ str_of_int (limit_arg dargs) ++
        py "). Use --limit " ++ str_of_int (len results) ++
        py " to see all." ++ END colors ]
    else
      [ [10] ++ INFO colors ++ py "Found " ++ str_of_int (len results) ++
        py " results." ++ END colors ]
  else [].

(** [output_parts] of the results, from the heading to the count *)
Definition results_parts (args : Args) (dargs : DisplayArgs)
    (search_type : search_type) (clean_query : str)
    (results : list article) : list str :=
  let output_parts := [heading args search_type clean_query] in
  let output_parts :=
    fold_left
      (fun output_parts '(i, result) =>
         let output_parts :=
           output_parts ++ [result_output dargs clean_query i result] in
         if (i <? Z.min (len results) (limit_arg dargs) - 1)%Z
         then output_parts ++ [rule 45]
         else output_parts)
      (enumerate (slice_to results (limit_arg dargs)))
      output_parts in
  output_parts ++ result_count dargs results.

(** The text of one example: the quote, highlighted, and the explanation
    in brackets when there is one *)
Definition example_text (query : str) (row : example_row) : str :=
  let '(quote, explanation, lemma, word_class) := row in
  let highlighted_quote :=
    highlight_search_term quote query (EXAMPLE colors) in
  if truthy_opt explanation then
    highlighted_quote ++ py " (" ++ default [] explanation ++ py ")"
  else highlighted_quote.

(** [output_parts] of [--all-examples] *)
Definition examples_parts (dargs : DisplayArgs) (query : str)
    (examples : list example_row) : list str :=
  let output_parts :=
    [ [10] ++ BOLD colors ++ py "Found " ++ str_of_int (len examples) ++
      py " example(s) containing '" ++ query ++ py "':" ++ END colors;
      rule 61 ] in
  let example_texts :=
    List.map (example_text query) (slice_to examples (limit_arg dargs)) in
  let output_parts :=
    match example_texts with
    | [] => output_parts
    | _ => output_parts ++ [py "  " ++ join (py "; ") example_texts]
    end in
  if (limit_arg dargs <? len examples)%Z then
    output_parts ++
    [ INFO colors ++ py "... and " ++
      str_of_int (len examples - limit_arg dargs) ++
      py " more example(s)" ++ END colors;
      INFO colors ++ py "Use --limit " ++ str_of_int (len examples) ++
      py " to see all examples" ++ END colors ]
  else output_parts.

(** What the body of the [try] block of [main] prints and pages for a
    query (cli.py 141-292). *)
Definition show (args : Args) (dargs : DisplayArgs) (query : str)
  : list event :=
  match dispatch cfg conn args query with
  | Examples examples =>
      Print (HEADER colors ++ glass ++
             py " Searching all examples for exact matches of '" ++
             BOLD colors ++ query ++ END colors ++ HEADER colors ++
             py "'" ++ END colors) ::
      match examples with
      | [] =>
          [Print (WARNING colors ++ py "No examples found containing '" ++
                  query ++ py "'." ++ END colors)]
      | _ =>
          [Paginate (join [10] (examples_parts dargs query examples))
                    (paginate_flag dargs) (no_paginate_flag dargs)]
      end
  | Results results =>
      let '(search_type, clean_query) := override args query in
      let results := filter_word_class dargs results in
      match results with
      | [] => [Print (WARNING colors ++ py "No results found." ++ END colors)]
      | _ =>
          [Paginate
             (join [10]
                (results_parts args dargs search_type clean_query results))
             (paginate_flag dargs) (no_paginate_flag dargs)]
      end
  end.
End Display.

(** [sep] between the elements of a list, and nowhere else. *)
Fixpoint intersperse {A : Type} (sep : A) (l : list A) : list A :=
  match l with
  | [] => []
  | [x] => [x]
  | x :: l' => x :: sep :: intersperse sep l'
  end.

(** Colours and formatting functions to compute with: no colour, and a
    result shown as its lemma. *)
Definition no_colors : Colors :=
  {| HEADER := []; BOLD := []; END := []; WARNING := []; INFO := [];
     EXAMPLE := [] |}.

Definition lemma_only (result : article) (_ _ : bool) (_ : option Z)
    (_ : str) (_ _ _ _ : bool) : str :=
  lemma result.

Definition no_highlight (quote _ _ : str) : str := quote.

Definition no_float (_ : Q) : str := [].

(** No display option, and a limit of 10. *)
Definition plain_display : DisplayArgs :=
  {| adj_flag := false; verb_flag := false; noun_flag := false;
     adv_flag := false; only_examples_flag := false;
     only_etymology_flag := false; only_inflections_flag := false;
     no_definitions_flag := false; no_examples_flag := false;
     max_examples_arg := None; limit_arg := 10;
     paginate_flag := false; no_paginate_flag := false |}.

(** "hus" with the expression "hus og hjem". *)
Definition hus_db : database :=
  {| articles := [entry 1 (py "hus") NOUN None;
                  entry 2 (py "hus og hjem") EXPR None];
     definitions := []; examples := [] |}.

(** ** A call of [main]

    [main] from its first line (cli.py 14-300).  A name of its body that
    is not a local variable is looked up among the names the module binds
    and then among the builtins, and a name found in neither raises
    [NameError]; the module binds the names of its import statements and
    [main], and whatever a caller has put into it besides ([injected]).
    The input is the namespace [parse_args] returns.  The connection is
    the one [setup_database] returns; the configuration wizard, the test
    searches and the statistics are recorded as actions, and so is the
    closing of the connection.  The searches and the formatting functions
    return, so the two exception handlers at the end stay unused. *)

Inductive exception : Type :=
  | NameError (name : string)
  | SystemExit (code : Z).

Inductive action : Type :=
  | Output (e : event)
  | ConfigWizard
  | TestSearches
  | Statistics
  | Close.

(** What a call does, in order, and the exception that ends it, if one
    does. *)
Definition run : Type := list action * option exception.

(** The names bound by the import statements of [cli.py], and [main]. *)
Definition cli_globals : list string :=
  ["argparse"; "sys"; "Colors"; "search_config"; "setup_database";
   "parse_search_query"; "search_exact"; "search_fuzzy"; "search_prefix";
   "search_anywhere_term"; "search_fulltext"; "search_anywhere";
   "search_expressions_only"; "search_all_examples"; "paginate_output";
   "main"]%string.

(** The builtins [main] names. *)
Definition builtins : list string :=
  ["print"; "len"; "min"; "enumerate"; "Exception";
   "KeyboardInterrupt"]%string.

Definition load_global (module_names : list string) (name : string)
  : option exception :=
  if existsb (String.eqb name) (module_names ++ builtins) then None
  else Some (NameError name).

(** The names are looked up one after the other; the first that is not
    bound ends the call. *)
Fixpoint load_globals (module_names names : list string)
  : option exception :=
  match names with
  | [] => None
  | name :: names' =>
      match load_global module_names name with
      | Some e => Some e
      | None => load_globals module_names names'
      end
  end.

(** The global names evaluated while the parser is built (cli.py 16-97),
    in the order of their first use: [argparse.ArgumentParser],
    [Colors.BOLD] in the epilog, [search_config.default_limit] as the
    default of [--limit], and [os.path.expanduser] as the default of
    [--db]. *)
Definition parser_names : list string :=
  ["argparse"; "Colors"; "search_config"; "os"]%string.

(** [search_config], as [main] reads it *)
Record LimitConfig : Type := {
  pagination : bool;
  default_limit : Z;
  limit_with_pagination : Z
}.

(** The namespace [parse_args] returns; [query_arg] is [None] when no
    search term is given. *)
Record CommandLine : Type := {
  query_arg : option str;
  search_args : Args;
  display_args : DisplayArgs;
  config_flag : bool;
  test_flag : bool;
  stats_flag : bool
}.

Section Call.
Context `{PyRuntime}.
Variable injected : list string.
Variable cfg : SearchConfig.
Variable lcfg : LimitConfig.
Variable colors : Colors.
Variable ERROR : str.
Variable format_result :
  article -> bool -> bool -> option Z -> str -> bool -> bool -> bool -> bool ->
  str.
Variable highlight_search_term : str -> str -> str -> str.
Variable float_str : Q -> str.

(** "Adjust limit when pagination is enabled and user didn't specify
    custom limit" *)
Definition adjust_limit (dargs : DisplayArgs) : DisplayArgs :=
  if (pagination lcfg || paginate_flag dargs) &&
     (limit_arg dargs =? default_limit lcfg)%Z
  then
    {| adj_flag := adj_flag dargs; verb_flag := verb_flag dargs;
       noun_flag := noun_flag dargs; adv_flag := adv_flag dargs;
       only_examples_flag := only_examples_flag dargs;
       only_etymology_flag := only_etymology_flag dargs;
       only_inflections_flag := only_inflections_flag dargs;
       no_definitions_flag := no_definitions_flag dargs;
       no_examples_flag := no_examples_flag dargs;
       max_examples_arg := max_examples_arg dargs;
       limit_arg := limit_with_pagination lcfg;
       paginate_flag := paginate_flag dargs;
       no_paginate_flag := no_paginate_flag dargs |}
  else dargs.

Definition main (args : CommandLine) (conn : database) : run :=
  match load_globals (cli_globals ++ injected) parser_names with
  | Some e => ([], Some e)
  | None =>
      if config_flag args then ([ConfigWizard], None)
      else if negb (test_flag args) && negb (truthy_opt (query_arg args)) &&
              negb (stats_flag args) then
        ([Output
            (Print (ERROR ++
                    py "Error: Either provide a search term, use --test flag, --stats flag, or --config flag" ++
                    END colors))],
         Some (SystemExit 1))
      else if negb (Qle_bool 0 (threshold_arg (search_args args)) &&
                    Qle_bool (threshold_arg (search_args args)) 1) then
        ([Output
            (Print (ERROR ++
                    py "Error: Threshold must be between 0.0 and 1.0" ++
                    END colors))],
         Some (SystemExit 1))
      else
        let dargs := adjust_limit (display_args args) in
        if test_flag args then ([TestSearches], None)
        else if stats_flag args then ([Statistics; Close], None)
        else
          (List.map Output
             (show cfg conn colors format_result highlight_search_term
                   float_str (search_args args) dargs
                   (default [] (query_arg args))) ++
           [Close],
           None)
  end.
End Call.

(** A configuration without pagination and with the limit 10, and the
    command line of a search term alone. *)
Definition plain_limits : LimitConfig :=
  {| pagination := false; default_limit := 10; limit_with_pagination := 20 |}.

Definition plain_query (query : str) : CommandLine :=
  {| query_arg := Some query; search_args := no_flags;
     display_args := plain_display; config_flag := false;
     test_flag := false; stats_flag := false |}.

(** * Properties *)

(** ** Sorting *)

Section SortingFacts.
Context {A K : Type} (lt : K -> K -> bool) (key : A -> K).

Lemma insert_by_perm x l : Permutation (insert_by lt key x l) (x :: l).
Proof.
  induction l as [|y l IH]; simpl; [reflexivity|].
  destruct (lt (key y) (key x)); [|reflexivity].
  rewrite IH. apply perm_swap.
Qed.

Lemma sort_by_perm l : Permutation (sort_by lt key l) l.
Proof.
  induction l as [|x l IH]; simpl; [reflexivity|].
  rewrite insert_by_perm. by constructor.
Qed.

Lemma sort_by_In x l : In x (sort_by lt key l) <-> In x l.
Proof.
  split; apply Permutation_in; [|symmetry]; apply sort_by_perm.
Qed.

Lemma sort_by_NoDup {B : Type} (f : A -> B) l :
  List.NoDup (List.map f l) -> List.NoDup (List.map f (sort_by lt key l)).
Proof.
  intros Hnd. eapply Permutation_NoDup; [|exact Hnd].
  apply Permutation_map. symmetry. apply sort_by_perm.
Qed.

Context `{!KeyOrder lt}.

Lemma lt_irrefl (a : K) : lt a a = false.
Proof.
  destruct (lt a a) eqn:Hlt; [|done]. by rewrite (lt_asym _ _ Hlt) in Hlt.
Qed.

Lemma same_rank_refl x : same_rank lt key x x = true.
Proof. unfold same_rank. by rewrite lt_irrefl. Qed.

Lemma key_le_trans x y z : key_le lt key x y -> key_le lt key y z -> key_le lt key x z.
Proof. unfold key_le. intros Hxy Hyz. by apply (lt_negtrans _ (key y)). Qed.

Lemma insert_by_sorted x l :
  StronglySorted (key_le lt key) l -> StronglySorted (key_le lt key) (insert_by lt key x l).
Proof.
  induction l as [|y l IH]; simpl; intros Hs.
  - repeat constructor.
  - apply StronglySorted_inv in Hs as [Hl Hy].
    destruct (lt (key y) (key x)) eqn:Hlt.
    + constructor; [by apply IH|].
      rewrite List.Forall_forall. intros z Hz.
      apply (Permutation_in _ (insert_by_perm x l)) in Hz as [<-|Hz].
      * by apply lt_asym.
      * rewrite List.Forall_forall in Hy. by apply Hy.
    + constructor; [by constructor|].
      constructor; [exact Hlt|].
      rewrite List.Forall_forall in Hy |- *. intros z Hz.
      apply (key_le_trans x y z); [exact Hlt | by apply Hy].
Qed.

Lemma sort_by_sorted l : StronglySorted (key_le lt key) (sort_by lt key l).
Proof.
  induction l as [|x l IH]; simpl; [constructor|].
  by apply insert_by_sorted.
Qed.

Lemma same_rank_lt z x y :
  same_rank lt key z x = true -> lt (key y) (key x) = true -> same_rank lt key z y = false.
Proof.
  unfold same_rank. rewrite andb_true_iff, !negb_true_iff.
  intros [Hzx Hxz] Hyx.
  destruct (lt (key z) (key y)) eqn:Hzy; [done|].
  destruct (lt (key y) (key z)) eqn:Hyz; [done|].
  by rewrite (lt_negtrans _ _ _ Hyz Hzx) in Hyx.
Qed.

Lemma insert_by_same_rank z x l :
  List.filter (same_rank lt key z) (insert_by lt key x l) =
  List.filter (same_rank lt key z) (x :: l).
Proof.
  induction l as [|y l IH]; [done|].
  cbn [insert_by]. destruct (lt (key y) (key x)) eqn:Hlt; [|done].
  cbn [List.filter] in *. rewrite IH.
  destruct (same_rank lt key z x) eqn:Hx; [|done].
  by rewrite (same_rank_lt z x y Hx Hlt).
Qed.

(** Stability: the elements of one rank keep their order. *)
Lemma sort_by_stable z l :
  List.filter (same_rank lt key z) (sort_by lt key l) = List.filter (same_rank lt key z) l.
Proof.
  induction l as [|x l IH]; [done|].
  cbn [sort_by]. rewrite insert_by_same_rank. cbn [List.filter].
  by rewrite IH.
Qed.

(** A sorted, stable rearrangement is unique: whatever algorithm
    [list.sort] runs, its outcome is that of [sort_by]. *)
Lemma stable_sorted_unique l1 l2 :
  StronglySorted (key_le lt key) l1 -> StronglySorted (key_le lt key) l2 ->
  Permutation l1 l2 ->
  (forall z, List.filter (same_rank lt key z) l1 = List.filter (same_rank lt key z) l2) ->
  l1 = l2.
Proof.
  revert l2. induction l1 as [|x l1 IH]; intros l2 Hs1 Hs2 Hp Hst.
  { by apply Permutation_nil in Hp. }
  destruct l2 as [|y l2].
  { symmetry in Hp. by apply Permutation_nil in Hp. }
  apply StronglySorted_inv in Hs1 as [Hs1 Hx].
  apply StronglySorted_inv in Hs2 as [Hs2 Hy].
  rewrite List.Forall_forall in Hx, Hy.
  assert (key_le lt key x y) as Hxy.
  { assert (In y (x :: l1)) as [->|Hin]
      by (eapply Permutation_in; [symmetry; exact Hp|by left]).
    - apply lt_irrefl.
    - by apply Hx. }
  assert (key_le lt key y x) as Hyx.
  { assert (In x (y :: l2)) as [->|Hin]
      by (eapply Permutation_in; [exact Hp|by left]).
    - apply lt_irrefl.
    - by apply Hy. }
  assert (x = y) as <-.
  { specialize (Hst x). cbn [List.filter] in Hst.
    rewrite same_rank_refl in Hst.
    unfold same_rank in Hst at 2. unfold key_le in Hxy, Hyx.
    rewrite Hxy, Hyx in Hst. simpl in Hst. congruence. }
  f_equal. apply IH; [done..| |].
  - by apply Permutation_cons_inv in Hp.
  - intros z. specialize (Hst z). cbn [List.filter] in Hst.
    destruct (same_rank lt key z x); congruence.
Qed.

Lemma sort_by_unique l l' :
  Permutation l' l -> StronglySorted (key_le lt key) l' ->
  (forall z, List.filter (same_rank lt key z) l' = List.filter (same_rank lt key z) l) ->
  l' = sort_by lt key l.
Proof.
  intros Hp Hs Hst. apply stable_sorted_unique; [done|apply sort_by_sorted| |].
  - by rewrite sort_by_perm.
  - intros z. by rewrite sort_by_stable.
Qed.

(** In a sorted list without repetition, a strictly smaller key comes
    first. *)
Lemma sorted_lt_before l x y :
  StronglySorted (key_le lt key) l -> In x l -> In y l ->
  lt (key x) (key y) = true ->
  exists l1 l2 l3, l = l1 ++ x :: l2 ++ y :: l3.
Proof.
  intros Hs Hx Hy Hlt.
  apply in_split in Hy as (l1 & l3 & ->).
  apply in_app_or in Hx as [Hx|[<-|Hx]].
  - apply in_split in Hx as (l0 & l2 & ->).
    exists l0, l2, l3. by rewrite <- app_assoc.
  - apply lt_asym in Hlt as Hlt'. congruence.
  - apply StronglySorted_app_1_r in Hs.
    apply StronglySorted_inv in Hs as [_ Hall].
    rewrite List.Forall_forall in Hall. specialize (Hall x Hx).
    unfold key_le in Hall. congruence.
Qed.
End SortingFacts.

(** ** The orders on sort keys *)

Ltac bool_to_prop :=
  repeat match goal with
  | H : context [Nat.ltb ?a ?b] |- _ => destruct (Nat.ltb_spec a b)
  | |- context [Nat.ltb ?a ?b] => destruct (Nat.ltb_spec a b)
  | H : context [Nat.eqb ?a ?b] |- _ => destruct (Nat.eqb_spec a b)
  | |- context [Nat.eqb ?a ?b] => destruct (Nat.eqb_spec a b)
  | H : context [Z.ltb ?a ?b] |- _ => destruct (Z.ltb_spec a b)
  | |- context [Z.ltb ?a ?b] => destruct (Z.ltb_spec a b)
  | H : context [Z.eqb ?a ?b] |- _ => destruct (Z.eqb_spec a b)
  | |- context [Z.eqb ?a ?b] => destruct (Z.eqb_spec a b)
  | H : context [N.ltb ?a ?b] |- _ => destruct (N.ltb_spec a b)
  | |- context [N.ltb ?a ?b] => destruct (N.ltb_spec a b)
  | H : context [N.eqb ?a ?b] |- _ => destruct (N.eqb_spec a b)
  | |- context [N.eqb ?a ?b] => destruct (N.eqb_spec a b)
  end.

#[global] Instance nat_key_order : KeyOrder Nat.ltb.
Proof. split; intros; bool_to_prop; (done || lia). Qed.

Lemma lt_int_nat_nat_spec (h1 h2 : Z) (p1 p2 n1 n2 : nat) :
  lt_int_nat_nat (h1, p1, n1) (h2, p2, n2) = true <->
  (h1 < h2)%Z \/
  (h1 = h2 /\ ((p1 < p2)%nat \/ (p1 = p2 /\ (n1 < n2)%nat))).
Proof. unfold lt_int_nat_nat. bool_to_prop; (done || lia). Qed.

#[global] Instance int_nat_nat_key_order : KeyOrder lt_int_nat_nat.
Proof.
  split.
  - intros [[h1 p1] n1] [[h2 p2] n2].
    rewrite <- not_true_iff_false, !lt_int_nat_nat_spec. lia.
  - intros [[h1 p1] n1] [[h2 p2] n2] [[h3 p3] n3].
    rewrite <- !not_true_iff_false, !lt_int_nat_nat_spec. lia.
Qed.

Lemma Qltb_lt (x y : Q) : Qltb x y = true <-> (x < y)%Q.
Proof.
  unfold Qltb. rewrite negb_true_iff. split.
  - intros Hle. apply Qnot_le_lt. intros Hyx.
    apply Qle_bool_iff in Hyx. congruence.
  - intros Hlt. destruct (Qle_bool y x) eqn:Hle; [|done].
    apply Qle_bool_iff in Hle. by apply Qle_not_lt in Hle.
Qed.

Lemma Qltb_ge (x y : Q) : Qltb x y = false <-> (y <= x)%Q.
Proof.
  unfold Qltb. rewrite negb_false_iff. apply Qle_bool_iff.
Qed.

Lemma Qeq_bool_false (x y : Q) : Qeq_bool x y = false <-> ~ (x == y)%Q.
Proof.
  split; [apply Qeq_bool_neq|].
  intros Hne. destruct (Qeq_bool x y) eqn:Heq; [|done].
  by apply Qeq_bool_iff in Heq.
Qed.

#[global] Instance float_nat_key_order : KeyOrder lt_float_nat.
Proof.
  split.
  - intros [s1 n1] [s2 n2]. unfold lt_float_nat.
    destruct (Qeq_bool s1 s2) eqn:E12, (Qeq_bool s2 s1) eqn:E21;
      rewrite ?Qeq_bool_iff, ?Qeq_bool_false, ?Qltb_lt, ?Qltb_ge in *.
    + intros. bool_to_prop; (done || lia).
    + symmetry in E12. done.
    + symmetry in E21. done.
    + intros Hlt. by apply Qlt_le_weak.
  - intros [s1 n1] [s2 n2] [s3 n3]. unfold lt_float_nat.
    destruct (Qeq_bool s1 s2) eqn:E12, (Qeq_bool s2 s3) eqn:E23,
             (Qeq_bool s1 s3) eqn:E13;
      rewrite ?Qeq_bool_iff, ?Qeq_bool_false, ?Qltb_lt, ?Qltb_ge in *.
    + intros. bool_to_prop; (done || lia).
    + destruct E13. by rewrite E12.
    + destruct E23. by rewrite <- E12.
    + intros _ H23. by rewrite E12.
    + destruct E12. by rewrite E13, E23.
    + intros H21 _. by rewrite <- E23.
    + intros H21 H32. destruct E12.
      apply Qle_antisym; [|done]. by rewrite E13.
    + intros H21 H32. by apply (Qle_trans _ s2).
Qed.

Lemma str_ltb_irrefl (a : str) : Str.ltb a a = false.
Proof.
  induction a as [|x a IH]; [done|]. simpl. rewrite IH.
  bool_to_prop; (done || lia).
Qed.

Lemma str_ltb_total (a b : str) :
  Str.ltb a b = false -> Str.ltb b a = false -> a = b.
Proof.
  revert b. induction a as [|x a IH]; intros [|y b]; simpl; try done.
  bool_to_prop; simpl; try (done || lia).
  subst. intros Hab Hba. f_equal. by apply IH.
Qed.

#[global] Instance str_key_order : KeyOrder Str.ltb.
Proof.
  split.
  - intros a. induction a as [|x a IH]; intros [|y b]; simpl; try done.
    bool_to_prop; simpl; try (done || lia). apply IH.
  - intros a. induction a as [|x a IH]; intros [|y b] [|z c]; simpl; try done.
    bool_to_prop; simpl; try (done || lia). apply IH.
Qed.

(** ** De-duplication *)

Lemma fold_left_ext {A B : Type} (f g : A -> B -> A) (l : list B) (a : A) :
  (forall a b, f a b = g a b) -> fold_left f l a = fold_left g l a.
Proof.
  intros Hfg. revert a. induction l as [|b l IH]; intros a; [done|].
  simpl. by rewrite Hfg, IH.
Qed.

Section FirstSeen.
Context {A K : Type} `{EqDecision K} (key : A -> K).

(** An element is kept exactly when it is the first of its key and the
    key has not been met before. *)
Lemma first_seen_from_In (x : A) (seen : list K) (l : list A) :
  In x (first_seen_from key seen l) <->
  (key x ∉ seen) /\
  exists l1 l2, l = l1 ++ x :: l2 /\ ~ In (key x) (List.map key l1).
Proof.
  revert seen. induction l as [|y l IH]; intros seen; simpl.
  - split; [done|]. intros (_ & [|??] & ? & ? & _); done.
  - destruct (decide (key y ∈ seen)) as [Hy|Hy].
    + rewrite IH. split.
      * intros (Hx & l1 & l2 & -> & Hl1). split; [done|].
        exists (y :: l1), l2. split; [done|]. simpl.
        intros [Heq|Hin]; [|done]. by rewrite Heq in Hy.
      * intros (Hx & l1 & l2 & Heq & Hl1). split; [done|].
        destruct l1 as [|z l1]; simplify_eq/=; [done|].
        exists l1, l2. split; [done|]. tauto.
    + simpl. rewrite IH. split.
      * intros [<-|(Hx & l1 & l2 & -> & Hl1)].
        { split; [done|]. exists [], l. split; [done|]. simpl. tauto. }
        apply not_elem_of_cons in Hx as [Hne Hx]. split; [done|].
        exists (y :: l1), l2. split; [done|]. simpl.
        intros [Heq|Hin]; [|done]. by symmetry in Heq.
      * intros (Hx & l1 & l2 & Heq & Hl1).
        destruct l1 as [|z l1]; simplify_eq/=; [by left|].
        right. split; [|exists l1, l2; split; [done|tauto]].
        apply not_elem_of_cons. split; [|done].
        intros Heq. apply Hl1. by left.
Qed.

Lemma first_seen_In (x : A) (l : list A) :
  In x (first_seen key l) <->
  exists l1 l2, l = l1 ++ x :: l2 /\ ~ In (key x) (List.map key l1).
Proof.
  unfold first_seen. rewrite first_seen_from_In.
  split; [by intros [_ ?]|]. intros Hex. split; [|done].
  apply not_elem_of_nil.
Qed.

Lemma first_seen_cons (x : A) (l : list A) :
  first_seen key (x :: l) = x :: first_seen_from key [key x] l.
Proof.
  unfold first_seen. cbn [first_seen_from].
  by destruct (decide (key x ∈ [])) as [Hin%elem_of_nil|].
Qed.

Lemma first_seen_sub (x : A) (l : list A) : In x (first_seen key l) -> In x l.
Proof.
  rewrite first_seen_In. intros (l1 & l2 & -> & _).
  apply in_or_app. right. by left.
Qed.

Lemma first_seen_from_NoDup (seen : list K) (l : list A) :
  List.NoDup (List.map key (first_seen_from key seen l)).
Proof.
  revert seen. induction l as [|x l IH]; intros seen; simpl; [constructor|].
  destruct (decide (key x ∈ seen)) as [Hx|Hx]; [apply IH|].
  simpl. constructor; [|apply IH].
  rewrite in_map_iff. intros (y & Hkey & Hy).
  apply first_seen_from_In in Hy as [Hy _]. apply Hy.
  rewrite Hkey. by left.
Qed.

Lemma first_seen_NoDup (l : list A) :
  List.NoDup (List.map key (first_seen key l)).
Proof. apply first_seen_from_NoDup. Qed.

(** Every key of the input is still there. *)
Lemma first_seen_keys (k : K) (l : list A) :
  In k (List.map key l) -> In k (List.map key (first_seen key l)).
Proof.
  intros Hk. induction l as [|x l IH] using rev_ind; [done|].
  rewrite List.map_app in Hk. apply in_app_or in Hk.
  destruct (in_dec (fun a b => decide (a = b)) k (List.map key l))
    as [Hin|Hnin].
  - apply IH in Hin. apply in_map_iff in Hin as (y & <- & Hy).
    apply in_map. apply first_seen_In in Hy as (l1 & l2 & -> & Hl1).
    apply first_seen_In. exists l1, (l2 ++ [x]).
    split; [by rewrite <- app_assoc|done].
  - destruct Hk as [Hk|[<-|[]]]; [done|].
    apply in_map. apply first_seen_In. by exists l, [].
Qed.

(** When equal keys mean equal elements, nothing is lost. *)
Lemma first_seen_In_inj (x : A) (l : list A) :
  (forall y z, In y l -> In z l -> key y = key z -> y = z) ->
  In x (first_seen key l) <-> In x l.
Proof.
  intros Hinj. split; [apply first_seen_sub|]. intros Hx.
  assert (In (key x) (List.map key (first_seen key l))) as Hk
    by by apply first_seen_keys, in_map.
  apply in_map_iff in Hk as (y & Hkey & Hy).
  assert (y = x) as <-; [|done].
  apply Hinj; [by apply first_seen_sub| |]; done.
Qed.
End FirstSeen.

Section LoopFacts.
Context {A K : Type} `{Countable K} (key : A -> K).

Lemma fold_add_new_from (l res : list A) (seen : gset K) (ks : list K) :
  (forall k, k ∈ seen <-> k ∈ ks) ->
  (fold_left (add_new key) l (res, seen)).1 = res ++ first_seen_from key ks l.
Proof.
  revert res seen ks. induction l as [|x l IH]; intros res seen ks Hks.
  - simpl. by rewrite app_nil_r.
  - simpl. unfold add_new at 2. simpl.
    destruct (decide (key x ∈ seen)) as [Hx|Hx],
             (decide (key x ∈ ks)) as [Hx'|Hx'].
    + by apply IH.
    + by apply Hks in Hx.
    + by apply Hks in Hx'.
    + rewrite (IH _ _ (key x :: ks)).
      * by rewrite <- app_assoc.
      * intros k. rewrite elem_of_union, elem_of_singleton, elem_of_cons.
        rewrite Hks. tauto.
Qed.

Lemma fold_add_new (l : list A) :
  (fold_left (add_new key) l ([], ∅)).1 = first_seen key l.
Proof.
  rewrite (fold_add_new_from l [] ∅ []); [done|].
  intros k. rewrite elem_of_nil. set_solver.
Qed.

Lemma fold_add_new_variants {V : Type} (hits : V -> list A) (vs : list V)
    (st : list A * gset K) :
  fold_left (fun st v => fold_left (add_new key) (hits v) st) vs st =
  fold_left (add_new key) (List.flat_map hits vs) st.
Proof.
  revert st. induction vs as [|v vs IH]; intros st; [done|].
  simpl. by rewrite fold_left_app, IH.
Qed.

(** The shape shared by the searches: a loop over the variants, each
    going through its hits, then a function of the collected rows. *)
Lemma collect_first_seen {V B : Type}
    (step : list A * gset K -> V -> list A * gset K)
    (hits : V -> list A) (vs : list V) (F : list A -> B) :
  (forall st v, step st v = fold_left (add_new key) (hits v) st) ->
  (let '(results, _) := fold_left step vs ([], ∅) in F results) =
  F (first_seen key (List.flat_map hits vs)).
Proof.
  intros Hstep. rewrite <- fold_add_new, <- fold_add_new_variants.
  rewrite (fold_left_ext step _ vs _ Hstep).
  by destruct (fold_left _ _ _).
Qed.

(** A loop that maps each row to at most one candidate. *)
Lemma fold_add_new_omap {B : Type} (f : B -> option A) (l : list B)
    (st : list A * gset K) :
  fold_left (fun st b => match f b with
                         | Some x => add_new key st x
                         | None => st
                         end) l st =
  fold_left (add_new key) (omap f l) st.
Proof.
  revert st. induction l as [|b l IH]; intros st; [done|].
  simpl. destruct (f b); simpl; apply IH.
Qed.
End LoopFacts.

Lemma for_rows_add_new (check : article -> bool) (rows : list article)
    (st : loop_state) :
  for_rows check rows st =
  fold_left (add_new article_id) (List.filter check rows) st.
Proof.
  unfold for_rows. revert st.
  induction rows as [|r rows IH]; intros st; [done|].
  simpl. rewrite IH. destruct st as [results seen_ids].
  unfold add_unseen. destruct (check r); simpl.
  - unfold add_new. simpl. by destruct (decide _).
  - by destruct (decide _).
Qed.

Lemma filter_always (rows : list article) : List.filter always rows = rows.
Proof. induction rows as [|r rows IH]; simpl; [done|]. by rewrite IH. Qed.

(** Each search is the sort of the first-seen hits. *)
Section SearchEquations.
Context `{PyRuntime}.
Variable cfg : SearchConfig.
Variable conn : database.

Lemma search_exact_eq (query : str) (include_expr : option bool) :
  search_exact cfg conn query include_expr =
  sort_by lt_int_nat_nat exact_sort_key
    (first_seen article_id
       (exact_hits cfg conn query (default true include_expr))).
Proof.
  unfold search_exact, exact_hits.
  apply (collect_first_seen _ _ _ _ (sort_by _ _)).
  intros st v. simpl.
  by rewrite !for_rows_add_new, filter_always, fold_left_app.
Qed.

Lemma search_prefix_eq (query : str) (include_expr : option bool) :
  search_prefix cfg conn query include_expr =
  sort_by Nat.ltb lemma_length
    (first_seen article_id
       (prefix_hits cfg conn query (default false include_expr))).
Proof.
  unfold search_prefix, prefix_hits.
  apply (collect_first_seen _ _ _ _ (sort_by _ _)).
  intros st v. simpl. by rewrite for_rows_add_new.
Qed.

Lemma search_anywhere_term_eq (query : str) (include_expr : option bool) :
  search_anywhere_term cfg conn query include_expr =
  sort_by Nat.ltb lemma_length
    (first_seen article_id
       (anywhere_term_hits cfg conn query (default false include_expr))).
Proof.
  unfold search_anywhere_term, anywhere_term_hits.
  apply (collect_first_seen _ _ _ _ (sort_by _ _)).
  intros st v. simpl. by rewrite for_rows_add_new, filter_always.
Qed.

Lemma search_fulltext_eq (query : str) (include_expr : option bool) :
  search_fulltext cfg conn query include_expr =
  sort_by Nat.ltb lemma_length
    (first_seen article_id
       (fulltext_hits cfg conn query (default false include_expr))).
Proof.
  unfold search_fulltext, fulltext_hits.
  apply (collect_first_seen _ _ _ _ (sort_by _ _)).
  intros st v. simpl. by rewrite for_rows_add_new, filter_always.
Qed.

Lemma search_anywhere_eq (query : str) (include_expr : option bool) :
  search_anywhere cfg conn query include_expr =
  sort_by Nat.ltb lemma_length
    (first_seen article_id
       (anywhere_hits cfg conn query (default false include_expr))).
Proof.
  unfold search_anywhere, anywhere_hits.
  apply (collect_first_seen _ _ _ _ (sort_by _ _)).
  intros st v. simpl. by rewrite for_rows_add_new, filter_always.
Qed.

Lemma search_expressions_only_eq (query : str) :
  search_expressions_only cfg conn query =
  sort_by Nat.ltb lemma_length
    (first_seen article_id (expressions_hits cfg conn query)).
Proof.
  unfold search_expressions_only, expressions_hits.
  apply (collect_first_seen _ _ _ _ (sort_by _ _)).
  intros st v. simpl. by rewrite for_rows_add_new, filter_always.
Qed.

Lemma fuzzy_step_add_new (variant : str) (threshold : Q) (st : fuzzy_state)
    (a : article) :
  fuzzy_step variant threshold st a =
  match pair a <$> fuzzy_score variant threshold a with
  | Some x => add_new (fun x => article_id x.1) st x
  | None => st
  end.
Proof.
  destruct st as [ms seen]. unfold fuzzy_step, fuzzy_score, add_new. simpl.
  repeat destruct (Qle_bool _ _); simpl; by repeat case_decide.
Qed.

Lemma fuzzy_matches_eq (query : str) (threshold : Q) (include_expr : bool) :
  fuzzy_matches cfg conn query threshold include_expr =
  sort_by lt_float_nat fuzzy_sort_key
    (first_seen (fun x => article_id x.1)
       (fuzzy_hits cfg conn query threshold include_expr)).
Proof.
  unfold fuzzy_matches, fuzzy_hits.
  apply (collect_first_seen _ _ _ _ (sort_by _ _)).
  intros st v. simpl. rewrite <- fold_add_new_omap.
  apply fold_left_ext. intros. apply fuzzy_step_add_new.
Qed.

Lemma examples_step_add_new (variant : str) (st : examples_state)
    (row : example_row) :
  examples_step variant st row =
  if example_accepts variant row then add_new (fun r => r.1.1.1) st row
  else st.
Proof.
  destruct st as [ex seen], row as [[[quote explanation] lem] wc].
  unfold examples_step, example_accepts, add_new. simpl.
  destruct (truthy quote); simpl; [|done].
  destruct (decide (quote ∈ seen)) as [Hin|Hin].
  - rewrite bool_decide_eq_false_2 by (by intros ?).
    by destruct (_ || _).
  - rewrite bool_decide_eq_true_2 by done.
    destruct (Re.search _ _); simpl; [done|]. by destruct (mem _ _).
Qed.

Lemma search_all_examples_eq (query : str) :
  search_all_examples cfg conn query =
  sort_by Str.ltb (fun x => x.1.2)
    (first_seen (fun r => r.1.1.1) (example_hits cfg conn query)).
Proof.
  unfold search_all_examples, example_hits.
  apply (collect_first_seen _ _ _ _ (sort_by _ _)).
  intros st v. simpl.
  induction (example_rows conn v) as [|r rows IH] in st |- *; [done|].
  simpl. rewrite examples_step_add_new.
  destruct (example_accepts v r); simpl; apply IH.
Qed.
End SearchEquations.

(** ** Strings *)

Lemma str_eqb_eq (a b : str) : Str.eqb a b = true <-> a = b.
Proof.
  revert b. induction a as [|x a IH]; intros [|y b]; simpl; try done.
  rewrite andb_true_iff, N.eqb_eq, IH. split; [by intros [-> ->]|].
  by intros [= -> ->].
Qed.

Lemma str_eqb_refl (a : str) : Str.eqb a a = true.
Proof. by apply str_eqb_eq. Qed.

Lemma str_eqb_neq (a b : str) : Str.eqb a b = false <-> a <> b.
Proof.
  rewrite <- str_eqb_eq. by destruct (Str.eqb a b).
Qed.

Lemma mem_In (x : str) (l : list str) : mem x l = true <-> In x l.
Proof.
  unfold mem. rewrite existsb_exists. split.
  - intros (y & Hy & Heq). apply str_eqb_eq in Heq. by subst.
  - intros Hx. exists x. split; [done|apply str_eqb_refl].
Qed.

Lemma startswith_app (s p : str) :
  startswith s p = true <-> exists r, s = p ++ r.
Proof.
  revert s. induction p as [|c p IH]; intros s; simpl.
  - split; [by exists s|done].
  - destruct s as [|d s].
    + split; [done|]. by intros (r & ?).
    + rewrite andb_true_iff, N.eqb_eq, IH. split.
      * intros [-> (r & ->)]. by exists r.
      * intros (r & [= -> ->]). split; [done|]. by exists r.
Qed.

Lemma endswith_app (s p : str) :
  endswith s p = true <-> exists b, s = b ++ p.
Proof.
  unfold endswith. rewrite startswith_app. split.
  - intros (r & Hr). exists (rev r).
    apply (f_equal (@rev N)) in Hr.
    by rewrite rev_involutive, rev_app_distr, rev_involutive in Hr.
  - intros (b & ->). exists (rev b). by rewrite rev_app_distr.
Qed.

Lemma endswith_last (s : str) (c : N) :
  endswith s [c] = true <-> last s = Some c.
Proof.
  rewrite endswith_app. split.
  - intros (b & ->). by rewrite last_snoc.
  - intros Hl. destruct s as [|x s] using rev_ind; [done|].
    rewrite last_snoc in Hl. exists s. congruence.
Qed.

Lemma slice_to_last_snoc (b : str) (c : N) : slice_to_last (b ++ [c]) = b.
Proof.
  unfold slice_to_last. rewrite length_app. simpl.
  replace (length b + 1 - 1)%nat with (length b) by lia.
  by rewrite take_app_length.
Qed.

(** ** The classifier *)

Lemma startswith_1 (d c : N) (s : str) : startswith (d :: s) [c] = (c =? d).
Proof. simpl. apply andb_true_r. Qed.

Lemma eqb_false_sym (c d : N) : c <> d -> (d =? c) = false.
Proof. intros Hne. apply N.eqb_neq. congruence. Qed.

Lemma classifies_parse (query : str) (mode : search_type) (cleaned : str) :
  classifies query mode cleaned ->
  parse_search_query query = (mode, cleaned, query).
Proof.
  unfold parse_search_query.
  destruct 1 as [rest|c body Hp Ha|rest Hl|body|query Hp Ha Hl].
  - by rewrite startswith_1, N.eqb_refl.
  - rewrite !startswith_1, !eqb_false_sym by done.
    change (c :: body ++ [at_sign]) with ((c :: body) ++ [at_sign]).
    rewrite (proj2 (endswith_app _ _)) by by eexists.
    simpl negb. cbv iota. simpl andb. cbv iota.
    by rewrite slice_to_last_snoc.
  - rewrite !startswith_1, N.eqb_refl, andb_false_r.
    change (percent =? at_sign) with false. cbv iota.
    unfold slice_from_1. cbn [skipn]. rewrite !drop_0.
    destruct (endswith rest [at_sign]) eqn:He; [|done].
    by apply endswith_last in He.
  - rewrite !startswith_1, N.eqb_refl, andb_false_r.
    change (percent =? at_sign) with false. cbv iota.
    unfold slice_from_1. cbn [skipn]. rewrite !drop_0.
    rewrite (proj2 (endswith_app (body ++ _) _)) by by eexists.
    by rewrite slice_to_last_snoc.
  - destruct (startswith query [percent]) eqn:H1.
    { apply startswith_app in H1 as (r & ->). done. }
    destruct (endswith query [at_sign]) eqn:H2.
    { by apply endswith_last in H2. }
    destruct (startswith query [at_sign]) eqn:H3; [|done].
    apply startswith_app in H3 as (r & ->). done.
Qed.

Lemma parse_anywhere_term (rest : str) :
  classifies (at_sign :: rest) AnywhereTerm
    (if endswith rest [at_sign] then slice_to_last rest else rest).
Proof.
  destruct (endswith rest [at_sign]) eqn:He.
  - apply endswith_app in He as (b & ->). rewrite slice_to_last_snoc.
    constructor.
  - constructor. intros Hl. apply endswith_last in Hl. congruence.
Qed.

Lemma parse_classifies (query : str) :
  classifies query (parse_search_query query).1.1 (parse_search_query query).1.2.
Proof.
  unfold parse_search_query. destruct query as [|c q].
  { by apply rule_exact. }
  rewrite !startswith_1.
  destruct (N.eqb_spec percent c) as [<-|Hp]; [constructor|].
  destruct (endswith (c :: q) [at_sign]) eqn:He,
           (N.eqb_spec at_sign c) as [<-|Ha]; simpl andb; cbv iota;
    unfold slice_from_1; cbn [skipn fst snd]; rewrite ?drop_0.
  - apply parse_anywhere_term.
  - apply endswith_app in He as (b & Hb). destruct b as [|n b].
    + simplify_eq/=.
    + simpl in Hb. injection Hb as -> ->.
      change (n :: b ++ [at_sign]) with ((n :: b) ++ [at_sign]) at 2.
      rewrite slice_to_last_snoc. by constructor.
  - apply parse_anywhere_term.
  - apply rule_exact; simpl; try congruence.
    intros Hl. apply endswith_last in Hl. congruence.
Qed.

(** C2: the classifier returns a mode and a cleaned term exactly when the
    rules of the specification, taken in order, give them: [%] in front
    gives FULLTEXT and the rest; [@] at the end, and not in front, gives
    PREFIX and the query without it; [@] in front gives ANYWHERE_TERM and
    the query without it, and without a closing [@]; anything else is
    EXACT, unchanged.  The result is a function of the query alone. *)
Theorem parse_search_query_rules (query : str) (mode : search_type)
    (cleaned : str) :
  classifies query mode cleaned <->
  parse_search_query query = (mode, cleaned, query).
Proof.
  split; [apply classifies_parse|].
  intros Heq. pose proof (parse_classifies query) as Hc.
  by rewrite Heq in Hc.
Qed.

(** The examples of the specification (8). *)
Example parse_search_query_examples :
  parse_search_query (py "%foo") = (Fulltext, py "foo", py "%foo") /\
  parse_search_query (py "foo@") = (Prefix, py "foo", py "foo@") /\
  parse_search_query (py "@foo") = (AnywhereTerm, py "foo", py "@foo") /\
  parse_search_query (py "@foo@") = (AnywhereTerm, py "foo", py "@foo@") /\
  parse_search_query (py "foo") = (Exact, py "foo", py "foo").
Proof. repeat split. Qed.

(** ** Variant expansion *)

Lemma mem_decide (x : str) (l : list str) : mem x l = bool_decide (x ∈ l).
Proof.
  destruct (mem x l) eqn:Hm; symmetry.
  - apply bool_decide_eq_true. apply list_elem_of_In. by apply mem_In.
  - apply bool_decide_eq_false. rewrite list_elem_of_In, <- mem_In. congruence.
Qed.

Lemma fold_append_new (l acc ks : list str) :
  (forall k, k ∈ acc <-> k ∈ ks) ->
  fold_left (fun vs v => if mem v vs then vs else vs ++ [v]) l acc =
  acc ++ first_seen_from id ks l.
Proof.
  revert acc ks. induction l as [|v l IH]; intros acc ks Hks; simpl.
  - by rewrite app_nil_r.
  - rewrite mem_decide. unfold id at 1.
    destruct (decide (v ∈ ks)) as [Hv|Hv].
    + rewrite bool_decide_eq_true_2 by by apply Hks. by apply IH.
    + rewrite bool_decide_eq_false_2 by by rewrite Hks.
      rewrite (IH _ (v :: ks)); [by rewrite <- app_assoc|].
      intros k. rewrite elem_of_app, list_elem_of_singleton, elem_of_cons, Hks.
      tauto.
Qed.

Lemma apply_character_replacement_first_seen (cfg : SearchConfig) (q : str) :
  apply_character_replacement cfg q =
  if character_replacement cfg then
    first_seen id [q; replace (py "aa") a_ring q; replace (py "oe") o_slash q;
                   replace (py "ae") ae_lig q]
  else [q].
Proof.
  unfold apply_character_replacement.
  destruct (character_replacement cfg); [|done].
  change (fold_left _ digraphs [q]) with
    (fold_left (fun vs v => if mem v vs then vs else vs ++ [v])
       [replace (py "aa") a_ring q; replace (py "oe") o_slash q;
        replace (py "ae") ae_lig q] [q]).
  rewrite (fold_append_new _ [q] [q]) by done.
  by rewrite first_seen_cons.
Qed.

Lemma apply_character_replacement_head (cfg : SearchConfig) (q : str) :
  head (apply_character_replacement cfg q) = Some q.
Proof.
  rewrite apply_character_replacement_first_seen.
  destruct (character_replacement cfg); [|done]. by rewrite first_seen_cons.
Qed.

Lemma first_variant (cfg : SearchConfig) (q : str) :
  In q (apply_character_replacement cfg q).
Proof.
  pose proof (apply_character_replacement_head cfg q) as Hhd.
  destruct (apply_character_replacement cfg q) as [|v vs]; [done|].
  injection Hhd as ->. by left.
Qed.

(** C9: the expansion starts with the term itself; when replacement is
    off it holds nothing else; when it is on, the term with [aa], with
    [oe] and with [ae] replaced, one digraph at a time, follow in this
    order, each only if it is not in the sequence yet.  Nothing else is
    produced: no variant carries two substitutions at once. *)
Theorem apply_character_replacement_spec (cfg : SearchConfig) (q : str) :
  apply_character_replacement cfg q =
    (if character_replacement cfg then
       first_seen id
         [q; replace (py "aa") a_ring q; replace (py "oe") o_slash q;
          replace (py "ae") ae_lig q]
     else [q]) /\
  head (apply_character_replacement cfg q) = Some q /\
  List.NoDup (apply_character_replacement cfg q) /\
  (forall v, In v (apply_character_replacement cfg q) ->
     v = q \/
     (character_replacement cfg = true /\
      (v = replace (py "aa") a_ring q \/ v = replace (py "oe") o_slash q \/
       v = replace (py "ae") ae_lig q))).
Proof.
  rewrite apply_character_replacement_first_seen.
  split; [done|]. destruct (character_replacement cfg).
  - split; [|split].
    + by rewrite first_seen_cons.
    + pose proof (first_seen_NoDup id
        [q; replace (py "aa") a_ring q; replace (py "oe") o_slash q;
         replace (py "ae") ae_lig q]) as Hnd.
      by rewrite List.map_id in Hnd.
    + intros v Hv. apply first_seen_sub in Hv. simpl in Hv.
      destruct Hv as [<-|[<-|[<-|[<-|[]]]]]; auto 6.
  - split; [done|]. split.
    + repeat constructor. simpl. tauto.
    + intros v [<-|[]]. by left.
Qed.

(** The examples of the specification (8), and a term with two digraphs. *)
Example apply_character_replacement_examples :
  apply_character_replacement replacement_on (py "aa") = [py "aa"; a_ring] /\
  apply_character_replacement replacement_on (py "gaa") =
    [py "gaa"; py "g" ++ a_ring] /\
  apply_character_replacement replacement_on (py "aaoe") =
    [py "aaoe"; a_ring ++ py "oe"; py "aa" ++ o_slash] /\
  apply_character_replacement replacement_off (py "gaa") = [py "gaa"].
Proof. repeat split. Qed.

(** ** Three-valued conditions and the rows of a statement *)

Lemma and3_true (a b : Sql.tri) :
  Sql.and3 a b = Some true <-> a = Some true /\ b = Some true.
Proof. destruct a as [[]|], b as [[]|]; simpl; split; (done || by intros []). Qed.

Lemma or3_true (a b : Sql.tri) :
  Sql.or3 a b = Some true <-> a = Some true \/ b = Some true.
Proof.
  destruct a as [[]|], b as [[]|]; simpl; split;
    solve [auto | by intros [|]].
Qed.

Lemma holds_true (c : Sql.tri) : Sql.holds c = true <-> c = Some true.
Proof. by destruct c as [[]|]. Qed.

Lemma expr_filter_true (include_expr : bool) (a : article) :
  expr_filter include_expr a = Some true <->
  include_expr = true \/ exists wc, word_class a = Some wc /\ wc <> EXPR.
Proof.
  unfold expr_filter. destruct include_expr.
  - split; auto.
  - unfold Sql.ne. destruct (word_class a) as [wc|].
    + split.
      * intros [= Hne]. right. exists wc. split; [done|].
        apply negb_true_iff in Hne. by apply str_eqb_neq.
      * intros [|(wc' & [= <-] & Hne)]; [done|].
        f_equal. apply negb_true_iff. by apply str_eqb_neq.
    + split; [done|]. by intros [|(? & ? & _)].
Qed.


Lemma select_articles_In (conn : database) (cond : article -> Sql.tri)
    (a : article) :
  In a (select_articles conn cond) <->
  In a (articles conn) /\ cond a = Some true.
Proof. unfold select_articles. by rewrite filter_In, holds_true. Qed.

Lemma select_distinct_joined_In (conn : database)
    (cond : article -> option str -> option str -> Sql.tri) (a : article) :
  In a (select_distinct_joined conn cond) ->
  In a (articles conn) /\ exists d e, cond a d e = Some true.
Proof.
  unfold select_distinct_joined. intros Ha. apply first_seen_sub in Ha.
  apply in_map_iff in Ha as ([[a' d] e] & <- & Hr).
  apply filter_In in Hr as [Hj Hc]. apply holds_true in Hc. simpl in *.
  split; [|by eauto].
  unfold left_join in Hj. apply in_flat_map in Hj as (a0 & Ha0 & Hj).
  apply in_flat_map in Hj as (d0 & _ & Hj).
  apply in_map_iff in Hj as (e0 & [= <- _ _] & _). done.
Qed.

(** ** Ranking of the exact search *)

Section SortingByEqualKey.
Context {A K : Type} `{EqDecision K} (lt : K -> K -> bool) (key : A -> K).
Context `{!KeyOrder lt}.

Lemma insert_by_same_key (k : K) (x : A) (l : list A) :
  List.filter (fun y => bool_decide (key y = k)) (insert_by lt key x l) =
  List.filter (fun y => bool_decide (key y = k)) (x :: l).
Proof.
  induction l as [|y l IH]; [done|].
  cbn [insert_by]. destruct (lt (key y) (key x)) eqn:Hlt; [|done].
  cbn [List.filter] in *. rewrite IH.
  case_bool_decide as Hx; [|done]. case_bool_decide as Hy; [|done].
  rewrite Hx, Hy, (lt_irrefl lt) in Hlt. done.
Qed.

(** Elements with the same key keep the order they had. *)
Lemma sort_by_same_key (k : K) (l : list A) :
  List.filter (fun y => bool_decide (key y = k)) (sort_by lt key l) =
  List.filter (fun y => bool_decide (key y = k)) l.
Proof.
  induction l as [|x l IH]; [done|].
  cbn [sort_by]. rewrite insert_by_same_key. cbn [List.filter].
  by rewrite IH.
Qed.
End SortingByEqualKey.

Lemma StronglySorted_weaken {A : Type} (R R' : A -> A -> Prop) (l : list A) :
  (forall x y, R x y -> R' x y) -> StronglySorted R l -> StronglySorted R' l.
Proof.
  intros HR. induction 1 as [|x l Hs IH Hall]; constructor; [done|].
  eapply Forall_impl; [exact Hall|]. apply HR.
Qed.



(** The example of the specification (8): three NOUN entries for one
    lemma, with homonym numbers None, 2 and 1 in the order of the table.
    None counts as 1 and stays ahead of the entry numbered 1; the entry
    numbered 2 comes last. *)
Example search_exact_homonym_example :
  List.map homonym_number
    (@search_exact (latin1_runtime []) replacement_on stein_db
       (py "stein") None) = [None; Some 1%Z; Some 2%Z].
Proof. vm_compute. reflexivity. Qed.

(** ** De-duplication of the results *)

Lemma sorted_first_seen_deduplicated {A K L : Type} `{EqDecision K}
    (lt : L -> L -> bool) (rank : A -> L) (key : A -> K) (hits : list A) :
  deduplicated key (sort_by lt rank (first_seen key hits)) hits.
Proof.
  split.
  - apply sort_by_NoDup, first_seen_NoDup.
  - intros x. rewrite sort_by_In. apply first_seen_In.
Qed.


(** ** Expressions *)

Section ExpressionFilter.
Context `{PyRuntime}.
Variable cfg : SearchConfig.
Variable conn : database.

Lemma prefix_hits_In (q : str) (ie : bool) (r : article) :
  In r (prefix_hits cfg conn q ie) ->
  In r (articles conn) /\ expr_filter ie r = Some true.
Proof.
  unfold prefix_hits. rewrite in_flat_map. intros (v & _ & Hr).
  apply filter_In in Hr as [Hr _]. unfold prefix_rows in Hr.
  apply select_articles_In in Hr as [Hin Hc].
  by apply and3_true in Hc as [_ Hc].
Qed.

Lemma anywhere_term_hits_In (q : str) (ie : bool) (r : article) :
  In r (anywhere_term_hits cfg conn q ie) ->
  In r (articles conn) /\ expr_filter ie r = Some true.
Proof.
  unfold anywhere_term_hits. rewrite in_flat_map. intros (v & _ & Hr).
  apply select_articles_In in Hr as [Hin Hc].
  by apply and3_true in Hc as [_ Hc].
Qed.

Lemma fulltext_hits_In (q : str) (ie : bool) (r : article) :
  In r (fulltext_hits cfg conn q ie) ->
  In r (articles conn) /\ expr_filter ie r = Some true.
Proof.
  unfold fulltext_hits. rewrite in_flat_map. intros (v & _ & Hr).
  apply select_distinct_joined_In in Hr as [Hin (d & e & Hc)].
  by apply and3_true in Hc as [_ Hc].
Qed.

Lemma anywhere_hits_In (q : str) (ie : bool) (r : article) :
  In r (anywhere_hits cfg conn q ie) ->
  In r (articles conn) /\ expr_filter ie r = Some true.
Proof.
  unfold anywhere_hits. rewrite in_flat_map. intros (v & _ & Hr).
  apply select_distinct_joined_In in Hr as [Hin (d & e & Hc)].
  by apply and3_true in Hc as [_ Hc].
Qed.

Lemma fuzzy_hits_In (q : str) (t : Q) (ie : bool) (x : article * Q) :
  In x (fuzzy_hits cfg conn q t ie) ->
  In x.1 (articles conn) /\ expr_filter ie x.1 = Some true /\
  exists v, In v (apply_character_replacement cfg q) /\
            fuzzy_score v t x.1 = Some x.2.
Proof.
  unfold fuzzy_hits. rewrite in_flat_map. intros (v & Hv & Hx).
  apply list_elem_of_In, list_elem_of_omap in Hx as (a & Ha & Hs).
  apply list_elem_of_In, select_articles_In in Ha as [Hin Hc].
  destruct (fuzzy_score v t a) as [s|] eqn:Hscore; simplify_eq/=.
  eauto.
Qed.

Lemma expressions_hits_In (q : str) (r : article) :
  In r (expressions_hits cfg conn q) ->
  In r (articles conn) /\ word_class r = Some EXPR.
Proof.
  unfold expressions_hits. rewrite in_flat_map. intros (v & _ & Hr).
  apply select_articles_In in Hr as [Hin Hc].
  apply and3_true in Hc as [Hc _]. split; [done|].
  unfold Sql.eq_binary in Hc. destruct (word_class r) as [wc|]; [|done].
  injection Hc as Hc. apply str_eqb_eq in Hc. by subst.
Qed.

End ExpressionFilter.


(** An expression found by the exact and the expressions-only searches,
    and left out by the prefix search. *)
Example expression_filter_example :
  let db := {| articles := [entry 7 (py "til fots") EXPR None];
               definitions := []; examples := [] |} in
  let rt := latin1_runtime [] in
  List.map article_id
    (@search_exact rt replacement_on db (py "til fots") None) = [7%Z] /\
  List.map article_id
    (search_expressions_only replacement_on db (py "fots")) = [7%Z] /\
  @search_prefix rt replacement_on db (py "til") None = [].
Proof. vm_compute. repeat split. Qed.

(** ** The fallback of [main] *)

Lemma override_exact (args : Args) (query clean : str) :
  override args query = (Exact, clean) ->
  clean = query /\ expressions_only_flag args = false /\
  fuzzy_flag args = false /\ anywhere_flag args = false /\
  (parse_search_query query).1.1 = Exact.
Proof.
  unfold override.
  destruct (parse_search_query query) as [[st c] o] eqn:Hp.
  destruct (expressions_only_flag args); [done|].
  destruct (fuzzy_flag args); [done|].
  destruct (anywhere_flag args); [done|].
  intros [= -> ->]. repeat split; try done.
  pose proof (parse_classifies query) as Hc. rewrite Hp in Hc. simpl in Hc.
  by inversion Hc.
Qed.

(** The dispatch: when the query is taken as an exact search and that
    search finds nothing, it holds the result of the prefix search of the
    same term with expressions included; when it finds something, that is
    the result.  A search of any other type is run once and its result,
    empty or not, is the result. *)
Lemma exact_fallback `{PyRuntime} (cfg : SearchConfig) (conn : database)
    (args : Args) (query : str) :
  all_examples_flag args = false ->
  (forall clean, override args query = (Exact, clean) ->
     clean = query /\
     (search_exact cfg conn query (Some true) = [] ->
      dispatch cfg conn args query =
        Results (search_prefix cfg conn query (Some true))) /\
     (search_exact cfg conn query (Some true) <> [] ->
      dispatch cfg conn args query =
        Results (search_exact cfg conn query (Some true)))) /\
  (forall clean, override args query = (Prefix, clean) ->
     dispatch cfg conn args query =
       Results (search_prefix cfg conn clean (Some false))) /\
  (forall clean, override args query = (AnywhereTerm, clean) ->
     dispatch cfg conn args query =
       Results (search_anywhere_term cfg conn clean (Some false))) /\
  (forall clean, override args query = (Fulltext, clean) ->
     dispatch cfg conn args query =
       Results (search_fulltext cfg conn clean (Some false))) /\
  (forall clean, override args query = (Anywhere, clean) ->
     dispatch cfg conn args query =
       Results (search_anywhere cfg conn clean (Some false))) /\
  (forall clean, override args query = (Fuzzy, clean) ->
     dispatch cfg conn args query =
       Results (search_fuzzy cfg conn clean (Some (threshold_arg args))
                  (Some false))) /\
  (forall clean, override args query = (ExpressionsOnly, clean) ->
     dispatch cfg conn args query =
       Results (search_expressions_only cfg conn clean)).
Proof.
  intros Hall. unfold dispatch. rewrite Hall.
  split; [|by repeat split; intros clean ->].
  intros clean Ho. apply override_exact in Ho as Hq.
  destruct Hq as (-> & _). rewrite Ho. simpl.
  split; [done|]. split.
  - by intros ->.
  - by destruct (search_exact cfg conn query (Some true)).
Qed.

(** "jazzfe" is no lemma: the exact search is empty and the prefix
    search answers. *)
Example exact_fallback_example :
  @search_exact (latin1_runtime []) replacement_on jazz_db (py "jazzfe")
    (Some true) = [] /\
  @dispatch (latin1_runtime []) replacement_on jazz_db no_flags (py "jazzfe") =
    Results [entry 2 (py "jazzfestival") NOUN None].
Proof.
  split; [vm_compute; reflexivity|].
  destruct (@exact_fallback (latin1_runtime []) replacement_on jazz_db
              no_flags (py "jazzfe") eq_refl) as [Hexact _].
  destruct (Hexact (py "jazzfe") eq_refl) as (_ & Hempty & _).
  rewrite Hempty; [|vm_compute; reflexivity].
  vm_compute. reflexivity.
Qed.

Lemma load_cli_globals :
  load_globals (cli_globals ++ []) parser_names = Some (NameError "os").
Proof. reflexivity. Qed.

(** C10: [main] never reaches the fallback.  The default of [--db] is
    [os.path.expanduser(...)], and [cli.py] imports [argparse] and [sys]
    but not [os]: whatever the command line, the call ends with
    [NameError] while the parser is built, before anything is searched or
    printed.  Were the name bound, a plain query whose exact search is
    empty would be answered by the prefix search with expressions
    included, under the heading of the exact search. *)
Theorem main_raises_name_error `{PyRuntime} (cfg : SearchConfig)
    (lcfg : LimitConfig) (colors : Colors) (ERROR : str)
    (format_result :
       article -> bool -> bool -> option Z -> str -> bool -> bool -> bool ->
       bool -> str)
    (highlight_search_term : str -> str -> str -> str)
    (float_str : Q -> str) (args : CommandLine) (conn : database) :
  main [] cfg lcfg colors ERROR format_result highlight_search_term float_str
       args conn = ([], Some (NameError "os")) /\
  forall query,
    query_arg args = Some query -> query <> [] ->
    config_flag args = false -> test_flag args = false ->
    stats_flag args = false ->
    (0 <= threshold_arg (search_args args))%Q ->
    (threshold_arg (search_args args) <= 1)%Q ->
    all_examples_flag (search_args args) = false ->
    override (search_args args) query = (Exact, query) ->
    search_exact cfg conn query (Some true) = [] ->
    dispatch cfg conn (search_args args) query =
      Results (search_prefix cfg conn query (Some true)) /\
    main ["os"%string] cfg lcfg colors ERROR format_result
         highlight_search_term float_str args conn =
      (List.map Output
         (show cfg conn colors format_result highlight_search_term float_str
               (search_args args) (adjust_limit lcfg (display_args args))
               query) ++
       [Close],
       None).
Proof.
  split.
  { unfold main. by rewrite load_cli_globals. }
  intros query Hq Hne Hconfig Htest Hstats Hlow Hhigh Hall Hexact Hempty.
  split.
  - destruct (exact_fallback cfg conn (search_args args) query Hall)
      as [Hfall _].
    destruct (Hfall query Hexact) as (_ & Hprefix & _). by apply Hprefix.
  - unfold main.
    change (load_globals (cli_globals ++ ["os"%string]) parser_names)
      with (@None exception).
    rewrite Hconfig, Htest, Hstats, Hq. cbn [negb andb truthy_opt default].
    assert (truthy query = true) as -> by by destruct query.
    apply Qle_bool_iff in Hlow, Hhigh. rewrite Hlow, Hhigh. done.
Qed.

(** "jazzfe" on the command line: the call raises; with [os] bound it
    pages the entry the prefix search finds, under the heading of the
    exact search. *)
Example main_example :
  @main (latin1_runtime []) [] replacement_on plain_limits no_colors []
        lemma_only no_highlight no_float (plain_query (py "jazzfe")) jazz_db =
    ([], Some (NameError "os")) /\
  @main (latin1_runtime []) ["os"%string] replacement_on plain_limits
        no_colors [] lemma_only no_highlight no_float
        (plain_query (py "jazzfe")) jazz_db =
    ([Output
        (Paginate
           (join [10] [glass ++ py " Exact search for 'jazzfe'";
                       py "jazzfestival"])
           false false);
      Close],
     None) /\
  @main (latin1_runtime []) ["os"%string] replacement_on plain_limits
        no_colors [] lemma_only no_highlight no_float
        {| query_arg := None; search_args := no_flags;
           display_args := plain_display; config_flag := false;
           test_flag := false; stats_flag := false |} jazz_db =
    ([Output
        (Print
           (py "Error: Either provide a search term, use --test flag, --stats flag, or --config flag"))],
     Some (SystemExit 1)).
Proof. vm_compute. split; [done|]. by split. Qed.

(** ** The pattern of the example finder *)

Ltac one_of_codes H :=
  cbn [existsb] in H;
  repeat (apply orb_prop in H as [H|H]);
  try discriminate H; apply N.eqb_eq in H; subst.

Lemma special_not_alnum (c : N) : Re.special c = true -> Re.alnum c = false.
Proof. unfold Re.special. intros Hs. one_of_codes Hs; reflexivity. Qed.

Lemma meta_special (c : N) : Re.meta c = true -> Re.special c = true.
Proof. unfold Re.meta. intros Hm. one_of_codes Hm; reflexivity. Qed.

Lemma literal_from_escape (v rest : str) :
  Re.literal_from (Re.escape v ++ rest) false =
  app v <$> Re.literal_from rest false.
Proof.
  induction v as [|c v IH]; simpl.
  - by destruct (Re.literal_from rest false).
  - destruct (Re.special c) eqn:Hs; simpl.
    + rewrite (special_not_alnum c Hs), IH.
      by destruct (Re.literal_from rest false).
    + destruct (c =? Re.backslash) eqn:Hb.
      { apply N.eqb_eq in Hb. subst. done. }
      destruct (Re.meta c) eqn:Hm.
      { apply meta_special in Hm. congruence. }
      rewrite IH. by destruct (Re.literal_from rest false).
Qed.

(** Whatever the variant, the pattern denotes the variant, lower-cased,
    between two copies of the text [\b]: it holds no word boundary. *)
Lemma word_pattern_literal `{PyRuntime} (variant : str) :
  Re.literal (word_pattern variant) =
  Some (backslash_b ++ lower variant ++ backslash_b).
Proof.
  unfold Re.literal, word_pattern.
  change (py "\\b") with (Re.backslash :: Re.backslash :: [98]).
  cbn [app Re.literal_from]. rewrite N.eqb_refl.
  change (Re.alnum Re.backslash) with false. cbn iota.
  change (98 =? Re.backslash) with false. change (Re.meta 98) with false.
  cbn iota. rewrite literal_from_escape. done.
Qed.

Lemma example_accepts_spec `{PyRuntime} (variant : str) (row : example_row) :
  example_accepts variant row = true <->
  row_quote row <> [] /\
  (contains (backslash_b ++ lower variant ++ backslash_b)
            (lower (row_quote row)) = true \/
   In (lower variant) (words (lower (row_quote row)))).
Proof.
  unfold example_accepts, Re.search. rewrite word_pattern_literal.
  fold (row_quote row). rewrite andb_true_iff, orb_true_iff, mem_In.
  assert (truthy (row_quote row) = true <-> row_quote row <> []) as ->
    by by destruct (row_quote row).
  done.
Qed.

(** C1: on the quote "Han gikk til huset." the finder accepts neither
    "hus" nor "huset", although the statement returns the quote for both;
    "gikk", which stands between blanks, is accepted.  The pattern holds
    the text [\b] where a word boundary was meant, so only the
    white-space split can accept, and it sees the token "huset." with its
    full stop. *)
Theorem huset_not_accepted :
  let rt := latin1_runtime [] in
  @search_all_examples rt replacement_on huset_db (py "hus") = [] /\
  @search_all_examples rt replacement_on huset_db (py "huset") = [] /\
  List.map row_quote (example_rows huset_db (py "huset")) =
    [py "Han gikk til huset."] /\
  List.map row_quote
    (@search_all_examples rt replacement_on huset_db (py "gikk")) =
    [py "Han gikk til huset."].
Proof. vm_compute. repeat split. Qed.

(** ** The output of the example finder *)

Lemma str_key_le (a b : str) : Str.ltb b a = false <-> str_le a b.
Proof.
  unfold str_le. split.
  - intros Hba. destruct (Str.ltb a b) eqn:Hab; [by right|].
    left. by apply str_ltb_total.
  - intros [->|Hab]; [apply str_ltb_irrefl|]. by apply lt_asym.
Qed.

(** C8: the output holds each quote text at most once, the row kept
    being the first accepted one with that text; it is in ascending order
    of the lemma; and the rows of one lemma stand in the order in which
    they were accepted. *)
Theorem search_all_examples_shape `{PyRuntime} (cfg : SearchConfig)
    (conn : database) (query : str) :
  deduplicated row_quote (search_all_examples cfg conn query)
    (example_hits cfg conn query) /\
  StronglySorted (fun x y => str_le (row_lemma x) (row_lemma y))
    (search_all_examples cfg conn query) /\
  forall l,
    List.filter (fun x => bool_decide (row_lemma x = l))
      (search_all_examples cfg conn query) =
    List.filter (fun x => bool_decide (row_lemma x = l))
      (first_seen row_quote (example_hits cfg conn query)).
Proof.
  rewrite search_all_examples_eq. split; [|split].
  - apply sorted_first_seen_deduplicated.
  - eapply StronglySorted_weaken;
      [|apply (sort_by_sorted Str.ltb (fun x => x.1.2))].
    intros x y. apply str_key_le.
  - intros l. apply (sort_by_same_key Str.ltb (fun x => x.1.2)).
Qed.

(** One quote under two entries and two quotes under one lemma: the quote
    is listed once, and the two rows of "bil" keep the order of their
    ids. *)
Example search_all_examples_example :
  let ex i a q :=
    {| ex_id := i; ex_article_id := a; ex_quote := Some q;
       ex_explanation := None |} in
  let db := {| articles := [entry 1 (py "hus") NOUN None;
                            entry 2 (py "bil") NOUN None];
               definitions := [];
               examples := [ex 1%Z 1%Z (py "et hus og en bil");
                            ex 2%Z 2%Z (py "ta bil til byen");
                            ex 3%Z 2%Z (py "et hus og en bil");
                            ex 4%Z 2%Z (py "en bil")] |} in
  List.map (fun r => (row_lemma r, row_quote r))
    (@search_all_examples (latin1_runtime []) replacement_on db (py "bil")) =
  [(py "bil", py "ta bil til byen"); (py "bil", py "et hus og en bil");
   (py "bil", py "en bil")].
Proof. vm_compute. reflexivity. Qed.

(** ** Split and LIKE *)

Lemma split_from_substring (sep s : str) (skip : nat) (cur e : str) :
  skip = 0%nat \/ cur = [] ->
  In e (split_from sep s skip cur) ->
  exists s1 s2, rev cur ++ s = s1 ++ e ++ s2.
Proof.
  revert skip cur. induction s as [|c s IH]; intros skip cur Hinv; simpl.
  - intros [<-|[]]. exists [], []. by rewrite app_nil_r.
  - destruct skip as [|k].
    + destruct (startswith (c :: s) sep).
      * intros [<-|He]; [by exists [], (c :: s)|].
        apply IH in He as (s1 & s2 & Hs); [|by right]. simpl in Hs.
        exists (rev cur ++ c :: s1), s2. rewrite Hs.
        by rewrite <- !app_assoc.
      * intros He. apply IH in He as (s1 & s2 & Hs); [|by left].
        exists s1, s2. rewrite <- Hs. simpl. by rewrite <- app_assoc.
    + destruct Hinv as [ | ->]; [done|].
      intros He. apply IH in He as (s1 & s2 & Hs); [|by right].
      simpl in *. exists (c :: s1), s2. by rewrite Hs.
Qed.

Lemma split_substring (sep s e : str) :
  In e (split sep s) -> exists s1 s2, s = s1 ++ e ++ s2.
Proof.
  intros He. apply split_from_substring in He; [done|by left].
Qed.

Lemma like_match_percent (p t1 t2 : str) :
  Sql.like_match p t2 = true -> Sql.like_match (37 :: p) (t1 ++ t2) = true.
Proof.
  intros Hp. cbn [Sql.like_match]. change (37 =? 37) with true. cbn iota.
  induction t1 as [|d t1 IH]; simpl.
  - destruct t2; by rewrite Hp.
  - rewrite IH. apply orb_true_r.
Qed.

Lemma like_match_percent_end (t : str) : Sql.like_match [37] t = true.
Proof.
  rewrite <- (app_nil_r t). by apply like_match_percent.
Qed.

(** A text matches itself, up to ASCII case, also when it holds [%] or
    [_]. *)
Lemma like_match_same (v e p t : str) :
  Sql.nocase e = Sql.nocase v -> Sql.like_match p t = true ->
  Sql.like_match (v ++ p) (e ++ t) = true.
Proof.
  revert e. induction v as [|c v IH]; intros [|d e] Heq Hp; try done.
  injection Heq as Hcd Heq.
  change ((c :: v) ++ p) with (c :: (v ++ p)).
  change ((d :: e) ++ t) with (d :: (e ++ t)).
  destruct (c =? 37) eqn:Hc.
  - apply N.eqb_eq in Hc. subst c.
    apply (like_match_percent (v ++ p) [d] (e ++ t)). by apply IH.
  - cbn [Sql.like_match]. rewrite Hc, Hcd, N.eqb_refl, orb_true_r. simpl.
    by apply IH.
Qed.

Lemma like_both_substring (v e s1 s2 : str) :
  Sql.nocase e = Sql.nocase v ->
  Sql.like_match (pct_both v) (s1 ++ e ++ s2) = true.
Proof.
  intros Heq. unfold pct_both. apply (like_match_percent _ s1).
  apply like_match_same; [done|]. apply like_match_percent_end.
Qed.

Lemma split_bar_like (col : option str) (v e : str) :
  In e (split_bar col) -> Sql.nocase e = Sql.nocase v ->
  Sql.like col (pct_both v) = Some true.
Proof.
  unfold split_bar. destruct col as [s|]; [|done].
  destruct (truthy s); [|done]. intros He Heq.
  apply split_substring in He as (s1 & s2 & ->). simpl. f_equal.
  by apply like_both_substring.
Qed.

(** ** The predicate of the exact search *)

Lemma NoDup_map_inj {A K : Type} (key : A -> K) (l : list A) (y z : A) :
  List.NoDup (List.map key l) -> In y l -> In z l -> key y = key z -> y = z.
Proof.
  induction l as [|x l IH]; [done|]. simpl.
  intros Hnd [->|Hy] [->|Hz] Hk; try done.
  - apply NoDup_cons_iff in Hnd as [Hx _]. destruct Hx. rewrite Hk.
    by apply in_map.
  - apply NoDup_cons_iff in Hnd as [Hx _]. destruct Hx. rewrite <- Hk.
    by apply in_map.
  - apply NoDup_cons_iff in Hnd as [_ Hnd]. by apply IH.
Qed.

Section ExactPredicate.
Context `{PyRuntime}.
Variable cfg : SearchConfig.
Variable conn : database.

Lemma exact_check_spec (v : str) (a : article) :
  exact_check v a = true <->
  exists e, In e (split_bar (all_lemmas a) ++ split_bar (inflections a)) /\
            same_lower e v.
Proof.
  unfold exact_check, same_lower.
  rewrite orb_true_iff, !mem_In, !in_map_iff. split.
  - intros [(e & He & Hin)|(e & He & Hin)]; exists e;
      (split; [apply in_or_app; auto|done]).
  - intros (e & Hin & He). apply in_app_or in Hin as [Hin|Hin]; eauto.
Qed.

Lemma exact_hits_In (q : str) (ie : bool) (a : article) :
  In a (exact_hits cfg conn q ie) <->
  In a (articles conn) /\ expr_filter ie a = Some true /\
  exists v, In v (apply_character_replacement cfg q) /\ exact_match v a.
Proof.
  unfold exact_match. setoid_rewrite <- exact_check_spec.
  unfold exact_hits, exact_lemma_rows, exact_like_rows, same_nocase.
  rewrite in_flat_map. split.
  - intros (v & Hv & Ha). apply in_app_or in Ha as [Ha|Ha].
    + apply select_articles_In in Ha as [Hin Hc].
      apply and3_true in Hc as [Heq Hf]. injection Heq as Heq.
      apply str_eqb_eq in Heq. eauto 8.
    + apply filter_In in Ha as [Ha Hcheck].
      apply select_articles_In in Ha as [Hin Hc].
      apply and3_true in Hc as [Hlike Hf]. apply or3_true in Hlike.
      eauto 8.
  - intros (Hin & Hf & v & Hv & [Heq|[Hlike Hcheck]]); exists v;
      (split; [done|]); apply in_or_app; [left|right].
    + apply select_articles_In. split; [done|]. apply and3_true.
      split; [|done]. simpl. f_equal. by apply str_eqb_eq.
    + apply filter_In. split; [|done]. apply select_articles_In.
      split; [done|]. apply and3_true. split; [|done]. by apply or3_true.
Qed.

Lemma exact_hits_sound (q : str) (ie : bool) (a : article) :
  (forall x y, same_nocase x y -> same_lower x y) ->
  In a (exact_hits cfg conn q ie) ->
  In a (articles conn) /\ expr_filter ie a = Some true /\
  exists v, In v (apply_character_replacement cfg q) /\
            whole_match same_lower v a.
Proof.
  intros Hlower Ha. apply exact_hits_In in Ha as (Hin & Hf & v & Hv & Hm).
  split; [done|]. split; [done|]. exists v. split; [done|].
  destruct Hm as [Heq|[_ Hcheck]].
  - left. by apply Hlower.
  - by right.
Qed.

Lemma exact_hits_complete (q : str) (ie : bool) (a : article) (v : str) :
  (forall x y, same_nocase x y -> same_lower x y) ->
  In a (articles conn) -> expr_filter ie a = Some true ->
  In v (apply_character_replacement cfg q) ->
  whole_match same_nocase v a ->
  In a (exact_hits cfg conn q ie).
Proof.
  intros Hlower Hin Hf Hv Hm. apply exact_hits_In.
  split; [done|]. split; [done|]. exists v. split; [done|].
  destruct Hm as [Heq|(e & He & Heq)]; [by left|]. right. split.
  - apply in_app_or in He as [He|He]; [left|right];
      by apply (split_bar_like _ v e).
  - exists e. split; [done|]. by apply Hlower.
Qed.
End ExactPredicate.

Lemma lower_latin1_fold (c : N) :
  lower_char_latin1 (Sql.fold_char c) = lower_char_latin1 c.
Proof.
  unfold Sql.fold_char.
  destruct ((65 <=? c) && (c <=? 90)) eqn:Hc; [|done].
  unfold lower_char_latin1. rewrite Hc.
  apply andb_true_iff in Hc as [H1%N.leb_le H2%N.leb_le].
  destruct (N.leb_spec 65 (c + 32)), (N.leb_spec (c + 32) 90),
           (N.leb_spec 192 (c + 32)); simpl; (done || lia).
Qed.

(** Lower-casing does not see the case of ASCII letters. *)
Lemma lower_latin1_nocase (x y : str) :
  Sql.nocase x = Sql.nocase y -> lower_latin1 x = lower_latin1 y.
Proof.
  revert y. induction x as [|c x IH]; intros [|d y]; try done.
  simpl. intros [= Hcd Hxy]. f_equal; [|by apply IH].
  by rewrite <- (lower_latin1_fold c), <- (lower_latin1_fold d), Hcd.
Qed.

(** C6, as the specification states it, fails, whichever way "equal up
    to case" is read.  Read as Python reads it (equal once lower-cased):
    the lemma "å" equals the variant "Å", and the entry is not returned,
    because the statements compare with SQLite's NOCASE and LIKE, which
    fold the ASCII letters only.  Read as SQLite reads it: the entry
    "Åsen" is returned for the variant "åsen", which LIKE finds inside
    "åsene" and Python's lower-casing finds equal to "Åsen", although no
    lemma or element equals it up to ASCII case. *)
Lemma search_exact_case_counterexample :
  let rt := latin1_runtime [] in
  let a := entry 1 a_ring NOUN None in
  ~ (In a (@search_exact rt replacement_on a_ring_db capital_a_ring None) <->
     In a (articles a_ring_db) /\
     exists v, In v (apply_character_replacement replacement_on
                       capital_a_ring) /\
               whole_match (@same_lower rt) v a) /\
  ~ (In asen_entry
        (@search_exact rt replacement_on asen_db small_asen None) <->
     In asen_entry (articles asen_db) /\
     exists v, In v (apply_character_replacement replacement_on
                       small_asen) /\
               whole_match same_nocase v asen_entry).
Proof.
  intros rt a. split.
  - intros [_ Hback].
    assert (In a (@search_exact rt replacement_on a_ring_db capital_a_ring
                    None)) as Hin; [|by vm_compute in Hin].
    apply Hback. split; [by left|].
    exists capital_a_ring. split; [by left|]. by left.
  - intros [Hforth _].
    destruct Hforth as (_ & v & Hv & Hm); [vm_compute; by left|].
    destruct Hv as [<-|[]].
    destruct Hm as [Heq|(e & He & Heq)]; [discriminate Heq|].
    vm_compute in He. destruct He as [<-|[<-|[]]]; discriminate Heq.
Qed.

(** C6, amended: with ids unique, an entry is returned by the exact
    search exactly when it is in the corpus, passes the expression
    filter and, for some variant, its lemma equals the variant up to
    ASCII case, or LIKE finds the variant in [all_lemmas] or
    [inflections] and a whole element of these lists equals the variant
    once both are lower-cased.  So an entry that is returned has its
    lemma or a whole element equal to a variant up to case, as Python
    lower-cases, and a proper substring never matches; and an entry whose
    lemma or whole element equals a variant up to the case of the ASCII
    letters is returned. *)
Theorem search_exact_predicate `{PyRuntime} (cfg : SearchConfig)
    (conn : database) (query : str) (include_expr : option bool)
    (a : article) :
  (forall x y, same_nocase x y -> same_lower x y) ->
  List.NoDup (List.map article_id (articles conn)) ->
  (In a (search_exact cfg conn query include_expr) <->
   In a (articles conn) /\
   expr_filter (default true include_expr) a = Some true /\
   exists v, In v (apply_character_replacement cfg query) /\
             exact_match v a) /\
  (In a (search_exact cfg conn query include_expr) ->
   exists v, In v (apply_character_replacement cfg query) /\
             whole_match same_lower v a) /\
  (In a (articles conn) ->
   expr_filter (default true include_expr) a = Some true ->
   (exists v, In v (apply_character_replacement cfg query) /\
              whole_match same_nocase v a) ->
   In a (search_exact cfg conn query include_expr)).
Proof.
  intros Hlower Hids. rewrite search_exact_eq.
  assert (forall x,
            In x (first_seen article_id
                    (exact_hits cfg conn query (default true include_expr)))
            <-> In x (exact_hits cfg conn query (default true include_expr)))
    as Hfirst.
  { intros x. apply first_seen_In_inj.
    intros y z Hy%exact_hits_In Hz%exact_hits_In.
    apply (NoDup_map_inj article_id (articles conn)); tauto. }
  split; [|split].
  - rewrite sort_by_In, Hfirst. apply exact_hits_In.
  - rewrite sort_by_In, Hfirst. intros Ha.
    by apply exact_hits_sound in Ha as (_ & _ & Hv).
  - intros Hin Hf (v & Hv & Hm). apply sort_by_In, Hfirst.
    by apply (exact_hits_complete _ _ _ _ _ v).
Qed.

(** "STEIN" finds the three entries of "stein". *)
Lemma search_exact_predicate_witness :
  In (entry 2 (py "stein") NOUN (Some 2%Z))
     (@search_exact (latin1_runtime []) replacement_on stein_db
        (py "STEIN") None).
Proof.
  apply (@search_exact_predicate (latin1_runtime []) replacement_on stein_db
           (py "STEIN") None (entry 2 (py "stein") NOUN (Some 2%Z))).
  - apply lower_latin1_nocase.
  - vm_compute. repeat constructor; simpl; intuition discriminate.
  - simpl. tauto.
  - reflexivity.
  - exists (py "STEIN"). split; [by left|]. by left.
Defined.

(** ** The fuzzy search *)

Section FuzzyPredicate.
Context `{PyRuntime}.
Variable cfg : SearchConfig.
Variable conn : database.

Lemma max_similarity_from (v : str) (t m : Q) (l : list str) :
  (t <= fold_left
          (fun m lem => if Qltb m (similarity v lem)
                        then similarity v lem else m) l m)%Q <->
  (t <= m)%Q \/ exists e, In e l /\ (t <= similarity v e)%Q.
Proof.
  revert m. induction l as [|e l IH]; intros m; simpl.
  - split; [by left|]. by intros [|(? & [] & _)].
  - rewrite IH. destruct (Qltb m (similarity v e)) eqn:Hlt.
    + apply Qltb_lt in Hlt. split.
      * intros [Ht|(e' & He' & Ht)]; right; eauto.
      * intros [Ht|(e' & [<-|He'] & Ht)]; eauto.
        left. apply Qle_trans with m; [done|]. by apply Qlt_le_weak.
    + apply Qltb_ge in Hlt. split.
      * intros [Ht|(e' & He' & Ht)]; eauto.
      * intros [Ht|(e' & [<-|He'] & Ht)]; eauto.
        left. by apply Qle_trans with (similarity v e).
Qed.

Lemma max_similarity_spec (v : str) (t : Q) (l : list str) :
  (t <= max_similarity v l)%Q <->
  (t <= 0)%Q \/ exists e, In e l /\ (t <= similarity v e)%Q.
Proof. apply max_similarity_from. Qed.

Lemma fuzzy_score_spec (v : str) (t : Q) (a : article) :
  (forall x y, 0 <= ratio x y)%Q ->
  is_Some (fuzzy_score v t a) <-> fuzzy_match v t a.
Proof.
  intros Hpos. unfold fuzzy_score, fuzzy_match.
  destruct (Qle_bool t (similarity v (lemma a))) eqn:H1.
  { apply Qle_bool_iff in H1. split; [by left|by eexists]. }
  destruct (Qle_bool t (max_similarity v _)) eqn:H2.
  - apply Qle_bool_iff, max_similarity_spec in H2. split; [|by eexists].
    intros _. destruct H2 as [H0|He]; [|by right].
    left. apply Qle_trans with 0%Q; [done|apply Hpos].
  - split; [by intros [? [=]]|]. intros [Ht|He].
    + apply Qle_bool_iff in Ht. congruence.
    + assert (Qle_bool t (max_similarity v (split_bar (all_lemmas a))) = true)
        as Ht; [|congruence].
      apply Qle_bool_iff, max_similarity_spec. by right.
Qed.

Lemma fuzzy_hits_complete (q : str) (t : Q) (ie : bool) (a : article)
    (v : str) (s : Q) :
  In a (articles conn) -> expr_filter ie a = Some true ->
  In v (apply_character_replacement cfg q) ->
  fuzzy_score v t a = Some s ->
  In (a, s) (fuzzy_hits cfg conn q t ie).
Proof.
  intros Hin Hf Hv Hs. unfold fuzzy_hits. apply in_flat_map.
  exists v. split; [done|].
  apply list_elem_of_In, list_elem_of_omap. exists a. split.
  - by apply list_elem_of_In, select_articles_In.
  - by rewrite Hs.
Qed.
End FuzzyPredicate.

Lemma fuzzy_key_le (x y : article * Q) :
  key_le lt_float_nat fuzzy_sort_key x y <-> fuzzy_le x y.
Proof.
  unfold key_le, fuzzy_le, fuzzy_sort_key, lt_float_nat.
  destruct x as [a s], y as [b r]. cbn [fst snd].
  destruct (Qeq_bool (- r) (- s)) eqn:Heq.
  - apply Qeq_bool_iff in Heq. rewrite Nat.ltb_ge.
    assert (s == r)%Q as Hsr.
    { rewrite <- (Qopp_involutive s), <- (Qopp_involutive r).
      by rewrite Heq. }
    split.
    + intros Hlen. by right.
    + intros [Hlt|[_ Hlen]]; [|done].
      rewrite Hsr in Hlt. by apply Qlt_irrefl in Hlt.
  - apply Qeq_bool_false in Heq. rewrite Qltb_ge. split.
    + intros Hle. left. apply Qopp_le_compat in Hle.
      rewrite !Qopp_involutive in Hle.
      apply Qle_lt_or_eq in Hle as [Hlt|Heq']; [done|].
      destruct Heq. by rewrite Heq'.
    + intros [Hlt|[Heq' _]].
      * apply Qopp_le_compat. by apply Qlt_le_weak.
      * destruct Heq. by rewrite Heq'.
Qed.

Lemma fuzzy_key_lt (x y : article * Q) :
  (y.2 < x.2)%Q -> lt_float_nat (fuzzy_sort_key x) (fuzzy_sort_key y) = true.
Proof.
  unfold fuzzy_sort_key, lt_float_nat. intros Hlt.
  destruct (Qeq_bool (- x.2) (- y.2)) eqn:Heq.
  - apply Qeq_bool_iff in Heq.
    assert (x.2 == y.2)%Q as Hxy.
    { rewrite <- (Qopp_involutive x.2), <- (Qopp_involutive y.2).
      by rewrite Heq. }
    rewrite Hxy in Hlt. by apply Qlt_irrefl in Hlt.
  - apply Qltb_lt. by apply Qopp_lt_compat.
Qed.

Lemma ratio_table_nonneg (table : list (str * str * Q)) (a b : str) :
  Forall (fun e => 0 <= e.2)%Q table -> (0 <= ratio_table table a b)%Q.
Proof.
  induction 1 as [|[[x y] r] table Hr Hall IH]; simpl.
  - by destruct (Str.eqb a b).
  - by destruct (_ && _).
Qed.

(** C4: with a similarity that is never negative and ids that are
    unique, an entry passing the expression filter is in the result of
    the fuzzy search exactly when, for some variant, the similarity of
    the variant and its lemma, or of the variant and an element of its
    all_lemmas, reaches the threshold.  The result lists the entries of
    the scored pairs, which stand in descending order of score and, at
    equal score, in ascending order of lemma length; every recorded
    score is the one the entry has for some variant; and of two pairs the
    one with the strictly higher score comes first, whatever the lengths
    of the lemmas. *)
Theorem search_fuzzy_spec `{PyRuntime} (cfg : SearchConfig)
    (conn : database) (query : str) (threshold : option Q)
    (include_expr : option bool) :
  (forall x y, 0 <= ratio x y)%Q ->
  List.NoDup (List.map article_id (articles conn)) ->
  let t := default float_0_6 threshold in
  let ie := default false include_expr in
  let scored := fuzzy_matches cfg conn query t ie in
  (forall a,
     In a (search_fuzzy cfg conn query threshold include_expr) <->
     In a (articles conn) /\ expr_filter ie a = Some true /\
     exists v, In v (apply_character_replacement cfg query) /\
               fuzzy_match v t a) /\
  search_fuzzy cfg conn query threshold include_expr = List.map fst scored /\
  StronglySorted fuzzy_le scored /\
  (forall x, In x scored ->
     exists v, In v (apply_character_replacement cfg query) /\
               fuzzy_score v t x.1 = Some x.2) /\
  (forall x y, In x scored -> In y scored -> (y.2 < x.2)%Q ->
     before x.1 y.1 (search_fuzzy cfg conn query threshold include_expr)).
Proof.
  intros Hpos Hids t ie scored. unfold search_fuzzy. fold t ie scored.
  assert (scored =
          sort_by lt_float_nat fuzzy_sort_key
            (first_seen (fun x => article_id x.1)
               (fuzzy_hits cfg conn query t ie))) as Hscored
    by apply fuzzy_matches_eq.
  split; [|split; [done|split; [|split]]].
  - intros a. rewrite in_map_iff. split.
    + intros ([a' s] & <- & Hx). rewrite Hscored in Hx.
      apply sort_by_In, first_seen_sub, fuzzy_hits_In
        in Hx as (Hin & Hf & v & Hv & Hs).
      split; [done|]. split; [done|]. exists v. split; [done|].
      apply fuzzy_score_spec; [done|]. by eexists.
    + intros (Hin & Hf & v & Hv & Hm).
      apply fuzzy_score_spec in Hm as [s Hs]; [|done].
      pose proof (fuzzy_hits_complete cfg conn query t ie a v s
                    Hin Hf Hv Hs) as Hhit.
      apply (in_map (fun x => article_id x.1)), first_seen_keys in Hhit.
      apply in_map_iff in Hhit as ([a' s'] & Hid & Hx).
      exists (a', s'). rewrite Hscored, sort_by_In. split; [|done].
      apply first_seen_sub, fuzzy_hits_In in Hx as (Hin' & _).
      by apply (NoDup_map_inj article_id (articles conn)).
  - rewrite Hscored. eapply StronglySorted_weaken; [|apply sort_by_sorted].
    + intros x y. apply fuzzy_key_le.
    + apply _.
  - intros x Hx. rewrite Hscored in Hx.
    by apply sort_by_In, first_seen_sub, fuzzy_hits_In in Hx as (_ & _ & Hv).
  - intros x y Hx Hy Hlt.
    destruct (sorted_lt_before lt_float_nat fuzzy_sort_key scored x y)
      as (l1 & l2 & l3 & ->); try done.
    + rewrite Hscored. apply sort_by_sorted. apply _.
    + by apply fuzzy_key_lt.
    + exists (List.map fst l1), (List.map fst l2), (List.map fst l3).
      by rewrite List.map_app, List.map_cons, List.map_app, List.map_cons.
Qed.

(** The example of the specification (8): at threshold 0.6, "husets" at
    similarity 0.9 stands before "huse" at 0.61, although its lemma is
    the longer one. *)
Lemma search_fuzzy_spec_witness :
  before (entry 2 (py "husets") NOUN None) (entry 1 (py "huse") NOUN None)
    (@search_fuzzy (latin1_runtime fuzzy_table) replacement_on fuzzy_db
       (py "huset") None None).
Proof.
  destruct (@search_fuzzy_spec (latin1_runtime fuzzy_table) replacement_on
              fuzzy_db (py "huset") None None)
    as (_ & _ & _ & _ & Hbefore).
  - intros x y. apply ratio_table_nonneg. by repeat constructor.
  - vm_compute. repeat constructor; simpl; intuition discriminate.
  - apply (Hbefore (entry 2 (py "husets") NOUN None, float_0_9)
                   (entry 1 (py "huse") NOUN None, float_0_61)).
    + vm_compute. by left.
    + vm_compute. right. by left.
    + reflexivity.
Defined.

(** * Further properties of the engine *)

Ltac split_conj := repeat match goal with |- _ /\ _ => split end.

(** ** What a search can return *)

Lemma NoDup_of_map {A B : Type} (f : A -> B) (l : list A) :
  List.NoDup (List.map f l) -> List.NoDup l.
Proof.
  induction l as [|x l IH]; simpl; [constructor|].
  intros [Hx Hl]%NoDup_cons_iff. constructor; [|by apply IH].
  intros Hin. apply Hx. by apply in_map.
Qed.

Lemma within_bound {A B : Type} (key : A -> B) (results table : list A) :
  List.NoDup (List.map key results) -> incl results table ->
  (length results <= length table)%nat.
Proof.
  intros Hnd Hincl. apply NoDup_incl_length; [|done].
  by apply (NoDup_of_map key).
Qed.

Lemma expressions_only_sub `{PyRuntime} (cfg : SearchConfig)
    (conn : database) (q : str) :
  incl (expressions_hits cfg conn q) (articles conn).
Proof. intros r Hr. by apply expressions_hits_In in Hr as [Hr _]. Qed.

(** X1: a search never returns a row that is not a row of the articles
    table, and never more rows than the table holds; this for the seven
    searches, whatever the arguments. *)
Theorem results_within_corpus `{PyRuntime} (cfg : SearchConfig)
    (conn : database) (query : str) (include_expr : option bool)
    (threshold : option Q) :
  let bounded results :=
    incl results (articles conn) /\
    (length results <= length (articles conn))%nat in
  bounded (search_exact cfg conn query include_expr) /\
  bounded (search_prefix cfg conn query include_expr) /\
  bounded (search_anywhere_term cfg conn query include_expr) /\
  bounded (search_fulltext cfg conn query include_expr) /\
  bounded (search_anywhere cfg conn query include_expr) /\
  bounded (search_expressions_only cfg conn query) /\
  bounded (search_fuzzy cfg conn query threshold include_expr).
Proof.
  intros bounded.
  assert (forall results, List.NoDup (List.map article_id results) ->
            incl results (articles conn) -> bounded results) as Hb.
  { intros results Hnd Hincl. split; [done|].
    by apply (within_bound article_id). }
  split_conj; apply Hb.
  - rewrite search_exact_eq. apply sort_by_NoDup, first_seen_NoDup.
  - rewrite search_exact_eq. intros r Hr%sort_by_In%first_seen_sub.
    by apply exact_hits_In in Hr as [Hr _].
  - rewrite search_prefix_eq. apply sort_by_NoDup, first_seen_NoDup.
  - rewrite search_prefix_eq. intros r Hr%sort_by_In%first_seen_sub.
    by apply prefix_hits_In in Hr as [Hr _].
  - rewrite search_anywhere_term_eq. apply sort_by_NoDup, first_seen_NoDup.
  - rewrite search_anywhere_term_eq. intros r Hr%sort_by_In%first_seen_sub.
    by apply anywhere_term_hits_In in Hr as [Hr _].
  - rewrite search_fulltext_eq. apply sort_by_NoDup, first_seen_NoDup.
  - rewrite search_fulltext_eq. intros r Hr%sort_by_In%first_seen_sub.
    by apply fulltext_hits_In in Hr as [Hr _].
  - rewrite search_anywhere_eq. apply sort_by_NoDup, first_seen_NoDup.
  - rewrite search_anywhere_eq. intros r Hr%sort_by_In%first_seen_sub.
    by apply anywhere_hits_In in Hr as [Hr _].
  - rewrite search_expressions_only_eq.
    apply sort_by_NoDup, first_seen_NoDup.
  - rewrite search_expressions_only_eq.
    intros r Hr%sort_by_In%first_seen_sub. by apply expressions_only_sub in Hr.
  - unfold search_fuzzy. rewrite fuzzy_matches_eq, List.map_map.
    apply (sort_by_NoDup _ _ (fun x => article_id x.1)), first_seen_NoDup.
  - unfold search_fuzzy. rewrite fuzzy_matches_eq.
    intros r Hr. apply in_map_iff in Hr as (x & <- & Hx).
    by apply sort_by_In, first_seen_sub, fuzzy_hits_In in Hx as (Hx & _).
Qed.

(** ** Ranking by lemma length *)

Lemma lemma_length_le (x y : article) :
  key_le Nat.ltb lemma_length x y <->
  (length (lemma x) <= length (lemma y))%nat.
Proof. unfold key_le, lemma_length. apply Nat.ltb_ge. Qed.

Lemma sorted_by_lemma_length (hits : list article) :
  let results := sort_by Nat.ltb lemma_length (first_seen article_id hits) in
  StronglySorted
    (fun x y => (length (lemma x) <= length (lemma y))%nat) results /\
  forall n,
    List.filter (fun x => bool_decide (length (lemma x) = n)) results =
    List.filter (fun x => bool_decide (length (lemma x) = n))
      (first_seen article_id hits).
Proof.
  split.
  - eapply StronglySorted_weaken;
      [|apply (sort_by_sorted Nat.ltb lemma_length)].
    intros x y. apply lemma_length_le.
  - intros n. apply (sort_by_same_key Nat.ltb lemma_length).
Qed.

(** X2: the results of the prefix, anywhere-term, full-text, anywhere and
    expressions-only searches stand in ascending order of the length of
    the lemma, and entries whose lemmas have the same length keep the
    order in which they were first hit. *)
Theorem results_by_lemma_length `{PyRuntime} (cfg : SearchConfig)
    (conn : database) (query : str) (include_expr : option bool) :
  let ranked results hits :=
    StronglySorted
      (fun x y => (length (lemma x) <= length (lemma y))%nat) results /\
    forall n,
      List.filter (fun x => bool_decide (length (lemma x) = n)) results =
      List.filter (fun x => bool_decide (length (lemma x) = n))
        (first_seen article_id hits) in
  ranked (search_prefix cfg conn query include_expr)
         (prefix_hits cfg conn query (default false include_expr)) /\
  ranked (search_anywhere_term cfg conn query include_expr)
         (anywhere_term_hits cfg conn query (default false include_expr)) /\
  ranked (search_fulltext cfg conn query include_expr)
         (fulltext_hits cfg conn query (default false include_expr)) /\
  ranked (search_anywhere cfg conn query include_expr)
         (anywhere_hits cfg conn query (default false include_expr)) /\
  ranked (search_expressions_only cfg conn query)
         (expressions_hits cfg conn query).
Proof.
  intros ranked.
  rewrite search_prefix_eq, search_anywhere_term_eq, search_fulltext_eq,
    search_anywhere_eq, search_expressions_only_eq.
  split_conj; apply sorted_by_lemma_length.
Qed.

(** ** The expression filter as a filter of the results *)

Lemma not_expression_spec (a : article) :
  not_expression a = true <->
  exists wc, word_class a = Some wc /\ wc <> EXPR.
Proof.
  unfold not_expression. rewrite holds_true, expr_filter_true.
  split; [by intros [|]|by right].
Qed.

Lemma holds_and3 (a b : Sql.tri) :
  Sql.holds (Sql.and3 a b) = Sql.holds a && Sql.holds b.
Proof. by destruct a as [[]|], b as [[]|]. Qed.

Lemma filter_flat_map {A B : Type} (P : B -> bool) (f : A -> list B)
    (l : list A) :
  List.filter P (List.flat_map f l) =
  List.flat_map (fun x => List.filter P (f x)) l.
Proof.
  induction l as [|x l IH]; [done|]. simpl.
  by rewrite List.filter_app, IH.
Qed.

Lemma filter_comm {A : Type} (P Q : A -> bool) (l : list A) :
  List.filter P (List.filter Q l) = List.filter Q (List.filter P l).
Proof.
  induction l as [|x l IH]; [done|]. simpl.
  destruct (P x) eqn:HP, (Q x) eqn:HQ; simpl; rewrite ?HP, ?HQ, IH; done.
Qed.

Lemma filter_map_comm {A B : Type} (P : B -> bool) (f : A -> B)
    (l : list A) :
  List.map f (List.filter (fun x => P (f x)) l) = List.filter P (List.map f l).
Proof.
  induction l as [|x l IH]; [done|]. simpl.
  destruct (P (f x)); simpl; by rewrite IH.
Qed.

Lemma flat_map_ext_all {A B : Type} (f g : A -> list B) (l : list A) :
  (forall x, f x = g x) -> List.flat_map f l = List.flat_map g l.
Proof.
  intros Hfg. induction l as [|x l IH]; [done|]. simpl. by rewrite Hfg, IH.
Qed.

Section FilterFirstSeen.
Context {A K : Type} `{EqDecision K} (key : A -> K) (P : A -> bool).

Lemma filter_first_seen_from (seen seen' : list K) (l : list A) :
  (forall y z, In y l -> In z l -> key y = key z -> P y = P z) ->
  (forall x, In x l -> P x = true -> key x ∈ seen <-> key x ∈ seen') ->
  first_seen_from key seen (List.filter P l) =
  List.filter P (first_seen_from key seen' l).
Proof.
  revert seen seen'. induction l as [|x l IH]; intros seen seen' Hresp Hs;
    [done|].
  assert (forall y z, In y l -> In z l -> key y = key z -> P y = P z)
    as Hresp' by (intros y z Hy Hz; apply Hresp; by right).
  cbn [List.filter first_seen_from]. destruct (P x) eqn:HP.
  - cbn [first_seen_from].
    destruct (decide (key x ∈ seen)) as [Hx|Hx],
             (decide (key x ∈ seen')) as [Hx'|Hx'].
    + apply IH; [done|]. intros y Hy. apply Hs. by right.
    + destruct Hx'. apply Hs; [by left|done..].
    + destruct Hx. apply Hs; [by left|done..].
    + cbn [List.filter]. rewrite HP. f_equal. apply IH; [done|].
      intros y Hy HPy. rewrite !elem_of_cons.
      rewrite (Hs y); [done|by right|done].
  - destruct (decide (key x ∈ seen')) as [Hx'|Hx'].
    + apply IH; [done|]. intros y Hy. apply Hs. by right.
    + cbn [List.filter]. rewrite HP. apply IH; [done|].
      intros y Hy HPy. rewrite elem_of_cons, (Hs y); [|by right|done].
      split; [by right|]. intros [Heq|Hin]; [|done].
      assert (P y = P x) as Hyx by (apply Hresp; [by right|by left|done]).
      congruence.
Qed.

Lemma filter_first_seen (l : list A) :
  (forall y z, In y l -> In z l -> key y = key z -> P y = P z) ->
  first_seen key (List.filter P l) = List.filter P (first_seen key l).
Proof. intros Hresp. by apply filter_first_seen_from. Qed.
End FilterFirstSeen.

Section FilterSort.
Context {A K : Type} (lt : K -> K -> bool) (key : A -> K) (P : A -> bool).
Context `{!KeyOrder lt}.

Lemma filter_insert_by (x : A) (l : list A) :
  StronglySorted (key_le lt key) l ->
  List.filter P (insert_by lt key x l) =
  if P x then insert_by lt key x (List.filter P l) else List.filter P l.
Proof.
  induction l as [|y l IH]; intros Hs.
  { simpl. by destruct (P x). }
  apply StronglySorted_inv in Hs as [Hs Hy].
  cbn [insert_by]. destruct (lt (key y) (key x)) eqn:Hlt.
  - cbn [List.filter]. rewrite IH by done.
    destruct (P x), (P y); cbn [insert_by]; by rewrite ?Hlt.
  - cbn [List.filter]. destruct (P x) eqn:HPx; [|done].
    destruct (P y) eqn:HPy.
    + cbn [insert_by]. by rewrite Hlt.
    + rewrite List.Forall_forall in Hy.
      assert (forall z, In z (List.filter P l) -> lt (key z) (key x) = false)
        as Hz.
      { intros z [Hz _]%filter_In.
        apply (lt_negtrans _ (key y)); [by apply Hy|done]. }
      destruct (List.filter P l) as [|z l']; [done|].
      cbn [insert_by]. by rewrite Hz by by left.
Qed.

(** Sorting and filtering commute. *)
Lemma filter_sort_by (l : list A) :
  List.filter P (sort_by lt key l) = sort_by lt key (List.filter P l).
Proof.
  induction l as [|x l IH]; [done|].
  cbn [sort_by List.filter].
  rewrite filter_insert_by by apply sort_by_sorted, _.
  rewrite IH. by destruct (P x).
Qed.
End FilterSort.

Section IncludeExpr.
Context `{PyRuntime}.
Variable cfg : SearchConfig.
Variable conn : database.

Lemma filter_and_expr {B : Type} (c : B -> Sql.tri) (f : B -> article)
    (l : list B) :
  List.filter
    (fun r => Sql.holds (Sql.and3 (c r) (expr_filter false (f r)))) l =
  List.filter (fun r => not_expression (f r))
    (List.filter
       (fun r => Sql.holds (Sql.and3 (c r) (expr_filter true (f r)))) l).
Proof.
  induction l as [|r l IH]; [done|]. cbn [List.filter].
  rewrite !holds_and3. change (Sql.holds (expr_filter true (f r))) with true.
  rewrite andb_true_r. fold (not_expression (f r)).
  destruct (Sql.holds (c r)); cbn [andb List.filter]; [|done].
  rewrite IH. by destruct (not_expression (f r)).
Qed.

Lemma select_articles_filtered (cond : article -> Sql.tri) :
  select_articles conn (fun a => Sql.and3 (cond a) (expr_filter false a)) =
  List.filter not_expression
    (select_articles conn (fun a => Sql.and3 (cond a) (expr_filter true a))).
Proof. apply (filter_and_expr cond (fun a => a)). Qed.

Lemma select_distinct_joined_filtered
    (cond : article -> option str -> option str -> Sql.tri) :
  select_distinct_joined conn
    (fun a d e => Sql.and3 (cond a d e) (expr_filter false a)) =
  List.filter not_expression
    (select_distinct_joined conn
       (fun a d e => Sql.and3 (cond a d e) (expr_filter true a))).
Proof.
  unfold select_distinct_joined.
  rewrite <- (filter_first_seen id not_expression)
    by (intros y z _ _ Heq; by rewrite (Heq : y = z)).
  f_equal. rewrite <- filter_map_comm. f_equal.
  apply (filter_and_expr
           (fun r => cond r.1.1 (r.1.2 ≫= def_content) (r.2 ≫= ex_quote))
           (fun r => r.1.1)).
Qed.

Lemma exact_hits_filtered (q : str) :
  exact_hits cfg conn q false =
  List.filter not_expression (exact_hits cfg conn q true).
Proof.
  unfold exact_hits. rewrite filter_flat_map. apply flat_map_ext_all.
  intros v. unfold exact_lemma_rows, exact_like_rows.
  rewrite List.filter_app, filter_comm.
  by rewrite <- !select_articles_filtered.
Qed.

Lemma prefix_hits_filtered (q : str) :
  prefix_hits cfg conn q false =
  List.filter not_expression (prefix_hits cfg conn q true).
Proof.
  unfold prefix_hits. rewrite filter_flat_map. apply flat_map_ext_all.
  intros v. unfold prefix_rows.
  by rewrite filter_comm, <- select_articles_filtered.
Qed.

Lemma anywhere_term_hits_filtered (q : str) :
  anywhere_term_hits cfg conn q false =
  List.filter not_expression (anywhere_term_hits cfg conn q true).
Proof.
  unfold anywhere_term_hits. rewrite filter_flat_map.
  apply flat_map_ext_all. intros v. unfold anywhere_term_rows.
  by rewrite <- select_articles_filtered.
Qed.

Lemma fulltext_hits_filtered (q : str) :
  fulltext_hits cfg conn q false =
  List.filter not_expression (fulltext_hits cfg conn q true).
Proof.
  unfold fulltext_hits. rewrite filter_flat_map. apply flat_map_ext_all.
  intros v. unfold fulltext_rows.
  by rewrite <- select_distinct_joined_filtered.
Qed.

Lemma anywhere_hits_filtered (q : str) :
  anywhere_hits cfg conn q false =
  List.filter not_expression (anywhere_hits cfg conn q true).
Proof.
  unfold anywhere_hits. rewrite filter_flat_map. apply flat_map_ext_all.
  intros v. unfold anywhere_rows.
  by rewrite <- select_distinct_joined_filtered.
Qed.

Lemma omap_cons {A B : Type} (f : A -> option B) (x : A) (l : list A) :
  omap f (x :: l) =
  match f x with Some y => y :: omap f l | None => omap f l end.
Proof. done. Qed.

Lemma fuzzy_hits_filtered (q : str) (t : Q) :
  fuzzy_hits cfg conn q t false =
  List.filter (fun x => not_expression x.1) (fuzzy_hits cfg conn q t true).
Proof.
  unfold fuzzy_hits. rewrite filter_flat_map. apply flat_map_ext_all.
  intros v. unfold select_articles.
  change (fun a => Sql.holds (expr_filter true a)) with (fun _ : article => true).
  fold not_expression.
  induction (articles conn) as [|a l IH]; [done|]. cbn [List.filter].
  rewrite omap_cons.
  destruct (not_expression a) eqn:Hf; rewrite ?omap_cons;
    destruct (fuzzy_score v t a) as [s|]; cbn [fmap option_fmap option_map];
    cbn [List.filter fst]; by rewrite ?Hf, IH.
Qed.

Lemma same_id_same_row (l : list article) :
  List.NoDup (List.map article_id (articles conn)) ->
  incl l (articles conn) ->
  forall y z, In y l -> In z l -> article_id y = article_id z ->
              not_expression y = not_expression z.
Proof.
  intros Hids Hincl y z Hy Hz Hid. f_equal.
  apply (NoDup_map_inj article_id (articles conn)); auto.
Qed.

Lemma sorted_first_seen_filtered {L : Type} (lt : L -> L -> bool)
    `{!KeyOrder lt} (rank : article -> L) (hits : list article) :
  List.NoDup (List.map article_id (articles conn)) ->
  incl hits (articles conn) ->
  sort_by lt rank (first_seen article_id (List.filter not_expression hits)) =
  List.filter not_expression (sort_by lt rank (first_seen article_id hits)).
Proof.
  intros Hids Hincl. rewrite filter_sort_by by done. f_equal.
  apply filter_first_seen. by apply same_id_same_row.
Qed.
End IncludeExpr.

(** X3: with ids unique, what a search returns with [include_expr=False]
    is what it returns with [include_expr=True], in the same order, less
    the entries whose word class is EXPR or NULL.  This holds of the exact,
    prefix, anywhere-term, full-text, anywhere and fuzzy searches. *)
Theorem include_expr_filters_results `{PyRuntime} (cfg : SearchConfig)
    (conn : database) (query : str) (threshold : option Q) :
  List.NoDup (List.map article_id (articles conn)) ->
  search_exact cfg conn query (Some false) =
    List.filter not_expression (search_exact cfg conn query (Some true)) /\
  search_prefix cfg conn query (Some false) =
    List.filter not_expression (search_prefix cfg conn query (Some true)) /\
  search_anywhere_term cfg conn query (Some false) =
    List.filter not_expression
      (search_anywhere_term cfg conn query (Some true)) /\
  search_fulltext cfg conn query (Some false) =
    List.filter not_expression (search_fulltext cfg conn query (Some true)) /\
  search_anywhere cfg conn query (Some false) =
    List.filter not_expression (search_anywhere cfg conn query (Some true)) /\
  search_fuzzy cfg conn query threshold (Some false) =
    List.filter not_expression
      (search_fuzzy cfg conn query threshold (Some true)).
Proof.
  intros Hids.
  rewrite !search_exact_eq, !search_prefix_eq, !search_anywhere_term_eq,
    !search_fulltext_eq, !search_anywhere_eq.
  change (default true (Some false)) with false.
  change (default true (Some true)) with true.
  change (default false (Some false)) with false.
  change (default false (Some true)) with true.
  rewrite exact_hits_filtered, prefix_hits_filtered,
    anywhere_term_hits_filtered, fulltext_hits_filtered,
    anywhere_hits_filtered.
  split_conj.
  1-5: apply (sorted_first_seen_filtered conn); try done; try apply _.
  - intros r Hr. by apply exact_hits_In in Hr as [Hr _].
  - intros r Hr. by apply prefix_hits_In in Hr as [Hr _].
  - intros r Hr. by apply anywhere_term_hits_In in Hr as [Hr _].
  - intros r Hr. by apply fulltext_hits_In in Hr as [Hr _].
  - intros r Hr. by apply anywhere_hits_In in Hr as [Hr _].
  - unfold search_fuzzy. rewrite !fuzzy_matches_eq.
    change (default false (Some false)) with false.
    change (default false (Some true)) with true.
    rewrite fuzzy_hits_filtered, <- filter_map_comm. f_equal.
    rewrite filter_sort_by by apply _. f_equal.
    apply (filter_first_seen (fun x : article * Q => article_id x.1)
             (fun x => not_expression x.1)).
    intros y z Hy%fuzzy_hits_In Hz%fuzzy_hits_In Hid. f_equal.
    apply (NoDup_map_inj article_id (articles conn)); tauto.
Qed.

(** A corpus with unique ids: an expression among two entries. *)
Lemma include_expr_filters_results_witness :
  let db := {| articles := [entry 1 (py "hus") NOUN None;
                            entry 2 (py "hus og hjem") EXPR None;
                            entry 3 (py "huse") VERB None];
               definitions := []; examples := [] |} in
  List.map article_id
    (@search_prefix (latin1_runtime []) replacement_on db (py "hus")
       (Some false)) = [1%Z; 3%Z] /\
  List.map article_id
    (@search_prefix (latin1_runtime []) replacement_on db (py "hus")
       (Some true)) = [1%Z; 3%Z; 2%Z].
Proof.
  intros db.
  destruct (@include_expr_filters_results (latin1_runtime []) replacement_on
              db (py "hus") None) as (_ & Hprefix & _).
  - vm_compute. repeat constructor; simpl; intuition discriminate.
  - rewrite Hprefix. vm_compute. by split.
Defined.

Lemma expr_filter_not_null (a : article) :
  expr_filter false a = Some true -> word_class a <> None.
Proof. rewrite expr_filter_true. intros [|(wc & -> & _)]; done. Qed.

(** X4: called without [include_expr], the prefix, anywhere-term,
    full-text, anywhere and fuzzy searches return no entry whose word
    class is NULL: the comparison [word_class != 'EXPR'] is NULL for such
    a row, and the row does not pass. *)
Theorem null_word_class_left_out `{PyRuntime} (cfg : SearchConfig)
    (conn : database) (query : str) :
  (forall r, In r (search_prefix cfg conn query None) ->
             word_class r <> None) /\
  (forall r, In r (search_anywhere_term cfg conn query None) ->
             word_class r <> None) /\
  (forall r, In r (search_fulltext cfg conn query None) ->
             word_class r <> None) /\
  (forall r, In r (search_anywhere cfg conn query None) ->
             word_class r <> None) /\
  (forall r, In r (search_fuzzy cfg conn query None None) ->
             word_class r <> None).
Proof.
  rewrite search_prefix_eq, search_anywhere_term_eq, search_fulltext_eq,
    search_anywhere_eq.
  unfold search_fuzzy. rewrite fuzzy_matches_eq.
  split_conj.
  - intros r Hr.
    apply sort_by_In, first_seen_sub, prefix_hits_In in Hr as [_ Hr].
    by apply expr_filter_not_null.
  - intros r Hr.
    apply sort_by_In, first_seen_sub, anywhere_term_hits_In in Hr as [_ Hr].
    by apply expr_filter_not_null.
  - intros r Hr.
    apply sort_by_In, first_seen_sub, fulltext_hits_In in Hr as [_ Hr].
    by apply expr_filter_not_null.
  - intros r Hr.
    apply sort_by_In, first_seen_sub, anywhere_hits_In in Hr as [_ Hr].
    by apply expr_filter_not_null.
  - intros r Hr. apply in_map_iff in Hr as (x & <- & Hx).
    apply sort_by_In, first_seen_sub, fuzzy_hits_In in Hx as (_ & Hx & _).
    by apply expr_filter_not_null.
Qed.

(** ** The classifier read backwards *)

(** X5: the cleaned term, with the mark of its mode put back, is the
    query: [%] in front for FULLTEXT, [@] behind for PREFIX, [@] in front
    and possibly behind for ANYWHERE_TERM, nothing for EXACT.  So the
    classifier removes one or two characters or none, and the mode is
    EXACT exactly when the term is the query unchanged. *)
Theorem parse_search_query_inverse (query : str) :
  let mode := (parse_search_query query).1.1 in
  let cleaned := (parse_search_query query).1.2 in
  match mode with
  | Fulltext => query = percent :: cleaned
  | Prefix => query = cleaned ++ [at_sign]
  | AnywhereTerm =>
      query = at_sign :: cleaned \/ query = at_sign :: cleaned ++ [at_sign]
  | Exact => query = cleaned
  | ExpressionsOnly | Fuzzy | Anywhere => False
  end /\
  (length query - 2 <= length cleaned <= length query)%nat /\
  (mode = Exact <-> cleaned = query).
Proof.
  intros mode cleaned. pose proof (parse_classifies query) as Hc.
  fold mode cleaned in Hc.
  destruct Hc as [rest|c body Hp Ha|rest Hl|body|q Hp Ha Hl]; simpl.
  - split; [done|]. split; [lia|]. split; [done|].
    intros Heq. apply (f_equal length) in Heq. simpl in Heq. lia.
  - split; [done|]. split; [rewrite length_app; simpl; lia|].
    split; [done|].
    intros Heq. apply (f_equal length) in Heq.
    simpl in Heq. rewrite length_app in Heq. simpl in Heq. lia.
  - split; [by left|]. split; [lia|]. split; [done|].
    intros Heq. apply (f_equal length) in Heq. simpl in Heq. lia.
  - split; [by right|]. split; [rewrite length_app; simpl; lia|].
    split; [done|].
    intros Heq. apply (f_equal length) in Heq.
    simpl in Heq. rewrite length_app in Heq. simpl in Heq. lia.
  - split; [done|]. split; [lia|]. done.
Qed.

(** ** The predicate of the prefix search *)

Section PrefixPredicate.
Context `{PyRuntime}.
Variable cfg : SearchConfig.
Variable conn : database.

Lemma prefix_check_spec (v : str) (a : article) :
  prefix_check v a = true <->
  exists term, In term (prefix_terms a) /\ starts_with_lower v term.
Proof.
  unfold prefix_check, starts_with_lower. fold (prefix_terms a).
  rewrite existsb_exists. split.
  - intros (term & [Hin Ht]%filter_In & Hs). exists term.
    split; [done|]. split; [by destruct term|]. by apply startswith_app.
  - intros (term & Hin & Hne & Hs). exists term. split.
    + apply filter_In. split; [done|]. by destruct term.
    + by apply startswith_app.
Qed.

Lemma prefix_hits_iff (q : str) (ie : bool) (a : article) :
  In a (prefix_hits cfg conn q ie) <->
  In a (articles conn) /\ expr_filter ie a = Some true /\
  exists v, In v (apply_character_replacement cfg q) /\
            prefix_like v a /\
            exists term, In term (prefix_terms a) /\ starts_with_lower v term.
Proof.
  unfold prefix_hits, prefix_rows, prefix_like.
  setoid_rewrite <- prefix_check_spec. rewrite in_flat_map. split.
  - intros (v & Hv & [Ha Hcheck]%filter_In).
    apply select_articles_In in Ha as [Hin Hc].
    apply and3_true in Hc as [Hlike Hf].
    apply or3_true in Hlike as [Hlike|Hlike];
      [apply or3_true in Hlike|]; eauto 10.
    split; [done|]. split; [done|]. exists v. tauto.
  - intros (Hin & Hf & v & Hv & Hlike & Hcheck). exists v. split; [done|].
    apply filter_In. split; [|done].
    apply select_articles_In. split; [done|]. apply and3_true.
    split; [|done]. rewrite !or3_true. tauto.
Qed.
End PrefixPredicate.

(** X6: with ids unique, an entry is returned by the prefix search
    exactly when it is in the corpus, passes the expression filter and,
    for some variant, one of the LIKE tests of the statement holds and one
    of its terms (the lemma, an element of all_lemmas or of inflections)
    is not empty and starts, lower-cased, with the lower-cased variant.
    In particular every entry returned has such a term. *)
Theorem search_prefix_predicate `{PyRuntime} (cfg : SearchConfig)
    (conn : database) (query : str) (include_expr : option bool)
    (a : article) :
  List.NoDup (List.map article_id (articles conn)) ->
  (In a (search_prefix cfg conn query include_expr) <->
   In a (articles conn) /\
   expr_filter (default false include_expr) a = Some true /\
   exists v, In v (apply_character_replacement cfg query) /\
             prefix_like v a /\
             exists term, In term (prefix_terms a) /\
                          starts_with_lower v term) /\
  (In a (search_prefix cfg conn query include_expr) ->
   exists v term, In v (apply_character_replacement cfg query) /\
                  In term (prefix_terms a) /\ starts_with_lower v term).
Proof.
  intros Hids. rewrite search_prefix_eq, sort_by_In.
  assert (In a (first_seen article_id
                  (prefix_hits cfg conn query (default false include_expr)))
          <-> In a (prefix_hits cfg conn query (default false include_expr)))
    as ->.
  { apply first_seen_In_inj.
    intros y z Hy%prefix_hits_In Hz%prefix_hits_In.
    apply (NoDup_map_inj article_id (articles conn)); tauto. }
  split; [apply prefix_hits_iff|].
  intros (_ & _ & v & Hv & _ & term & Hterm & Hs)%prefix_hits_iff.
  by exists v, term.
Qed.

(** "ste@" finds the entries of "stein". *)
Lemma search_prefix_predicate_witness :
  exists v term,
    In v (apply_character_replacement replacement_on (py "ste")) /\
    In term (prefix_terms (entry 1 (py "stein") NOUN None)) /\
    @starts_with_lower (latin1_runtime []) v term.
Proof.
  apply (@search_prefix_predicate (latin1_runtime []) replacement_on stein_db
           (py "ste") None (entry 1 (py "stein") NOUN None)).
  - vm_compute. repeat constructor; simpl; intuition discriminate.
  - vm_compute. by left.
Defined.

(** ** Exact results among prefix results *)

Lemma replace_from_nonempty (old new s : str) :
  s <> [] -> new <> [] -> replace_from old new s 0 <> [].
Proof.
  destruct s as [|c s]; [done|]. intros _ Hnew. simpl.
  destruct (startswith (c :: s) old); [|done].
  by destruct new.
Qed.

Lemma variants_nonempty (cfg : SearchConfig) (q v : str) :
  q <> [] -> In v (apply_character_replacement cfg q) -> v <> [].
Proof.
  intros Hq. rewrite apply_character_replacement_first_seen.
  destruct (character_replacement cfg).
  - intros Hv%first_seen_sub. simpl in Hv.
    destruct Hv as [<-|[<-|[<-|[<-|[]]]]]; [done|..];
      by apply replace_from_nonempty.
  - by intros [<-|[]].
Qed.

Lemma nocase_nil (x : str) : Sql.nocase x = [] -> x = [].
Proof. by destruct x. Qed.

(** X7: whatever the exact search finds, the prefix search called with
    the same [include_expr] finds too.  This for a query that is not
    empty, ids that are unique and a lower-casing that does not see the
    case of ASCII letters and gives the empty string for the empty string
    only. *)
Theorem exact_within_prefix `{PyRuntime} (cfg : SearchConfig)
    (conn : database) (query : str) (include_expr : bool) (a : article) :
  query <> [] ->
  (forall x y, same_nocase x y -> same_lower x y) ->
  (forall x, lower x = lower [] -> x = []) ->
  List.NoDup (List.map article_id (articles conn)) ->
  In a (search_exact cfg conn query (Some include_expr)) ->
  In a (search_prefix cfg conn query (Some include_expr)).
Proof.
  intros Hq Hlower Hnil Hids.
  rewrite search_exact_eq, search_prefix_eq, !sort_by_In. cbn [default].
  intros (Hin & Hf & v & Hv & Hm)%first_seen_sub%exact_hits_In.
  apply first_seen_In_inj.
  { intros y z Hy%prefix_hits_In Hz%prefix_hits_In.
    apply (NoDup_map_inj article_id (articles conn)); tauto. }
  apply prefix_hits_iff. split; [done|]. split; [done|].
  exists v. split; [done|].
  pose proof (variants_nonempty cfg query v Hq Hv) as Hvne.
  destruct Hm as [Heq|[Hlike (e & He & Heq)]].
  - split.
    + left. simpl. f_equal. rewrite <- (app_nil_r (lemma a)).
      apply like_match_same; [done|]. apply like_match_percent_end.
    + exists (lemma a). split; [by left|]. split.
      * intros Hnil'. rewrite Hnil' in Heq. symmetry in Heq.
        by apply nocase_nil in Heq.
      * exists []. rewrite app_nil_r. by apply Hlower.
  - split; [by right|].
    exists e. split; [by right|]. split.
    + intros ->. unfold same_lower in Heq. symmetry in Heq.
      by apply Hnil in Heq.
    + exists []. by rewrite app_nil_r.
Qed.

Lemma lower_latin1_nil (x : str) : lower_latin1 x = lower_latin1 [] -> x = [].
Proof. by destruct x. Qed.

(** "stein": the exact results are among the prefix results. *)
Lemma exact_within_prefix_witness :
  In (entry 2 (py "stein") NOUN (Some 2%Z))
     (@search_prefix (latin1_runtime []) replacement_on stein_db (py "stein")
        (Some true)).
Proof.
  apply (@exact_within_prefix (latin1_runtime []) replacement_on stein_db
           (py "stein") true).
  - discriminate.
  - apply lower_latin1_nocase.
  - apply lower_latin1_nil.
  - vm_compute. repeat constructor; simpl; intuition discriminate.
  - vm_compute. right. right. by left.
Defined.

(** ** The threshold of the fuzzy search *)

Section FuzzyThreshold.
Context `{PyRuntime}.
Variable cfg : SearchConfig.
Variable conn : database.

Lemma search_fuzzy_In (q : str) (t : Q) (ie : option bool) (a : article) :
  List.NoDup (List.map article_id (articles conn)) ->
  In a (search_fuzzy cfg conn q (Some t) ie) <->
  In a (articles conn) /\ expr_filter (default false ie) a = Some true /\
  exists v, In v (apply_character_replacement cfg q) /\
            is_Some (fuzzy_score v t a).
Proof.
  intros Hids. unfold search_fuzzy. rewrite fuzzy_matches_eq.
  change (default float_0_6 (Some t)) with t.
  rewrite in_map_iff. split.
  - intros ([a' s] & <- & Hx).
    apply sort_by_In, first_seen_sub, fuzzy_hits_In
      in Hx as (Hin & Hf & v & Hv & Hs).
    split; [done|]. split; [done|]. exists v. split; [done|]. by eexists.
  - intros (Hin & Hf & v & Hv & [s Hs]).
    pose proof (fuzzy_hits_complete cfg conn q t (default false ie) a v s
                  Hin Hf Hv Hs) as Hhit.
    apply (in_map (fun x : article * Q => article_id x.1)) in Hhit.
    apply first_seen_keys, in_map_iff in Hhit as (y & Hid & Hy).
    exists y. split; [|by apply sort_by_In].
    apply first_seen_sub, fuzzy_hits_In in Hy as (Hy & _).
    by apply (NoDup_map_inj article_id (articles conn)).
Qed.

Lemma fuzzy_score_low (v : str) (t : Q) (a : article) :
  (t <= 0)%Q -> is_Some (fuzzy_score v t a).
Proof.
  intros Ht. unfold fuzzy_score.
  destruct (Qle_bool t (similarity v (lemma a))); [by eexists|].
  assert (Qle_bool t (max_similarity v (split_bar (all_lemmas a))) = true)
    as ->; [|by eexists].
  apply Qle_bool_iff, max_similarity_spec. by left.
Qed.

Lemma fuzzy_score_high (v : str) (t : Q) (a : article) :
  (forall x y, ratio x y <= 1)%Q -> (1 < t)%Q -> fuzzy_score v t a = None.
Proof.
  intros Hone Ht. unfold fuzzy_score.
  assert (forall e, ~ (t <= similarity v e)%Q) as Hno.
  { intros e Hle. apply (Qlt_irrefl 1).
    apply Qlt_le_trans with t; [done|].
    apply Qle_trans with (similarity v e); [done|apply Hone]. }
  destruct (Qle_bool t (similarity v (lemma a))) eqn:H1.
  { apply Qle_bool_iff in H1. by apply Hno in H1. }
  destruct (Qle_bool t (max_similarity v _)) eqn:H2; [|done].
  apply Qle_bool_iff, max_similarity_spec in H2 as [H0|(e & _ & He)].
  - exfalso. apply (Qlt_irrefl 1). apply Qlt_le_trans with t; [done|].
    by apply Qle_trans with 0%Q.
  - by apply Hno in He.
Qed.

Lemma fuzzy_score_mono (v : str) (t1 t2 : Q) (a : article) :
  (t1 <= t2)%Q -> is_Some (fuzzy_score v t2 a) -> is_Some (fuzzy_score v t1 a).
Proof.
  intros Ht. unfold fuzzy_score.
  destruct (Qle_bool t2 (similarity v (lemma a))) eqn:H2.
  { intros _. apply Qle_bool_iff in H2.
    assert (Qle_bool t1 (similarity v (lemma a)) = true) as ->;
      [|by eexists].
    apply Qle_bool_iff. by apply Qle_trans with t2. }
  destruct (Qle_bool t2 (max_similarity v _)) eqn:H3; [|by intros [? [=]]].
  intros _. apply Qle_bool_iff in H3.
  destruct (Qle_bool t1 (similarity v (lemma a))); [by eexists|].
  assert (Qle_bool t1 (max_similarity v (split_bar (all_lemmas a))) = true)
    as ->; [|by eexists].
  apply Qle_bool_iff. by apply Qle_trans with t2.
Qed.
End FuzzyThreshold.

(** X8: the threshold of the fuzzy search at its ends.  With ids unique
    and ratios at most 1: a threshold of 0 or less lets every entry
    through that passes the expression filter, whatever the query; a
    threshold above 1 lets nothing through; and raising the threshold
    never adds an entry. *)
Theorem search_fuzzy_threshold `{PyRuntime} (cfg : SearchConfig)
    (conn : database) (query : str) (include_expr : option bool) :
  (forall x y, ratio x y <= 1)%Q ->
  List.NoDup (List.map article_id (articles conn)) ->
  (forall t a, (t <= 0)%Q ->
     In a (search_fuzzy cfg conn query (Some t) include_expr) <->
     In a (articles conn) /\
     expr_filter (default false include_expr) a = Some true) /\
  (forall t, (1 < t)%Q ->
     search_fuzzy cfg conn query (Some t) include_expr = []) /\
  (forall t1 t2, (t1 <= t2)%Q ->
     incl (search_fuzzy cfg conn query (Some t2) include_expr)
          (search_fuzzy cfg conn query (Some t1) include_expr)).
Proof.
  intros Hone Hids. split_conj.
  - intros t a Ht. rewrite search_fuzzy_In by done. split.
    + intros (Hin & Hf & _). by split.
    + intros [Hin Hf]. split; [done|]. split; [done|].
      exists query. split; [apply first_variant|by apply fuzzy_score_low].
  - intros t Ht.
    destruct (search_fuzzy cfg conn query (Some t) include_expr)
      as [|a l] eqn:Hs; [done|].
    assert (In a (search_fuzzy cfg conn query (Some t) include_expr)) as Ha
      by (rewrite Hs; by left).
    apply search_fuzzy_In in Ha as (_ & _ & v & _ & [s Hsc]); [|done].
    by rewrite fuzzy_score_high in Hsc.
  - intros t1 t2 Ht a. rewrite !search_fuzzy_In by done.
    intros (Hin & Hf & v & Hv & Hs). split; [done|]. split; [done|].
    exists v. split; [done|]. by apply (fuzzy_score_mono v t1 t2).
Qed.

Lemma ratio_table_le_1 (table : list (str * str * Q)) (a b : str) :
  Forall (fun e => e.2 <= 1)%Q table -> (ratio_table table a b <= 1)%Q.
Proof.
  induction 1 as [|[[x y] r] table Hr Hall IH]; simpl.
  - by destruct (Str.eqb a b).
  - by destruct (_ && _).
Qed.

(** "huset" with a threshold of 2, and of 0.9 against 0.6. *)
Lemma search_fuzzy_threshold_witness :
  let rt := latin1_runtime fuzzy_table in
  @search_fuzzy rt replacement_on fuzzy_db (py "huset") (Some 2%Q) None = [] /\
  incl (@search_fuzzy rt replacement_on fuzzy_db (py "huset")
          (Some float_0_9) None)
       (@search_fuzzy rt replacement_on fuzzy_db (py "huset")
          (Some float_0_6) None).
Proof.
  intros rt.
  destruct (@search_fuzzy_threshold rt replacement_on fuzzy_db (py "huset")
              None) as (_ & Hhigh & Hmono).
  - intros x y. apply ratio_table_le_1. by repeat constructor.
  - vm_compute. repeat constructor; simpl; intuition discriminate.
  - split; [by apply Hhigh|by apply Hmono].
Defined.

(** ** LIKE on a term without wildcards *)

Lemma like_match_any (p t : str) :
  Sql.like_match (37 :: p) t = true ->
  exists t1 t2, t = t1 ++ t2 /\ Sql.like_match p t2 = true.
Proof.
  cbn [Sql.like_match]. change (37 =? 37) with true. cbn iota.
  induction t as [|d t IH].
  - rewrite orb_false_r. intros Hp. by exists [], [].
  - intros [Hp|Ht]%orb_prop.
    + by exists [], (d :: t).
    + apply IH in Ht as (t1 & t2 & -> & Hp). by exists (d :: t1), t2.
Qed.

Lemma like_match_literal (v p t : str) :
  wildcard_free v = true -> Sql.like_match (v ++ p) t = true ->
  exists t1 t2, t = t1 ++ t2 /\ Sql.nocase t1 = Sql.nocase v /\
                Sql.like_match p t2 = true.
Proof.
  revert t. induction v as [|c v IH]; intros t Hv Hm.
  - by exists [], t.
  - cbn [wildcard_free forallb] in Hv.
    apply andb_prop in Hv as [[Hc1 Hc2]%andb_prop Hv].
    apply negb_true_iff in Hc1, Hc2. unfold percent in Hc1.
    unfold underscore in Hc2.
    change ((c :: v) ++ p) with (c :: (v ++ p)) in Hm.
    cbn [Sql.like_match] in Hm. rewrite Hc1, Hc2 in Hm.
    destruct t as [|d t]; [done|]. cbn [orb] in Hm.
    apply andb_prop in Hm as [Hcd%N.eqb_eq Hm].
    apply IH in Hm as (t1 & t2 & -> & Heq & Hp); [|done].
    exists (d :: t1), t2. split; [done|]. split; [|done].
    simpl. by rewrite Heq, Hcd.
Qed.

Lemma like_column_contains (v : str) (col : option str) :
  wildcard_free v = true ->
  Sql.like col (pct_both v) = Some true <-> column_contains v col.
Proof.
  intros Hv. unfold column_contains. split.
  - destruct col as [t|]; [|done]. simpl. intros [= Hm].
    apply like_match_any in Hm as (s1 & t2 & -> & Hm).
    apply like_match_literal in Hm as (e & s2 & -> & Heq & _); [|done].
    by exists s1, e, s2.
  - intros (s1 & e & s2 & -> & Heq). simpl. f_equal.
    by apply like_both_substring.
Qed.

Lemma replace_from_chars (old new s : str) (skip : nat) (c : N) :
  In c (replace_from old new s skip) -> In c s \/ In c new.
Proof.
  revert skip. induction s as [|d s IH]; intros skip; simpl; [tauto|].
  destruct skip as [|k].
  - destruct (startswith (d :: s) old).
    + intros [Hc|Hc]%in_app_or; [by right|]. apply IH in Hc. tauto.
    + intros [<-|Hc]; [tauto|]. apply IH in Hc. tauto.
  - intros Hc. apply IH in Hc. tauto.
Qed.

Lemma wildcard_free_In (v : str) :
  wildcard_free v = true <-> forall c, In c v -> c <> percent /\ c <> underscore.
Proof.
  unfold wildcard_free. rewrite forallb_forall. split; intros Hv c Hc.
  - apply Hv in Hc. apply andb_prop in Hc as [H1 H2].
    apply negb_true_iff, N.eqb_neq in H1, H2. done.
  - apply Hv in Hc as [H1 H2]. apply N.eqb_neq in H1, H2.
    by rewrite H1, H2.
Qed.

Lemma variants_wildcard_free (cfg : SearchConfig) (q v : str) :
  wildcard_free q = true -> In v (apply_character_replacement cfg q) ->
  wildcard_free v = true.
Proof.
  intros Hq. rewrite apply_character_replacement_first_seen.
  assert (forall old new, wildcard_free new = true ->
            wildcard_free (replace old new q) = true) as Hrep.
  { intros old new Hnew. apply wildcard_free_In. intros c Hc.
    apply replace_from_chars in Hc as [Hc|Hc].
    - by apply (wildcard_free_In q).
    - by apply (wildcard_free_In new). }
  destruct (character_replacement cfg).
  - intros Hv%first_seen_sub. simpl in Hv.
    destruct Hv as [<-|[<-|[<-|[<-|[]]]]]; [done|..]; by apply Hrep.
  - by intros [<-|[]].
Qed.

(** ** The predicates of the LIKE searches *)

Lemma or_null_In {A : Type} (l : list A) (x : option A) :
  In x (or_null l) <-> (l = [] /\ x = None) \/ exists y, x = Some y /\ In y l.
Proof.
  destruct l as [|z l]; simpl.
  - split; [intros [<-|[]]; by left|]. intros [[_ ->]|(y & _ & [])]. by left.
  - change (Some z = x \/ In x (List.map Some l)) with
      (In x (List.map Some (z :: l))).
    rewrite in_map_iff. split.
    + intros (y & <- & Hy). right. by exists y.
    + intros [[? _]|(y & -> & Hy)]; [done|]. by exists y.
Qed.

Lemma or_null_inhabited {A : Type} (l : list A) : exists x, In x (or_null l).
Proof. destruct l as [|z l]; [exists None|exists (Some z)]; by left. Qed.

Lemma left_join_In (conn : database) (a : article) (d : option definition)
    (e : option example) :
  In (a, d, e) (left_join conn) <->
  In a (articles conn) /\
  In d (or_null (List.filter
                   (fun d => Z.eqb (article_id a) (def_article_id d))
                   (definitions conn))) /\
  In e (or_null (List.filter
                   (fun e => Z.eqb (article_id a) (ex_article_id e))
                   (examples conn))).
Proof.
  unfold left_join. rewrite in_flat_map. split.
  - intros (a' & Ha & Hj). apply in_flat_map in Hj as (d' & Hd & Hj).
    apply in_map_iff in Hj as (e' & [= -> -> ->] & He). done.
  - intros (Ha & Hd & He). exists a. split; [done|].
    apply in_flat_map. exists d. split; [done|].
    apply in_map_iff. by exists e.
Qed.

Lemma select_distinct_joined_iff (conn : database)
    (cond : article -> option str -> option str -> Sql.tri) (a : article) :
  In a (select_distinct_joined conn cond) <->
  exists d e, In (a, d, e) (left_join conn) /\
              cond a (d ≫= def_content) (e ≫= ex_quote) = Some true.
Proof.
  unfold select_distinct_joined.
  rewrite first_seen_In_inj by (intros y z _ _ Hyz; exact Hyz).
  rewrite in_map_iff. split.
  - intros ([[a' d] e] & <- & [Hj Hc%holds_true]%filter_In). by exists d, e.
  - intros (d & e & Hj & Hc). exists (a, d, e). split; [done|].
    apply filter_In. split; [done|]. by apply holds_true.
Qed.

Section LikePredicates.
Variable cfg : SearchConfig.
Variable conn : database.

Lemma joined_definition (v : str) (a : article) :
  wildcard_free v = true ->
  (exists d e, In (a, d, e) (left_join conn) /\
               Sql.like (d ≫= def_content) (pct_both v) = Some true) <->
  In a (articles conn) /\ definition_contains conn v a.
Proof.
  intros Hv. split.
  - intros (d & e & (Ha & Hd & _)%left_join_In & Hlike).
    split; [done|]. apply like_column_contains in Hlike; [|done].
    apply or_null_In in Hd as [[_ ->]|(d' & -> & Hd)].
    { by destruct Hlike as (? & ? & ? & ? & _). }
    apply filter_In in Hd as [Hd Hid%Z.eqb_eq]. by exists d'.
  - intros (Ha & d & Hd & Hid & Hc).
    destruct (or_null_inhabited
                (List.filter
                   (fun e => Z.eqb (article_id a) (ex_article_id e))
                   (examples conn))) as [e He].
    exists (Some d), e. split; [|by apply like_column_contains].
    apply left_join_In. split; [done|]. split; [|done].
    apply or_null_In. right. exists d. split; [done|].
    apply filter_In. split; [done|]. by apply Z.eqb_eq.
Qed.

Lemma joined_example (v : str) (a : article) :
  wildcard_free v = true ->
  (exists d e, In (a, d, e) (left_join conn) /\
               Sql.like (e ≫= ex_quote) (pct_both v) = Some true) <->
  In a (articles conn) /\ example_contains conn v a.
Proof.
  intros Hv. split.
  - intros (d & e & (Ha & _ & He)%left_join_In & Hlike).
    split; [done|]. apply like_column_contains in Hlike; [|done].
    apply or_null_In in He as [[_ ->]|(e' & -> & He)].
    { by destruct Hlike as (? & ? & ? & ? & _). }
    apply filter_In in He as [He Hid%Z.eqb_eq]. by exists e'.
  - intros (Ha & e & He & Hid & Hc).
    destruct (or_null_inhabited
                (List.filter
                   (fun d => Z.eqb (article_id a) (def_article_id d))
                   (definitions conn))) as [d Hd].
    exists d, (Some e). split; [|by apply like_column_contains].
    apply left_join_In. split; [done|]. split; [done|].
    apply or_null_In. right. exists e. split; [done|].
    apply filter_In. split; [done|]. by apply Z.eqb_eq.
Qed.

Lemma joined_any (a : article) :
  In a (articles conn) -> exists d e, In (a, d, e) (left_join conn).
Proof.
  intros Ha.
  destruct (or_null_inhabited
              (List.filter
                 (fun d => Z.eqb (article_id a) (def_article_id d))
                 (definitions conn))) as [d Hd].
  destruct (or_null_inhabited
              (List.filter
                 (fun e => Z.eqb (article_id a) (ex_article_id e))
                 (examples conn))) as [e He].
  exists d, e. by apply left_join_In.
Qed.

Lemma anywhere_term_rows_iff (ie : bool) (v : str) (a : article) :
  wildcard_free v = true ->
  In a (anywhere_term_rows conn ie v) <->
  In a (articles conn) /\ expr_filter ie a = Some true /\
  (column_contains v (Some (lemma a)) \/ column_contains v (all_lemmas a) \/
   column_contains v (inflections a)).
Proof.
  intros Hv. unfold anywhere_term_rows.
  rewrite select_articles_In, and3_true, !or3_true,
    !like_column_contains by done.
  tauto.
Qed.

Lemma eq_binary_true (x : option str) (y : str) :
  Sql.eq_binary x (Some y) = Some true <-> x = Some y.
Proof.
  destruct x as [x|]; simpl; [|done]. split.
  - intros [= ->%str_eqb_eq]. done.
  - intros [= ->]. by rewrite str_eqb_refl.
Qed.

Lemma expressions_rows_iff (v : str) (a : article) :
  wildcard_free v = true ->
  In a (expressions_rows conn v) <->
  In a (articles conn) /\ word_class a = Some EXPR /\
  (column_contains v (Some (lemma a)) \/ column_contains v (all_lemmas a)).
Proof.
  intros Hv. unfold expressions_rows.
  rewrite select_articles_In, and3_true, !or3_true, eq_binary_true,
    !like_column_contains by done.
  tauto.
Qed.

Lemma fulltext_rows_iff (ie : bool) (v : str) (a : article) :
  wildcard_free v = true ->
  In a (fulltext_rows conn ie v) <->
  In a (articles conn) /\ expr_filter ie a = Some true /\
  (column_contains v (Some (lemma a)) \/ column_contains v (all_lemmas a) \/
   column_contains v (inflections a) \/ definition_contains conn v a \/
   example_contains conn v a \/ column_contains v (etymology a)).
Proof.
  intros Hv. unfold fulltext_rows. rewrite select_distinct_joined_iff.
  setoid_rewrite and3_true. setoid_rewrite or3_true.
  setoid_rewrite or3_true. setoid_rewrite or3_true.
  setoid_rewrite or3_true. setoid_rewrite or3_true.
  pose proof (joined_definition v a Hv) as Hd.
  pose proof (joined_example v a Hv) as He.
  pose proof (like_column_contains v (Some (lemma a)) Hv) as H1.
  pose proof (like_column_contains v (all_lemmas a) Hv) as H2.
  pose proof (like_column_contains v (inflections a) Hv) as H3.
  pose proof (like_column_contains v (etymology a) Hv) as H4.
  split.
  - intros (d & e & Hj & Hlike & Hf).
    pose proof Hj as (Ha & _)%left_join_In.
    split; [done|]. split; [done|].
    destruct Hlike as [[[[[Hl|Hl]|Hl]|Hl]|Hl]|Hl]; [tauto..| | |tauto].
    + right; right; right; left. apply Hd. eauto.
    + right; right; right; right; left. apply He. eauto.
  - intros (Ha & Hf & Hc).
    destruct Hc as [Hc|[Hc|[Hc|[Hc|[Hc|Hc]]]]].
    1-3,6: destruct (joined_any a Ha) as (d & e & Hj); exists d, e;
      split; [done|]; split; [|done]; tauto.
    + destruct Hd as [_ Hd]. destruct Hd as (d & e & Hj & Hlike); [done|].
      exists d, e. tauto.
    + destruct He as [_ He]. destruct He as (d & e & Hj & Hlike); [done|].
      exists d, e. tauto.
Qed.

Lemma anywhere_rows_iff (ie : bool) (v : str) (a : article) :
  wildcard_free v = true ->
  In a (anywhere_rows conn ie v) <->
  In a (articles conn) /\ expr_filter ie a = Some true /\
  (definition_contains conn v a \/ example_contains conn v a \/
   column_contains v (all_lemmas a)).
Proof.
  intros Hv. unfold anywhere_rows. rewrite select_distinct_joined_iff.
  setoid_rewrite and3_true. setoid_rewrite or3_true.
  setoid_rewrite or3_true.
  pose proof (joined_definition v a Hv) as Hd.
  pose proof (joined_example v a Hv) as He.
  pose proof (like_column_contains v (all_lemmas a) Hv) as H2.
  split.
  - intros (d & e & Hj & Hlike & Hf).
    pose proof Hj as (Ha & _)%left_join_In.
    split; [done|]. split; [done|].
    destruct Hlike as [[Hl|Hl]|Hl]; [| |tauto].
    + left. apply Hd. eauto.
    + right; left. apply He. eauto.
  - intros (Ha & Hf & Hc).
    destruct Hc as [Hc|[Hc|Hc]].
    + destruct Hd as [_ Hd]. destruct Hd as (d & e & Hj & Hlike); [done|].
      exists d, e. tauto.
    + destruct He as [_ He]. destruct He as (d & e & Hj & Hlike); [done|].
      exists d, e. tauto.
    + destruct (joined_any a Ha) as (d & e & Hj). exists d, e.
      split; [done|]. split; [|done]. tauto.
Qed.

(** Membership in the sorted, deduplicated hits of a loop over the
    variants, for rows of the articles table with unique ids. *)
Lemma sorted_hits_In (rows : str -> list article) (q : str) (a : article) :
  List.NoDup (List.map article_id (articles conn)) ->
  (forall v r, In r (rows v) -> In r (articles conn)) ->
  In a (sort_by Nat.ltb lemma_length
          (first_seen article_id
             (List.flat_map rows (apply_character_replacement cfg q)))) <->
  exists v, In v (apply_character_replacement cfg q) /\ In a (rows v).
Proof.
  intros Hids Hsub. rewrite sort_by_In, first_seen_In_inj, in_flat_map.
  - done.
  - intros y z (vy & _ & Hy%Hsub)%in_flat_map (vz & _ & Hz%Hsub)%in_flat_map.
    by apply (NoDup_map_inj article_id (articles conn)).
Qed.
End LikePredicates.

(** X9: what the two term searches find for a term without [%] and [_],
    ids being unique.  The anywhere-term search returns the entries that
    pass the expression filter and hold a variant, up to the case of
    ASCII letters, in the lemma, in all_lemmas or in inflections; the
    expressions-only search returns the entries of word class EXPR that
    hold a variant in the lemma or in all_lemmas. *)
Theorem term_searches_predicate (cfg : SearchConfig)
    (conn : database) (query : str) (include_expr : option bool)
    (a : article) :
  wildcard_free query = true ->
  List.NoDup (List.map article_id (articles conn)) ->
  (In a (search_anywhere_term cfg conn query include_expr) <->
   In a (articles conn) /\
   expr_filter (default false include_expr) a = Some true /\
   exists v, In v (apply_character_replacement cfg query) /\
             (column_contains v (Some (lemma a)) \/
              column_contains v (all_lemmas a) \/
              column_contains v (inflections a))) /\
  (In a (search_expressions_only cfg conn query) <->
   In a (articles conn) /\ word_class a = Some EXPR /\
   exists v, In v (apply_character_replacement cfg query) /\
             (column_contains v (Some (lemma a)) \/
              column_contains v (all_lemmas a))).
Proof.
  intros Hq Hids.
  rewrite search_anywhere_term_eq, search_expressions_only_eq.
  unfold anywhere_term_hits, expressions_hits.
  rewrite !(sorted_hits_In cfg conn); try done.
  - split.
    + split.
      * intros (v & Hv & Ha).
        apply anywhere_term_rows_iff in Ha as (Ha & Hf & Hc);
          [|by apply (variants_wildcard_free cfg query)].
        eauto.
      * intros (Ha & Hf & v & Hv & Hc). exists v. split; [done|].
        apply anywhere_term_rows_iff;
          [by apply (variants_wildcard_free cfg query)|done].
    + split.
      * intros (v & Hv & Ha).
        apply expressions_rows_iff in Ha as (Ha & Hf & Hc);
          [|by apply (variants_wildcard_free cfg query)].
        eauto.
      * intros (Ha & Hf & v & Hv & Hc). exists v. split; [done|].
        apply expressions_rows_iff;
          [by apply (variants_wildcard_free cfg query)|done].
  - intros v r Hr. by apply select_articles_In in Hr as [Hr _].
  - intros v r Hr. by apply select_articles_In in Hr as [Hr _].
Qed.

(** "TEI@" written as "@tei": "stein" holds "tei". *)
Lemma term_searches_predicate_witness :
  In (entry 1 (py "stein") NOUN None)
     (search_anywhere_term replacement_on stein_db (py "TEI") None).
Proof.
  destruct (term_searches_predicate replacement_on stein_db (py "TEI") None
              (entry 1 (py "stein") NOUN None)) as [[_ Hfound] _].
  - reflexivity.
  - vm_compute. repeat constructor; simpl; intuition discriminate.
  - apply Hfound. split; [vm_compute; by left|]. split; [reflexivity|].
    exists (py "TEI"). split; [vm_compute; by left|]. left.
    by exists (py "s"), (py "tei"), (py "n").
Defined.

(** X10: what the two content searches find for a term without [%] and
    [_], ids being unique.  The full-text search returns the entries that
    pass the expression filter and hold a variant, up to the case of
    ASCII letters, in the lemma, all_lemmas, inflections or etymology, in
    one of their definitions or in one of their example quotes; the
    anywhere search looks only at the definitions, the example quotes and
    all_lemmas, not at the lemma. *)
Theorem content_searches_predicate (cfg : SearchConfig)
    (conn : database) (query : str) (include_expr : option bool)
    (a : article) :
  wildcard_free query = true ->
  List.NoDup (List.map article_id (articles conn)) ->
  (In a (search_fulltext cfg conn query include_expr) <->
   In a (articles conn) /\
   expr_filter (default false include_expr) a = Some true /\
   exists v, In v (apply_character_replacement cfg query) /\
             (column_contains v (Some (lemma a)) \/
              column_contains v (all_lemmas a) \/
              column_contains v (inflections a) \/
              definition_contains conn v a \/
              example_contains conn v a \/
              column_contains v (etymology a))) /\
  (In a (search_anywhere cfg conn query include_expr) <->
   In a (articles conn) /\
   expr_filter (default false include_expr) a = Some true /\
   exists v, In v (apply_character_replacement cfg query) /\
             (definition_contains conn v a \/
              example_contains conn v a \/
              column_contains v (all_lemmas a))).
Proof.
  intros Hq Hids.
  rewrite search_fulltext_eq, search_anywhere_eq.
  unfold fulltext_hits, anywhere_hits.
  rewrite !(sorted_hits_In cfg conn); try done.
  - split.
    + split.
      * intros (v & Hv & Ha).
        apply fulltext_rows_iff in Ha as (Ha & Hf & Hc);
          [|by apply (variants_wildcard_free cfg query)].
        eauto.
      * intros (Ha & Hf & v & Hv & Hc). exists v. split; [done|].
        apply fulltext_rows_iff;
          [by apply (variants_wildcard_free cfg query)|done].
    + split.
      * intros (v & Hv & Ha).
        apply anywhere_rows_iff in Ha as (Ha & Hf & Hc);
          [|by apply (variants_wildcard_free cfg query)].
        eauto.
      * intros (Ha & Hf & v & Hv & Hc). exists v. split; [done|].
        apply anywhere_rows_iff;
          [by apply (variants_wildcard_free cfg query)|done].
  - intros v r Hr. by apply select_distinct_joined_In in Hr as [Hr _].
  - intros v r Hr. by apply select_distinct_joined_In in Hr as [Hr _].
Qed.

(** A corpus for the content searches: "hus" with a definition, "hytte"
    with an example quote that holds the term. *)
Lemma content_searches_predicate_witness :
  let db := {| articles := [entry 1 (py "hus") NOUN None;
                            entry 2 (py "hytte") NOUN None];
               definitions := [ {| def_id := 1; def_article_id := 1;
                                   def_content := Some (py "bygning") |} ];
               examples := [ {| ex_id := 1; ex_article_id := 2;
                                ex_quote := Some (py "ei hytte med bygninger");
                                ex_explanation := None |} ] |} in
  In (entry 2 (py "hytte") NOUN None)
     (search_anywhere replacement_on db (py "Bygning") None).
Proof.
  intros db.
  destruct (content_searches_predicate replacement_on db (py "Bygning") None
              (entry 2 (py "hytte") NOUN None)) as [_ [_ Hfound]].
  - reflexivity.
  - vm_compute. repeat constructor; simpl; intuition discriminate.
  - apply Hfound. split; [vm_compute; tauto|]. split; [reflexivity|].
    exists (py "Bygning"). split; [vm_compute; by left|]. right. left.
    eexists. split; [by left|]. split; [reflexivity|].
    by exists (py "ei hytte med "), (py "bygning"), (py "er").
Defined.

(** ** Where the rows of the example finder come from *)

Lemma example_rows_In (conn : database) (v : str) (row : example_row) :
  In row (example_rows conn v) <->
  exists e a,
    In e (examples conn) /\ In a (articles conn) /\
    ex_article_id e = article_id a /\
    ex_quote e = Some (row_quote row) /\ row_quote row <> [] /\
    Sql.like (ex_quote e) (pct_both v) = Some true /\
    row = (row_quote row, ex_explanation e, lemma a, word_class a).
Proof.
  unfold example_rows.
  rewrite first_seen_In_inj by (intros y z _ _ Hyz; exact Hyz).
  rewrite in_map_iff. split.
  - intros ([e a] & <- & Hr). apply sort_by_In in Hr.
    apply filter_In in Hr as [Hj Hc]. cbn [fst snd] in *.
    apply holds_true, and3_true in Hc as [Hc Hlike].
    apply and3_true in Hc as [Hsome Hne].
    apply in_flat_map in Hj as (e' & He & Hj).
    apply in_map_iff in Hj as (a' & [= -> ->] & Ha).
    apply filter_In in Ha as [Ha Hid%Z.eqb_eq].
    destruct (ex_quote e) as [quote|] eqn:Hquote; [|done].
    exists e, a. unfold row_quote. cbn [fst snd default].
    rewrite Hquote. split_conj; try done.
    injection Hne as Hne. apply negb_true_iff, str_eqb_neq in Hne. done.
  - intros (e & a & He & Ha & Hid & Hquote & Hne & Hlike & Hrow).
    exists (e, a). cbn [fst snd]. split.
    { rewrite Hquote. by symmetry. }
    apply sort_by_In, filter_In. split.
    + apply in_flat_map. exists e. split; [done|].
      apply in_map_iff. exists a. split; [done|].
      apply filter_In. split; [done|]. by apply Z.eqb_eq.
    + cbn [fst snd]. apply holds_true. rewrite !and3_true.
      split; [|done]. rewrite Hquote. split.
      * reflexivity.
      * simpl. f_equal. by apply negb_true_iff, str_eqb_neq.
Qed.

(** X11: every row the example finder returns is made of an example with
    a quote that is not empty and of the entry the example belongs to; the
    quote passes the LIKE test for some variant and, lower-cased, holds
    that variant, lower-cased, between two copies of the text [\b] or as
    a token between white space.  And the quote of every example that
    passes these tests is among the quotes returned. *)
Theorem search_all_examples_predicate `{PyRuntime} (cfg : SearchConfig)
    (conn : database) (query : str) :
  let accepted v e a quote :=
    In v (apply_character_replacement cfg query) /\
    In e (examples conn) /\ In a (articles conn) /\
    ex_article_id e = article_id a /\
    ex_quote e = Some quote /\ quote <> [] /\
    Sql.like (ex_quote e) (pct_both v) = Some true /\
    (contains (backslash_b ++ lower v ++ backslash_b) (lower quote) = true \/
     In (lower v) (words (lower quote))) in
  (forall row, In row (search_all_examples cfg conn query) ->
     exists v e a,
       accepted v e a (row_quote row) /\
       row = (row_quote row, ex_explanation e, lemma a, word_class a)) /\
  (forall v e a quote, accepted v e a quote ->
     In quote (List.map row_quote (search_all_examples cfg conn query))).
Proof.
  intros accepted. rewrite search_all_examples_eq. split.
  - intros row Hrow%sort_by_In%first_seen_sub.
    apply in_flat_map in Hrow as (v & Hv & [Hr Hacc]%filter_In).
    apply example_rows_In in Hr as (e & a & He & Ha & Hid & Hq & _ & Hl & Hr).
    apply example_accepts_spec in Hacc as [Hne Hword].
    exists v, e, a. by split_conj.
  - intros v e a quote (Hv & He & Ha & Hid & Hq & Hne & Hlike & Hword).
    set (row := (quote, ex_explanation e, lemma a, word_class a)).
    assert (In row (example_hits cfg conn query)) as Hhit.
    { apply in_flat_map. exists v. split; [done|].
      apply filter_In. split.
      - apply example_rows_In. by exists e, a.
      - by apply example_accepts_spec. }
    apply (in_map (fun r : example_row => r.1.1.1)) in Hhit.
    apply first_seen_keys, in_map_iff in Hhit as (y & Hkey & Hy).
    apply in_map_iff. exists y. split; [done|]. by apply sort_by_In.
Qed.

(** ** The empty term *)

Lemma column_contains_empty (t : str) : column_contains [] (Some t).
Proof. by exists [], [], t. Qed.

Lemma empty_variants (cfg : SearchConfig) :
  apply_character_replacement cfg [] = [[]].
Proof.
  rewrite apply_character_replacement_first_seen.
  by destruct (character_replacement cfg).
Qed.

(** X12: a query that is only a mark, [@] or [%], leaves the empty term,
    and the empty term finds everything: with ids unique, the
    anywhere-term and the full-text search return every entry that passes
    the expression filter, and the expressions-only search returns every
    entry of word class EXPR. *)
Theorem empty_term_finds_all (cfg : SearchConfig) (conn : database)
    (include_expr : option bool) (a : article) :
  List.NoDup (List.map article_id (articles conn)) ->
  (parse_search_query [at_sign]).1 = (AnywhereTerm, []) /\
  (parse_search_query [percent]).1 = (Fulltext, []) /\
  (In a (search_anywhere_term cfg conn [] include_expr) <->
   In a (articles conn) /\
   expr_filter (default false include_expr) a = Some true) /\
  (In a (search_fulltext cfg conn [] include_expr) <->
   In a (articles conn) /\
   expr_filter (default false include_expr) a = Some true) /\
  (In a (search_expressions_only cfg conn []) <->
   In a (articles conn) /\ word_class a = Some EXPR).
Proof.
  intros Hids. split; [done|]. split; [done|].
  rewrite search_anywhere_term_eq, search_fulltext_eq,
    search_expressions_only_eq.
  unfold anywhere_term_hits, fulltext_hits, expressions_hits.
  rewrite !(sorted_hits_In cfg conn); try done.
  - rewrite empty_variants.
    pose proof (column_contains_empty (lemma a)) as Hc.
    split_conj; split.
    + intros (v & [<-|[]] & Ha).
      by apply anywhere_term_rows_iff in Ha as (Ha & Hf & _).
    + intros [Ha Hf]. exists []. split; [by left|].
      apply anywhere_term_rows_iff; [done|]. tauto.
    + intros (v & [<-|[]] & Ha).
      by apply fulltext_rows_iff in Ha as (Ha & Hf & _).
    + intros [Ha Hf]. exists []. split; [by left|].
      apply fulltext_rows_iff; [done|]. tauto.
    + intros (v & [<-|[]] & Ha).
      by apply expressions_rows_iff in Ha as (Ha & Hf & _).
    + intros [Ha Hf]. exists []. split; [by left|].
      apply expressions_rows_iff; [done|]. tauto.
  - intros v r Hr. by apply select_articles_In in Hr as [Hr _].
  - intros v r Hr. by apply select_distinct_joined_In in Hr as [Hr _].
  - intros v r Hr. by apply select_articles_In in Hr as [Hr _].
Qed.

(** The three entries of "stein" all come back for the empty term. *)
Lemma empty_term_finds_all_witness :
  In (entry 3 (py "stein") NOUN (Some 1%Z))
     (search_anywhere_term replacement_on stein_db [] None).
Proof.
  destruct (empty_term_finds_all replacement_on stein_db None
              (entry 3 (py "stein") NOUN (Some 1%Z)))
    as (_ & _ & [_ Hall] & _).
  - vm_compute. repeat constructor; simpl; intuition discriminate.
  - apply Hall. split; [vm_compute; tauto|reflexivity].
Defined.

(** ** Expressions in what [main] finds *)

(** X13: expressions stay apart in the results the dispatch of [main]
    holds.  Under
    [--expressions-only] every result has word class EXPR; in the fuzzy,
    anywhere, prefix, anywhere-term and full-text modes no result has
    word class EXPR or no word class at all; only a plain query (exact
    mode, with its prefix fallback) can mix the two. *)
Theorem main_expression_entries `{PyRuntime} (cfg : SearchConfig)
    (conn : database) (args : Args) (query : str) (results : list article) :
  dispatch cfg conn args query = Results results ->
  match (override args query).1 with
  | ExpressionsOnly => forall r, In r results -> word_class r = Some EXPR
  | Exact => True
  | Fuzzy | Anywhere | Prefix | AnywhereTerm | Fulltext =>
      forall r, In r results ->
        exists wc, word_class r = Some wc /\ wc <> EXPR
  end.
Proof.
  unfold dispatch. destruct (all_examples_flag args); [done|].
  destruct (override args query) as [mode clean]. intros [= <-].
  assert (forall r, expr_filter false r = Some true ->
            exists wc, word_class r = Some wc /\ wc <> EXPR) as Hf.
  { intros r [|Hr]%expr_filter_true; done. }
  destruct mode; cbn [fst perform_search]; try done.
  - rewrite search_fulltext_eq. intros r Hr.
    apply sort_by_In, first_seen_sub, fulltext_hits_In in Hr as [_ Hr].
    by apply Hf.
  - rewrite search_prefix_eq. intros r Hr.
    apply sort_by_In, first_seen_sub, prefix_hits_In in Hr as [_ Hr].
    by apply Hf.
  - rewrite search_anywhere_term_eq. intros r Hr.
    apply sort_by_In, first_seen_sub, anywhere_term_hits_In in Hr as [_ Hr].
    by apply Hf.
  - rewrite search_expressions_only_eq. intros r Hr.
    by apply sort_by_In, first_seen_sub, expressions_hits_In in Hr as [_ Hr].
  - unfold search_fuzzy. rewrite fuzzy_matches_eq. intros r Hr.
    apply in_map_iff in Hr as (x & <- & Hx).
    apply sort_by_In, first_seen_sub, fuzzy_hits_In in Hx as (_ & Hx & _).
    by apply Hf.
  - rewrite search_anywhere_eq. intros r Hr.
    apply sort_by_In, first_seen_sub, anywhere_hits_In in Hr as [_ Hr].
    by apply Hf.
Qed.

(** "stein@" on the command line: a prefix search, and what it finds is
    a noun. *)
Lemma main_expression_entries_witness :
  exists wc,
    word_class (entry 1 (py "stein") NOUN None) = Some wc /\ wc <> EXPR.
Proof.
  apply (@main_expression_entries (latin1_runtime []) replacement_on stein_db
           no_flags (py "stein@") _ eq_refl (entry 1 (py "stein") NOUN None)).
  vm_compute. by left.
Defined.

(** ** The definitions and examples of an entry *)

Lemma lt_null_int_spec (x y : option Z) :
  lt_null_int x y = true <->
  match x, y with
  | None, Some _ => True
  | Some a, Some b => (a < b)%Z
  | _, None => False
  end.
Proof.
  destruct x as [a|], y as [b|]; simpl; try done.
  apply Z.ltb_lt.
Qed.

#[global] Instance null_int_key_order : KeyOrder lt_null_int.
Proof.
  split.
  - intros [a|] [b|]; simpl; try done. intros. bool_to_prop; (done || lia).
  - intros [a|] [b|] [c|]; simpl; try done. intros. bool_to_prop; (done || lia).
Qed.

Ltac some_neq :=
  repeat match goal with
  | H : Some ?a <> Some ?b |- _ =>
      assert (a <> b) by congruence; clear H
  end.

#[global] Instance level_order_key_order : KeyOrder lt_level_order.
Proof.
  split.
  - intros [l1 o1] [l2 o2]. unfold lt_level_order.
    repeat case_bool_decide; subst; try done; apply lt_asym.
  - intros [[a|] o1] [[b|] o2] [[c|] o3]; unfold lt_level_order;
      repeat case_bool_decide; simplify_eq; simpl; try done;
      try apply lt_negtrans; some_neq; intros; bool_to_prop; (done || lia).
Qed.

Lemma group_example_lookup (m : gmap (option Z) (list example_pair))
    (k def_id : option Z) (quote explanation : option str) :
  group_example m (def_id, quote, explanation) !! k =
  if decide (def_id = k)
  then Some (default [] (m !! k) ++ [(quote, explanation)])
  else m !! k.
Proof.
  unfold group_example, example_pair in *.
  destruct (decide (def_id = k)) as [->|Hne].
  - destruct (m !! k) as [l|] eqn:Hl.
    + rewrite decide_True by by eexists.
      by rewrite lookup_alter_eq, Hl.
    + rewrite decide_False by by intros [? [=]].
      by rewrite lookup_alter_eq, lookup_insert_eq.
  - rewrite lookup_alter_ne by done.
    destruct (decide (is_Some (m !! def_id))); [done|].
    by rewrite lookup_insert_ne.
Qed.

Lemma fold_group_example (rows : list (option Z * option str * option str))
    (m : gmap (option Z) (list example_pair)) (k : option Z) :
  fold_left group_example rows m !! k =
  match List.filter (fun r => bool_decide (r.1.1 = k)) rows with
  | [] => m !! k
  | l => Some (default [] (m !! k) ++ List.map (fun r => (r.1.2, r.2)) l)
  end.
Proof.
  revert m. induction rows as [|[[def_id quote] explanation] rows IH];
    intros m; [done|].
  cbn [fold_left List.filter fst snd]. rewrite IH, group_example_lookup.
  case_bool_decide as Hk; destruct (decide (def_id = k)); try done.
  destruct (List.filter _ rows) as [|r l]; [done|].
  change (default [] (Some ?x)) with x.
  cbn [List.map fst snd]. by rewrite <- app_assoc.
Qed.

Lemma StronglySorted_map {A B : Type} (R : B -> B -> Prop) (f : A -> B)
    (l : list A) :
  StronglySorted (fun x y => R (f x) (f y)) l ->
  StronglySorted R (List.map f l).
Proof.
  induction 1 as [|x l Hs IH Hall]; simpl; constructor; [done|].
  apply List.Forall_forall. intros y (z & <- & Hz)%in_map_iff.
  rewrite List.Forall_forall in Hall. by apply Hall.
Qed.

Lemma filter_filter_andb {A : Type} (P Q : A -> bool) (l : list A) :
  List.filter P (List.filter Q l) = List.filter (fun x => Q x && P x) l.
Proof.
  induction l as [|x l IH]; [done|]. simpl.
  destruct (Q x); simpl; [destruct (P x)|]; by rewrite IH.
Qed.

Lemma level_order_key_le (k1 k2 : option Z * option Z) :
  lt_level_order k2 k1 = false <->
  lt_null_int k1.1 k2.1 = true \/
  (k1.1 = k2.1 /\ lt_null_int k2.2 k1.2 = false).
Proof.
  destruct k1 as [l1 o1], k2 as [l2 o2]. unfold lt_level_order. simpl.
  case_bool_decide as Heq.
  - subst. split; [by right|]. intros [Hlt|[_ Ho]]; [|done].
    destruct l1 as [a|]; simpl in Hlt; [|done].
    apply Z.ltb_lt in Hlt. lia.
  - split.
    + intros Hlt. left.
      destruct l1 as [a|], l2 as [b|]; simpl in *; try done.
      some_neq. bool_to_prop; (done || lia).
    + intros [Hlt|[-> _]]; [|done]. by apply lt_asym.
Qed.

(** X14: [get_definitions_and_examples] returns the definitions of the
    article, each row of the table once, in ascending order of level and
    then of order number, NULL first; and a mapping that has, under each
    definition id (NULL included) that an example of the article carries,
    the [(quote, explanation)] pairs of its examples in table order, and
    no key without an example. *)
Theorem get_definitions_and_examples_spec (conn : dictionary)
    (article_id : Z) :
  let definitions := (get_definitions_and_examples conn article_id).1 in
  let examples_by_def := (get_definitions_and_examples conn article_id).2 in
  Permutation definitions
    (List.map (fun d => (d_id d, d_definition_id d, d_parent_id d,
                         d_level d, d_content d, d_order_num d))
       (List.filter (fun d => Z.eqb (d_article_id d) article_id)
                    (dict_definitions conn))) /\
  StronglySorted level_order_le definitions /\
  forall def_id,
    examples_by_def !! def_id =
    match examples_of conn article_id def_id with
    | [] => None
    | l => Some l
    end.
Proof.
  cbn zeta. unfold get_definitions_and_examples. cbn [fst snd]. split_conj.
  - unfold select_definitions. apply Permutation_map, sort_by_perm.
  - unfold select_definitions. apply StronglySorted_map.
    eapply StronglySorted_weaken; [|apply sort_by_sorted; apply _].
    intros x y Hle. unfold key_le in Hle.
    apply level_order_key_le in Hle. exact Hle.
  - intros def_id. rewrite fold_group_example, lookup_empty.
    unfold select_examples, examples_of.
    rewrite <- (filter_map_comm (fun r => bool_decide (r.1.1 = def_id))
                  (fun e => (e_definition_id e, e_quote e, e_explanation e))).
    rewrite filter_filter_andb. cbn [fst snd].
    destruct (List.filter _ (dict_examples conn)) as [|e l]; [done|].
    cbn [List.map]. change (default [] None ++ ?x) with x.
    cbn [List.map fst snd]. by rewrite List.map_map.
Qed.

(** ** The expressions linked to a term *)

Lemma find_definition_none (defs : list def_data) (i : option Z)
    (q x : option str) :
  (forall dd, In dd defs -> dd_id dd <> i) ->
  find_definition defs i q x = (defs, false).
Proof.
  induction defs as [|dd defs IH]; [done|]. intros Hno. simpl.
  rewrite bool_decide_eq_false_2 by (apply Hno; by left).
  rewrite IH; [done|]. intros d Hd. apply Hno. by right.
Qed.

Lemma find_definition_some (defs : list def_data) (i : option Z)
    (q x : option str) :
  (exists dd, In dd defs /\ dd_id dd = i) ->
  exists l1 dd dd' l2,
    defs = l1 ++ dd :: l2 /\ (forall d, In d l1 -> dd_id d <> i) /\
    dd_id dd = i /\ dd_id dd' = i /\ dd_content dd' = dd_content dd /\
    dd_examples dd' =
      dd_examples dd ++ (if truthy_opt q then [(q, x)] else []) /\
    find_definition defs i q x = (l1 ++ dd' :: l2, true).
Proof.
  induction defs as [|d defs IH]; [by intros (? & [] & _)|].
  intros Hex. simpl. case_bool_decide as Hid.
  - exists [], d,
      (if truthy_opt q
       then {| dd_id := dd_id d; dd_content := dd_content d;
               dd_examples := dd_examples d ++ [(q, x)] |}
       else d), defs.
    split_conj; try done; destruct (truthy_opt q); try done.
    simpl. by rewrite app_nil_r.
  - destruct IH as (l1 & dd & dd' & l2 & -> & Hl1 & Hdd & Hdd' & Hc & He & ->).
    { destruct Hex as (dd & [<-|Hin] & Hdd); [done|]. by exists dd. }
    exists (d :: l1), dd, dd', l2. split_conj; try done.
    intros d' [<-|Hd']; [done|]. by apply Hl1.
Qed.

(** One round of the loop: the other lemmas are left alone; under the
    lemma of the row, either the definition with the id of the row takes
    the example, or there is none and a new one is added at the end when
    the content is true. *)
Lemma group_expression_step (m : gmap str (list def_data)) (aid : Z)
    (lem : str) (i : option Z) (c q x : option str) :
  let m' := group_expression m (aid, lem, i, c, q, x) in
  let defs := default [] (m !! lem) in
  (forall l, l <> lem -> m' !! l = m !! l) /\
  ((exists l1 dd dd' l2,
      defs = l1 ++ dd :: l2 /\ (forall d, In d l1 -> dd_id d <> i) /\
      dd_id dd = i /\ dd_id dd' = i /\ dd_content dd' = dd_content dd /\
      dd_examples dd' =
        dd_examples dd ++ (if truthy_opt q then [(q, x)] else []) /\
      m' !! lem = Some (l1 ++ dd' :: l2)) \/
   ((forall dd, In dd defs -> dd_id dd <> i) /\
    m' !! lem =
      Some (defs ++
            if truthy_opt c
            then [{| dd_id := i; dd_content := c;
                     dd_examples :=
                       if truthy_opt q then [(q, x)] else [] |}]
            else []))).
Proof.
  intros m' defs. subst m'. unfold group_expression.
  set (m1 := if decide (is_Some (m !! lem)) then m else <[lem := []]> m).
  assert (default [] (m1 !! lem) = defs) as ->.
  { subst m1 defs. destruct (decide (is_Some (m !! lem))) as [|Hn]; [done|].
    rewrite lookup_insert_eq.
    destruct (m !! lem) eqn:E; [|done]. destruct Hn. by eexists. }
  assert (forall l, l <> lem -> m1 !! l = m !! l) as Hother.
  { intros l Hl. subst m1. destruct (decide (is_Some (m !! lem))); [done|].
    by rewrite lookup_insert_ne. }
  destruct (find_definition defs i q x) as [defs' found] eqn:Hfind.
  split.
  { intros l Hl. rewrite lookup_insert_ne by done. by apply Hother. }
  rewrite lookup_insert_eq.
  destruct (existsb (fun dd => bool_decide (dd_id dd = i)) defs) eqn:Hex.
  - left. apply existsb_exists in Hex as (d & Hin & Hid%bool_decide_eq_true).
    destruct (find_definition_some defs i q x)
      as (l1 & dd & dd' & l2 & Hdefs & Hl1 & Hdd & Hdd' & Hc & He & Hf);
      [by exists d|].
    rewrite Hf in Hfind. injection Hfind as <- <-.
    exists l1, dd, dd', l2. by split_conj.
  - right.
    assert (forall dd, In dd defs -> dd_id dd <> i) as Hall.
    { intros dd Hdd Hid.
      assert (existsb (fun dd => bool_decide (dd_id dd = i)) defs = true)
        as Htrue; [|congruence].
      apply existsb_exists. exists dd. split; [done|].
      by apply bool_decide_eq_true. }
    rewrite find_definition_none in Hfind by done.
    injection Hfind as <- <-. split; [done|].
    simpl. destruct (truthy_opt c); [done|]. by rewrite app_nil_r.
Qed.

Lemma def_from_rows_mono (rows rows' : list expression_row) (lem : str)
    (dd : def_data) :
  incl rows rows' -> def_from_rows rows lem dd -> def_from_rows rows' lem dd.
Proof.
  intros Hincl (Hc & (r & Hr & Hrow) & Hex).
  unfold def_from_rows. split_conj; [done| |].
  - exists r. split; [by apply Hincl|done].
  - intros ex Hin. destruct (Hex ex Hin) as (Hq & r' & Hr' & Hrow').
    split; [done|]. exists r'. split; [by apply Hincl|done].
Qed.

Lemma group_expression_from_rows (rows : list expression_row)
    (m : gmap str (list def_data)) (r : expression_row) :
  from_rows rows m -> from_rows (rows ++ [r]) (group_expression m r).
Proof.
  intros Hm. destruct r as [[[[[aid lem] i] c] q] x].
  set (r := (aid, lem, i, c, q, x)).
  assert (incl rows (rows ++ [r])) as Hincl
    by (intros y Hy; apply in_or_app; by left).
  assert (In r (rows ++ [r])) as Hr by (apply in_or_app; right; by left).
  destruct (group_expression_step m aid lem i c q x) as [Hother Hcase].
  intros lem' defs' Hlook.
  destruct (decide (lem' = lem)) as [->|Hne].
  2: { rewrite Hother in Hlook by done.
       destruct (Hm lem' defs' Hlook) as ((r' & Hr' & Hl') & Hnd & Hdefs).
       split_conj; [by exists r'; split; [apply Hincl|]|done|].
       intros dd Hdd. eapply def_from_rows_mono; [exact Hincl|by apply Hdefs]. }
  split; [by exists r|].
  destruct Hcase as [(l1 & dd & dd' & l2 & Hdefs & Hl1 & Hdd & Hdd' & Hc & He
                      & Hnew)|[Hno Hnew]].
  - fold r in Hnew. rewrite Hnew in Hlook. injection Hlook as <-.
    destruct (m !! lem) as [defs|] eqn:Hold; simpl in Hdefs;
      [subst defs|by destruct l1].
    destruct (Hm lem _ Hold) as (_ & Hnd & Hall). split.
    + rewrite List.map_app in *. simpl in *. by rewrite Hdd', <- Hdd.
    + intros d [Hd|[<-|Hd]]%in_app_or.
      * eapply def_from_rows_mono; [exact Hincl|].
        apply Hall, in_or_app. by left.
      * destruct (Hall dd) as (Hcont & (r' & Hr' & Hl' & Hi' & Hc') & Hex);
          [apply in_or_app; right; by left|].
        unfold def_from_rows. split_conj.
        -- by rewrite Hc.
        -- exists r'. rewrite Hdd', Hc, <- Hdd. by split; [apply Hincl|].
        -- intros ex. rewrite He. intros [Hin|Hin]%in_app_or.
           ++ destruct (Hex ex Hin) as (Hq & r'' & Hr'' & Hrow'').
              split; [done|]. exists r''. rewrite Hdd', <- Hdd.
              by split; [apply Hincl|].
           ++ destruct (truthy_opt q) eqn:Hq; [|done].
              destruct Hin as [<-|[]]. split; [done|]. by exists r.
      * eapply def_from_rows_mono; [exact Hincl|].
        apply Hall, in_or_app. right. by right.
  - fold r in Hnew. rewrite Hnew in Hlook. injection Hlook as <-.
    assert (List.NoDup (List.map dd_id (default [] (m !! lem))) /\
            forall dd, In dd (default [] (m !! lem)) ->
                       def_from_rows (rows ++ [r]) lem dd) as [Hnd Hall].
    { destruct (m !! lem) as [defs|] eqn:Hold; simpl.
      - destruct (Hm lem _ Hold) as (_ & Hnd & Hall). split; [done|].
        intros dd Hdd. eapply def_from_rows_mono; [exact Hincl|by apply Hall].
      - split; [constructor|done]. }
    destruct (truthy_opt c) eqn:Hc; [|by rewrite app_nil_r].
    split.
    + rewrite List.map_app. simpl. apply List.NoDup_app; [done| |].
      * repeat constructor. by intros [].
      * intros k (d & <- & Hd)%in_map_iff [Hk|[]]. by apply (Hno d).
    + intros d [Hd|[<-|[]]]%in_app_or; [by apply Hall|].
      unfold def_from_rows. split_conj; [done|by exists r|]. simpl.
      destruct (truthy_opt q) eqn:Hq; [|done].
      intros ex [<-|[]]. split; [done|]. by exists r.
Qed.

(** A round of the loop removes nothing. *)
Lemma group_expression_mono (m : gmap str (list def_data))
    (r : expression_row) (lem : str) (defs : list def_data) :
  m !! lem = Some defs ->
  exists defs', group_expression m r !! lem = Some defs' /\
    forall dd, In dd defs ->
      exists dd', In dd' defs' /\ dd_id dd' = dd_id dd /\
                  incl (dd_examples dd) (dd_examples dd').
Proof.
  intros Hold. destruct r as [[[[[aid lem0] i] c] q] x].
  destruct (group_expression_step m aid lem0 i c q x) as [Hother Hcase].
  destruct (decide (lem = lem0)) as [->|Hne].
  2: { exists defs. rewrite Hother by done. split; [done|].
       intros dd Hdd. exists dd. split_conj; [done|done|apply incl_refl]. }
  rewrite Hold in Hcase. simpl in Hcase.
  destruct Hcase as [(l1 & dd & dd' & l2 & -> & Hl1 & Hdd & Hdd' & Hc & He
                      & Hnew)|[Hno Hnew]].
  - eexists. split; [exact Hnew|].
    intros d [Hd|[<-|Hd]]%in_app_or.
    + exists d. split_conj; [apply in_or_app; by left|done|apply incl_refl].
    + exists dd'. split_conj; [apply in_or_app; right; by left|congruence|].
      rewrite He. intros ex Hex. apply in_or_app. by left.
    + exists d. split_conj; [apply in_or_app; right; by right|done|apply incl_refl].
  - eexists. split; [exact Hnew|].
    intros d Hd. exists d. split_conj; [apply in_or_app; by left|done|apply incl_refl].
Qed.

Lemma group_expression_holds_rows (rows : list expression_row)
    (m : gmap str (list def_data)) (r : expression_row) :
  holds_rows rows m -> holds_rows (rows ++ [r]) (group_expression m r).
Proof.
  intros Hm r0 [Hr0|[<-|[]]]%in_app_or.
  - destruct (Hm r0 Hr0) as (defs & Hold & Hdefs).
    destruct (group_expression_mono m r _ defs Hold) as (defs' & Hnew & Hmono).
    exists defs'. split; [done|]. intros Hc.
    destruct (Hdefs Hc) as (dd & Hdd & Hid & Hex).
    destruct (Hmono dd Hdd) as (dd' & Hdd' & Hid' & Hincl).
    exists dd'. split_conj; [done|congruence|].
    intros Hq. by apply Hincl, Hex.
  - destruct r as [[[[[aid lem] i] c] q] x].
    destruct (group_expression_step m aid lem i c q x) as [_ Hcase].
    unfold xr_lemma, xr_content, xr_def_id, xr_quote, xr_explanation.
    cbn [fst snd].
    destruct Hcase as [(l1 & dd & dd' & l2 & Hdefs & Hl1 & Hdd & Hdd' & Hc
                        & He & Hnew)|[Hno Hnew]].
    + eexists. split; [exact Hnew|]. intros _.
      exists dd'. split_conj; [apply in_or_app; right; by left|done|].
      intros Hq. rewrite He, Hq. apply in_or_app. right. by left.
    + eexists. split; [exact Hnew|]. intros Hc. rewrite Hc.
      eexists. split_conj; [apply in_or_app; right; by left|done|].
      intros Hq. simpl. rewrite Hq. by left.
Qed.

(** After the loop over any rows. *)
Lemma fold_group_expression (rows : list expression_row) :
  from_rows rows (fold_left group_expression rows ∅) /\
  holds_rows rows (fold_left group_expression rows ∅).
Proof.
  induction rows as [|r rows [IH1 IH2]] using rev_ind.
  - split; [|by intros r []]. intros lem defs Hl. simpl in Hl.
    by rewrite lookup_empty in Hl.
  - rewrite fold_left_app. simpl. split.
    + by apply group_expression_from_rows.
    + by apply group_expression_holds_rows.
Qed.

Lemma expression_join_In (conn : dictionary) (el : expression_link)
    (a : article) (d : option definition_row) (e : option example_entry) :
  In (el, a, d, e) (expression_join conn) <->
  In el (dict_expression_links conn) /\ In a (dict_articles conn) /\
  expression_article_id el = article_id a /\
  In d (or_null (List.filter
                   (fun d => Z.eqb (article_id a) (d_article_id d))
                   (dict_definitions conn))) /\
  In e (or_null (List.filter
                   (fun e => match d with
                             | Some d =>
                                 bool_decide
                                   (e_definition_id e = Some (d_id d))
                             | None => false
                             end)
                   (dict_examples conn))).
Proof.
  unfold expression_join. rewrite in_flat_map. split.
  - intros (el' & Hel & Hj). apply in_flat_map in Hj as (a' & Ha & Hj).
    apply in_flat_map in Hj as (d' & Hd & Hj).
    apply in_map_iff in Hj as (e' & [= -> -> -> ->] & He).
    apply filter_In in Ha as [Ha Hid%Z.eqb_eq]. done.
  - intros (Hel & Ha & Hid & Hd & He). exists el. split; [done|].
    apply in_flat_map. exists a. split.
    { apply filter_In. split; [done|]. by apply Z.eqb_eq. }
    apply in_flat_map. exists d. split; [done|].
    apply in_map_iff. by exists e.
Qed.

Lemma linked_expressions_In (conn : dictionary) (term : str)
    (row : expression_row) :
  In row (linked_expressions conn term) <->
  exists el a d e,
    In (el, a, d, e) (expression_join conn) /\
    target_lemma el = Some term /\ word_class a = Some EXPR /\
    row = (article_id a, lemma a, d_id <$> d, d ≫= d_content,
           e ≫= e_quote, e ≫= e_explanation).
Proof.
  unfold linked_expressions.
  rewrite first_seen_In_inj by (intros y z _ _ Hyz; exact Hyz).
  rewrite in_map_iff. split.
  - intros ([[[el a] d] e] & <- & Hr). apply sort_by_In in Hr.
    apply filter_In in Hr as [Hj Hc]. cbn [fst snd] in *.
    apply holds_true, and3_true in Hc as [Ht%eq_binary_true Hw%eq_binary_true].
    by exists el, a, d, e.
  - intros (el & a & d & e & Hj & Ht & Hw & ->).
    exists (el, a, d, e). split; [done|].
    apply sort_by_In, filter_In. split; [done|]. cbn [fst snd].
    apply holds_true, and3_true. by rewrite !eq_binary_true.
Qed.

Lemma truthy_opt_Some (x : option str) :
  truthy_opt x = true -> exists s, x = Some s.
Proof. destruct x as [s|]; [by exists s|done]. Qed.

(** X15: the mapping [get_related_expressions] returns.  Its keys are
    the lemmas of the expressions linked to the term, also of those
    without a definition.  Under a lemma the definitions have distinct
    ids; each is a definition of a linked expression of that lemma, with a
    content that is neither NULL nor empty, and each of its examples is an
    example of that definition with a quote that is neither NULL nor
    empty.  And nothing is lost: every definition with such a content of a
    linked expression is listed under the lemma, with every example of it
    that has such a quote. *)
Theorem get_related_expressions_spec (conn : dictionary) (search_term : str) :
  let expr_dict := get_related_expressions conn search_term in
  (forall lem,
     is_Some (expr_dict !! lem) <->
     exists a, linked conn search_term a /\ lemma a = lem) /\
  (forall lem defs, expr_dict !! lem = Some defs ->
     List.NoDup (List.map dd_id defs) /\
     forall dd, In dd defs ->
       truthy_opt (dd_content dd) = true /\
       (exists a d,
          linked conn search_term a /\ lemma a = lem /\
          In d (dict_definitions conn) /\ d_article_id d = article_id a /\
          dd_id dd = Some (d_id d) /\ dd_content dd = d_content d) /\
       forall ex, In ex (dd_examples dd) ->
         truthy_opt ex.1 = true /\
         exists e, In e (dict_examples conn) /\
                   e_definition_id e = dd_id dd /\
                   ex = (e_quote e, e_explanation e)) /\
  (forall a d,
     linked conn search_term a -> In d (dict_definitions conn) ->
     d_article_id d = article_id a -> truthy_opt (d_content d) = true ->
     exists defs dd,
       expr_dict !! lemma a = Some defs /\ In dd defs /\
       dd_id dd = Some (d_id d) /\
       forall e, In e (dict_examples conn) ->
         e_definition_id e = Some (d_id d) ->
         truthy_opt (e_quote e) = true ->
         In (e_quote e, e_explanation e) (dd_examples dd)).
Proof.
  intros expr_dict. subst expr_dict. unfold get_related_expressions.
  destruct (fold_group_expression (linked_expressions conn search_term))
    as [Hfrom Hholds].
  set (m := fold_left group_expression
              (linked_expressions conn search_term) ∅) in *.
  assert (forall el a d e,
            In (el, a, d, e) (expression_join conn) ->
            target_lemma el = Some search_term ->
            word_class a = Some EXPR -> linked conn search_term a)
    as Hlinked.
  { intros el a d e (Hel & Ha & Hid & _)%expression_join_In Ht Hw.
    split; [done|]. split; [done|]. by exists el. }
  split_conj.
  - intros lem. split.
    + intros [defs Hdefs].
      destruct (Hfrom lem defs Hdefs) as ((r & Hr & Hlem) & _).
      apply linked_expressions_In in Hr as (el & a & d & e & Hj & Ht & Hw & ->).
      exists a. split; [by apply (Hlinked el a d e)|done].
    + intros (a & (Ha & Hw & el & Hel & Hid & Ht) & <-).
      destruct (or_null_inhabited
                  (List.filter
                     (fun d => Z.eqb (article_id a) (d_article_id d))
                     (dict_definitions conn))) as [d Hd].
      destruct (or_null_inhabited
                  (List.filter
                     (fun e => match d with
                               | Some d =>
                                   bool_decide
                                     (e_definition_id e = Some (d_id d))
                               | None => false
                               end)
                     (dict_examples conn))) as [e He].
      destruct (Hholds (article_id a, lemma a, d_id <$> d, d ≫= d_content,
                        e ≫= e_quote, e ≫= e_explanation))
        as (defs & Hdefs & _).
      { apply linked_expressions_In. exists el, a, d, e.
        split; [by apply expression_join_In|done]. }
      by exists defs.
  - intros lem defs Hdefs.
    destruct (Hfrom lem defs Hdefs) as (_ & Hnd & Hall). split; [done|].
    intros dd Hdd.
    destruct (Hall dd Hdd) as (Hc & (r & Hr & Hlem & Hid & Hcont) & Hex).
    split; [done|]. split.
    + apply linked_expressions_In in Hr as (el & a & d & e & Hj & Ht & Hw & ->).
      unfold xr_lemma, xr_def_id, xr_content in *. cbn [fst snd] in *.
      rewrite <- Hcont in Hc. apply truthy_opt_Some in Hc as [s Hs].
      destruct d as [d|]; [|done].
      exists a, d. split; [by apply (Hlinked el a (Some d) e)|].
      apply expression_join_In in Hj as (_ & _ & _ & Hd & _).
      apply or_null_In in Hd as [[_ [=]]|(d' & [= <-] & Hd)].
      apply filter_In in Hd as [Hd Haid%Z.eqb_eq]. by split_conj.
    + intros ex Hin. destruct (Hex ex Hin) as (Hq & r' & Hr' & _ & Hid' & Hquote
                                               & Hexpl).
      split; [done|].
      apply linked_expressions_In in Hr'
        as (el & a & d & e & Hj & Ht & Hw & ->).
      unfold xr_def_id, xr_quote, xr_explanation in *. cbn [fst snd] in *.
      rewrite <- Hquote in Hq. apply truthy_opt_Some in Hq as [s Hs].
      destruct e as [e|]; [|done].
      apply expression_join_In in Hj as (_ & _ & _ & _ & He).
      apply or_null_In in He as [[_ [=]]|(e' & [= <-] & He)].
      apply filter_In in He as [He Hdef]. destruct d as [d|]; [|done].
      apply bool_decide_eq_true in Hdef.
      exists e. split_conj; [done|by rewrite Hdef, <- Hid'|].
      destruct ex as [q x]. simpl in *. by subst.
  - intros a d Hlink Hd Haid Hc.
    pose proof Hlink as (Ha & Hw & el & Hel & Hid & Ht).
    assert (In (Some d)
              (or_null (List.filter
                          (fun d => Z.eqb (article_id a) (d_article_id d))
                          (dict_definitions conn)))) as Hdjoin.
    { apply or_null_In. right. exists d. split; [done|].
      apply filter_In. split; [done|]. by apply Z.eqb_eq. }
    assert (forall e,
              In e (or_null (List.filter
                               (fun e => bool_decide
                                           (e_definition_id e = Some (d_id d)))
                               (dict_examples conn))) ->
              exists defs, m !! lemma a = Some defs /\
                exists dd, In dd defs /\ dd_id dd = Some (d_id d) /\
                  (truthy_opt (e ≫= e_quote) = true ->
                   In (e ≫= e_quote, e ≫= e_explanation) (dd_examples dd)))
      as Hrow.
    { intros e He.
      destruct (Hholds (article_id a, lemma a, Some (d_id d), d_content d,
                        e ≫= e_quote, e ≫= e_explanation))
        as (defs & Hdefs & Hdd).
      { apply linked_expressions_In. exists el, a, (Some d), e.
        split; [by apply expression_join_In|done]. }
      exists defs. split; [done|]. by apply Hdd. }
    destruct (or_null_inhabited
                (List.filter
                   (fun e => bool_decide (e_definition_id e = Some (d_id d)))
                   (dict_examples conn))) as [e0 He0].
    destruct (Hrow e0 He0) as (defs & Hdefs & dd & Hdd & Hid0 & _).
    exists defs, dd. split_conj; try done.
    intros e He Hdef Hq.
    destruct (Hrow (Some e)) as (defs' & Hdefs' & dd' & Hdd' & Hid' & Hin).
    { apply or_null_In. right. exists e. split; [done|].
      apply filter_In. split; [done|]. by apply bool_decide_eq_true. }
    assert (defs' = defs) as -> by congruence.
    assert (dd' = dd) as ->.
    { destruct (Hfrom _ _ Hdefs) as (_ & Hnd & _).
      apply (NoDup_map_inj dd_id defs); [done..|congruence]. }
    by apply Hin.
Qed.

(** The expressions of "hus": "gå i hus" with its definition and the one
    example that has a quote, "i hus" without a definition; the entry
    "hus" itself, which is not an expression, is left out. *)
Example get_related_expressions_example :
  let expr_dict := get_related_expressions hus_dictionary (py "hus") in
  expr_dict !! ga_i_hus =
    Some [ {| dd_id := Some 20%Z;
              dd_content := Some (py "komme under tak");
              dd_examples := [(Some (py "vi gikk i hus"),
                               Some (py "inn"))] |} ] /\
  expr_dict !! py "i hus" = Some [] /\
  expr_dict !! py "hus" = None.
Proof. vm_compute. by split_conj. Qed.

(** The definitions of "hus" by level, and its examples by definition. *)
Example get_definitions_and_examples_example :
  let '(definitions, examples_by_def) :=
    get_definitions_and_examples hus_dictionary 1 in
  List.map (fun t => t.1.1.1.1.1) definitions = [11%Z; 10%Z] /\
  examples_by_def !! Some 11%Z = Some [(Some (py "bygge hus"), None)] /\
  examples_by_def !! None = Some [(Some (py "hus og hjem"), None)] /\
  examples_by_def !! Some 10%Z = None.
Proof. vm_compute. by split_conj. Qed.

(** ** The layout of the results *)

Lemma fold_parts {A : Type} (f : Z -> A -> str) (c : Z -> bool) (s : str)
    (xs : list (Z * A)) (acc : list str) :
  fold_left
    (fun output_parts '(i, x) =>
       let output_parts := output_parts ++ [f i x] in
       if c i then output_parts ++ [s] else output_parts)
    xs acc =
  acc ++ List.flat_map (fun '(i, x) => f i x :: if c i then [s] else []) xs.
Proof.
  revert acc. induction xs as [|[i x] xs IH]; intros acc; simpl.
  - by rewrite app_nil_r.
  - rewrite IH. destruct (c i); by rewrite <- !app_assoc.
Qed.

Lemma parts_interspersed {A : Type} (f : Z -> A -> str) (s : str) (m k : Z)
    (l : list A) :
  m = (k + len l)%Z ->
  List.flat_map (fun '(i, x) => f i x :: if (i <? m - 1)%Z then [s] else [])
    (enumerate_from k l) =
  intersperse s (List.map (fun '(i, x) => f i x) (enumerate_from k l)).
Proof.
  revert k. induction l as [|x l IH]; intros k Hm; [done|].
  cbn [enumerate_from List.flat_map List.map]. unfold len in *.
  rewrite IH by (cbn [length] in Hm; lia).
  destruct l as [|y l].
  - cbn [length] in Hm. assert ((k <? m - 1)%Z = false) as ->; [|done].
    apply Z.ltb_ge. lia.
  - cbn [length] in Hm. assert ((k <? m - 1)%Z = true) as ->; [|done].
    apply Z.ltb_lt. lia.
Qed.

Lemma parts_without_rule {A : Type} (f : Z -> A -> str) (s : str) (m k : Z)
    (l : list A) :
  (m - 1 <= k)%Z ->
  List.flat_map (fun '(i, x) => f i x :: if (i <? m - 1)%Z then [s] else [])
    (enumerate_from k l) =
  List.map (fun '(i, x) => f i x) (enumerate_from k l).
Proof.
  revert k. induction l as [|x l IH]; intros k Hm; [done|].
  cbn [enumerate_from List.flat_map List.map].
  rewrite IH by lia.
  assert ((k <? m - 1)%Z = false) as ->; [|done]. apply Z.ltb_ge. lia.
Qed.

(** X16: the text of a result page.  With a limit that is not negative
    the page holds the heading, the first [limit] results, a rule between
    two results and nowhere else, and the count.  With a negative limit
    the results but the last [-limit] are shown, and no rule stands
    between them. *)
Theorem results_parts_layout (colors : Colors)
    (format_result :
       article -> bool -> bool -> option Z -> str -> bool -> bool -> bool ->
       bool -> str)
    (float_str : Q -> str) (args : Args) (dargs : DisplayArgs)
    (search_type : search_type) (clean_query : str)
    (results : list article) :
  let limit := limit_arg dargs in
  let entries shown :=
    List.map (fun '(i, r) => result_output format_result dargs clean_query i r)
             (enumerate shown) in
  let page := results_parts colors format_result float_str args dargs
                search_type clean_query results in
  ((0 <= limit)%Z ->
   page = [heading colors float_str args search_type clean_query] ++
          intersperse (rule colors 45)
            (entries (take (Z.to_nat limit) results)) ++
          result_count colors dargs results) /\
  ((limit < 0)%Z ->
   page = [heading colors float_str args search_type clean_query] ++
          entries (take (length results - Z.to_nat (- limit)) results) ++
          result_count colors dargs results).
Proof.
  intros limit entries page. subst page entries. unfold results_parts.
  rewrite fold_parts. fold limit. split_conj.
  - intros Hlimit. rewrite <- app_assoc. do 2 f_equal.
    unfold slice_to. rewrite (proj2 (Z.leb_le 0 limit)) by done.
    apply parts_interspersed. unfold len. rewrite length_take. lia.
  - intros Hlimit. rewrite <- app_assoc. do 2 f_equal.
    unfold slice_to. rewrite (proj2 (Z.leb_gt 0 limit)) by lia.
    apply parts_without_rule. unfold len. lia.
Qed.

(** ** The word-class options *)

Lemma filter_none {A : Type} (P : A -> bool) (l : list A) :
  (forall x, In x l -> P x = false) -> List.filter P l = [].
Proof.
  induction l as [|x l IH]; [done|]. intros Hall. simpl.
  rewrite Hall by by left. apply IH. intros y Hy. apply Hall. by right.
Qed.

(** X17: [--expressions-only] together with [--adj], [--verb], [--noun]
    or [--adv] leaves nothing to show: the results the dispatch holds are
    expressions, an expression has word class EXPR, which holds none of
    the four tags, and so the word-class filter empties the list. *)
Theorem expressions_only_with_word_class `{PyRuntime} (cfg : SearchConfig)
    (conn : database) (args : Args) (dargs : DisplayArgs) (query : str)
    (results : list article) :
  expressions_only_flag args = true ->
  adj_flag dargs || verb_flag dargs || noun_flag dargs || adv_flag dargs
    = true ->
  dispatch cfg conn args query = Results results ->
  filter_word_class dargs results = [].
Proof.
  intros Hexpr Hflag. unfold dispatch, override. rewrite Hexpr.
  destruct (all_examples_flag args); [done|].
  destruct (parse_search_query query) as [[st cq] oq]. cbn [perform_search].
  intros [= <-].
  assert (forall tag, In tag [ADJ; VERB; NOUN; ADV] ->
            List.filter (has_word_class tag)
              (search_expressions_only cfg conn query) = []) as Hnone.
  { intros tag Htag. apply filter_none. intros r Hr.
    rewrite search_expressions_only_eq in Hr.
    apply sort_by_In, first_seen_sub, expressions_hits_In in Hr as [_ Hwc].
    unfold has_word_class. rewrite Hwc.
    simpl in Htag. by destruct Htag as [<-|[<-|[<-|[<-|[]]]]]. }
  unfold filter_word_class.
  destruct (adj_flag dargs); [by rewrite Hnone by (simpl; tauto)|].
  destruct (verb_flag dargs); [by rewrite Hnone by (simpl; tauto)|].
  destruct (noun_flag dargs); [by rewrite Hnone by (simpl; tauto)|].
  destruct (adv_flag dargs); [by rewrite Hnone by (simpl; tauto)|].
  done.
Qed.

(** [-x --noun hus]: the expression "hus og hjem" is found and then
    filtered out. *)
Lemma expressions_only_with_word_class_witness :
  let args := {| all_examples_flag := false; expressions_only_flag := true;
                 fuzzy_flag := false; anywhere_flag := false;
                 threshold_arg := float_0_6 |} in
  let dargs := {| adj_flag := false; verb_flag := false; noun_flag := true;
                  adv_flag := false; only_examples_flag := false;
                  only_etymology_flag := false;
                  only_inflections_flag := false;
                  no_definitions_flag := false; no_examples_flag := false;
                  max_examples_arg := None; limit_arg := 10;
                  paginate_flag := false; no_paginate_flag := false |} in
  search_expressions_only replacement_on hus_db (py "hus") =
    [entry 2 (py "hus og hjem") EXPR None] /\
  filter_word_class dargs [entry 2 (py "hus og hjem") EXPR None] = [].
Proof.
  intros args dargs. split; [by vm_compute|].
  by apply (@expressions_only_with_word_class (latin1_runtime [])
              replacement_on hus_db args dargs (py "hus")).
Defined.

(** The page of "jazz@" without colours: the heading, the two entries
    with a rule between them, and the count; with a limit of 1 the second
    entry and the rule are left out, and the count says so. *)
Example results_page_example :
  let page limit :=
    @show (latin1_runtime []) replacement_on jazz_db no_colors lemma_only
          no_highlight no_float no_flags
          {| adj_flag := false; verb_flag := false; noun_flag := false;
             adv_flag := false; only_examples_flag := false;
             only_etymology_flag := false; only_inflections_flag := false;
             no_definitions_flag := false; no_examples_flag := false;
             max_examples_arg := None; limit_arg := limit;
             paginate_flag := false; no_paginate_flag := false |}
          (py "jazz@") in
  let heading :=
    glass ++ py " Prefix search for 'jazz@' (terms starting with 'jazz')" in
  page 10%Z =
    [Paginate
       (join [10]
          [heading; py "jazz"; List.repeat 45 80; py "jazzfestival";
           [10] ++ py "Found 2 results."]) false false] /\
  page 1%Z =
    [Paginate
       (join [10]
          [heading; py "jazz";
           [10] ++ py "Found 2 results (showing 1). Use --limit 2 to see all."])
       false false].
Proof. vm_compute. by split. Qed.

(** ** The modes, from narrow to wide *)

Section Widening.
Variable cfg : SearchConfig.
Variable conn : database.

Lemma like_after_both (v t : str) :
  Sql.like_match (pct_after v) t = true ->
  Sql.like_match (pct_both v) t = true.
Proof. intros Hm. by apply (like_match_percent (pct_after v) [] t). Qed.

Lemma prefix_rows_anywhere_term (ie : bool) (v : str) (a : article) :
  In a (prefix_rows conn ie v) -> In a (anywhere_term_rows conn ie v).
Proof.
  unfold prefix_rows, anywhere_term_rows. rewrite !select_articles_In.
  intros [Ha Hc]. split; [done|].
  apply and3_true in Hc as [Hlike Hf]. apply and3_true. split; [|done].
  rewrite !or3_true in *. destruct Hlike as [[Hl|Hl]|Hl]; [|tauto..].
  left; left. simpl in *. injection Hl as Hl. f_equal.
  by apply like_after_both.
Qed.

Lemma anywhere_term_rows_fulltext (ie : bool) (v : str) (a : article) :
  In a (anywhere_term_rows conn ie v) -> In a (fulltext_rows conn ie v).
Proof.
  unfold anywhere_term_rows, fulltext_rows.
  rewrite select_articles_In, select_distinct_joined_iff.
  intros [Ha Hc]. destruct (joined_any conn a Ha) as (d & e & Hj).
  exists d, e. split; [done|].
  apply and3_true in Hc as [Hlike Hf]. apply and3_true. split; [|done].
  rewrite !or3_true in *. tauto.
Qed.

Lemma anywhere_rows_fulltext (ie : bool) (v : str) (a : article) :
  In a (anywhere_rows conn ie v) -> In a (fulltext_rows conn ie v).
Proof.
  unfold anywhere_rows, fulltext_rows. rewrite !select_distinct_joined_iff.
  intros (d & e & Hj & Hc). exists d, e. split; [done|].
  apply and3_true in Hc as [Hlike Hf]. apply and3_true. split; [|done].
  rewrite !or3_true in *. tauto.
Qed.

Lemma expressions_rows_anywhere_term (v : str) (a : article) :
  In a (expressions_rows conn v) -> In a (anywhere_term_rows conn true v).
Proof.
  unfold expressions_rows, anywhere_term_rows. rewrite !select_articles_In.
  intros [Ha Hc]. split; [done|].
  apply and3_true in Hc as [_ Hlike]. apply and3_true. split; [|done].
  rewrite !or3_true in *. tauto.
Qed.
End Widening.

(** X18: a wider mode loses nothing.  With ids unique and the same
    [include_expr], what the prefix search finds the anywhere-term search
    finds, and what the anywhere-term search or the anywhere search finds
    the full-text search finds; what the expressions-only search finds the
    anywhere-term search finds when it includes expressions. *)
Theorem wider_mode_finds_more `{PyRuntime} (cfg : SearchConfig)
    (conn : database) (query : str) (include_expr : option bool) :
  List.NoDup (List.map article_id (articles conn)) ->
  incl (search_prefix cfg conn query include_expr)
       (search_anywhere_term cfg conn query include_expr) /\
  incl (search_anywhere_term cfg conn query include_expr)
       (search_fulltext cfg conn query include_expr) /\
  incl (search_anywhere cfg conn query include_expr)
       (search_fulltext cfg conn query include_expr) /\
  incl (search_expressions_only cfg conn query)
       (search_anywhere_term cfg conn query (Some true)).
Proof.
  intros Hids.
  rewrite search_prefix_eq, !search_anywhere_term_eq, search_fulltext_eq,
    search_anywhere_eq, search_expressions_only_eq.
  unfold prefix_hits, anywhere_term_hits, fulltext_hits, anywhere_hits,
    expressions_hits.
  assert (forall ie v r, In r (anywhere_term_rows conn ie v) ->
                         In r (articles conn)) as Hterm.
  { intros ie v r Hr. by apply select_articles_In in Hr as [Hr _]. }
  assert (forall ie v r, In r (fulltext_rows conn ie v) ->
                         In r (articles conn)) as Hfull.
  { intros ie v r Hr. by apply select_distinct_joined_In in Hr as [Hr _]. }
  assert (forall ie v r, In r (anywhere_rows conn ie v) ->
                         In r (articles conn)) as Hany.
  { intros ie v r Hr. by apply select_distinct_joined_In in Hr as [Hr _]. }
  split_conj; intros a.
  - rewrite !(sorted_hits_In cfg conn); try done; [|by apply Hterm| ].
    + intros (v & Hv & [Ha _]%filter_In). exists v. split; [done|].
      by apply prefix_rows_anywhere_term.
    + intros v r [Hr _]%filter_In.
      by apply select_articles_In in Hr as [Hr _].
  - rewrite !(sorted_hits_In cfg conn); try done;
      [|by apply Hfull|by apply Hterm].
    intros (v & Hv & Ha). exists v. split; [done|].
    by apply anywhere_term_rows_fulltext.
  - rewrite !(sorted_hits_In cfg conn); try done;
      [|by apply Hfull|by apply Hany].
    intros (v & Hv & Ha). exists v. split; [done|].
    by apply anywhere_rows_fulltext.
  - rewrite !(sorted_hits_In cfg conn); try done; [|by apply Hterm| ].
    + intros (v & Hv & Ha). exists v. split; [done|].
      by apply expressions_rows_anywhere_term.
    + intros v r Hr. by apply select_articles_In in Hr as [Hr _].
Qed.

(** "jazz@" and "@jazz": both entries either way. *)
Lemma wider_mode_finds_more_witness :
  incl (@search_prefix (latin1_runtime []) replacement_on jazz_db (py "jazz")
          None)
       (search_anywhere_term replacement_on jazz_db (py "jazz") None).
Proof.
  destruct (@wider_mode_finds_more (latin1_runtime []) replacement_on jazz_db
              (py "jazz") None) as [Hincl _]; [|exact Hincl].
  vm_compute. repeat constructor; simpl; intuition discriminate.
Defined.

(** ** An equal lemma under the fuzzy search *)

(** X19: the fuzzy search finds what is equal.  When a string has ratio 1
    with itself, ids are unique and the threshold is at most 1, every
    entry that passes the expression filter and whose lemma, or one of
    whose all_lemmas, is the query up to case is among the results. *)
Theorem fuzzy_finds_equal `{PyRuntime} (cfg : SearchConfig)
    (conn : database) (query : str) (threshold : Q)
    (include_expr : option bool) (a : article) :
  (forall x, ratio x x == 1)%Q ->
  List.NoDup (List.map article_id (articles conn)) ->
  (threshold <= 1)%Q ->
  In a (articles conn) ->
  expr_filter (default false include_expr) a = Some true ->
  same_lower (lemma a) query \/
  (exists e, In e (split_bar (all_lemmas a)) /\ same_lower e query) ->
  In a (search_fuzzy cfg conn query (Some threshold) include_expr).
Proof.
  intros Hone Hids Ht Ha Hf Heq. apply search_fuzzy_In; [done|].
  split; [done|]. split; [done|].
  exists query. split; [apply first_variant|].
  assert (forall e, same_lower e query ->
            (threshold <= similarity query e)%Q) as Hsim.
  { intros e He. unfold similarity, same_lower in *. rewrite He.
    by rewrite Hone. }
  unfold fuzzy_score.
  destruct (Qle_bool threshold (similarity query (lemma a))) eqn:H1;
    [by eexists|].
  assert (Qle_bool threshold
            (max_similarity query (split_bar (all_lemmas a))) = true) as ->;
    [|by eexists].
  apply Qle_bool_iff, max_similarity_spec.
  destruct Heq as [Heq|(e & He & Heq)].
  - apply Hsim, Qle_bool_iff in Heq. congruence.
  - right. exists e. split; [done|]. by apply Hsim.
Qed.

Lemma ratio_table_same (a : str) : (ratio_table [] a a == 1)%Q.
Proof. simpl. by rewrite str_eqb_refl. Qed.

(** "STEIN" finds "stein" at the threshold 1. *)
Lemma fuzzy_finds_equal_witness :
  In (entry 1 (py "stein") NOUN None)
     (@search_fuzzy (latin1_runtime []) replacement_on stein_db (py "STEIN")
        (Some 1%Q) None).
Proof.
  apply (@fuzzy_finds_equal (latin1_runtime []) replacement_on stein_db
           (py "STEIN") 1%Q None (entry 1 (py "stein") NOUN None)).
  - intros x. apply ratio_table_same.
  - vm_compute. repeat constructor; simpl; intuition discriminate.
  - done.
  - vm_compute. by left.
  - reflexivity.
  - left. reflexivity.
Defined.

(** ** Examples and the anywhere search *)

(** X20: the example finder and the anywhere search agree.  With ids
    unique, every row the example finder returns carries the lemma and the
    word class of an entry that the anywhere search finds for the same
    query when it includes expressions. *)
Theorem examples_within_anywhere `{PyRuntime} (cfg : SearchConfig)
    (conn : database) (query : str) (row : example_row) :
  List.NoDup (List.map article_id (articles conn)) ->
  In row (search_all_examples cfg conn query) ->
  exists a, In a (search_anywhere cfg conn query (Some true)) /\
            lemma a = row_lemma row /\ word_class a = row.2.
Proof.
  intros Hids. rewrite search_all_examples_eq, search_anywhere_eq.
  intros Hrow%sort_by_In%first_seen_sub.
  apply in_flat_map in Hrow as (v & Hv & [Hr _]%filter_In).
  apply example_rows_In in Hr as (e & a & He & Ha & Hid & Hq & _ & Hl & Hr).
  exists a. split; [|by rewrite Hr].
  unfold anywhere_hits. apply (sorted_hits_In cfg conn); [done| |].
  { intros v' r Hr'. by apply select_distinct_joined_In in Hr' as [Hr' _]. }
  exists v. split; [done|].
  unfold anywhere_rows. apply select_distinct_joined_iff.
  destruct (or_null_inhabited
              (List.filter
                 (fun d => Z.eqb (article_id a) (def_article_id d))
                 (definitions conn))) as [d Hd].
  exists d, (Some e). split.
  - apply left_join_In. split; [done|]. split; [done|].
    apply or_null_In. right. exists e. split; [done|].
    apply filter_In. split; [done|]. apply Z.eqb_eq. by symmetry.
  - apply and3_true. split; [|done]. rewrite !or3_true. left. by right.
Qed.

(** "gikk" in the one example of "hus". *)
Lemma examples_within_anywhere_witness :
  exists a,
    In a (search_anywhere replacement_on huset_db (py "gikk") (Some true)) /\
    lemma a = py "hus" /\ word_class a = Some NOUN.
Proof.
  apply (@examples_within_anywhere (latin1_runtime []) replacement_on huset_db
           (py "gikk")
           (py "Han gikk til huset.", None, py "hus", Some NOUN)).
  - vm_compute. repeat constructor; simpl; intuition discriminate.
  - vm_compute. by left.
Defined.
